(** * llm-monitor: the dashboard client, embedded and verified

    The sources are the Vue components [ui/src/components/Llmm.vue] and
    [ui/src/views/ChatView.vue].  A method of a component is a function
    over the [data()] fields it touches; every answer of the network it
    awaits is an argument, every request it sends and every [alert] it
    raises is part of the result.  The parts of the template that the
    properties speak of are functions from the state to what is shown.

    Layout: the JavaScript values and the string and JSON functions of
    the platform ([JS], [Text], [JSON]); the network ([Net]); then the
    component, dialog by dialog ([Pull], [Chat], [Dashboard], [Cells],
    [ModelList], [Litellm]); the alias bridge of the server, which is
    not among the sources ([AliasBridge]); sample inputs; the search
    box, the selection of hosts and the opening and closing of the
    dialogs ([Search], [Selection], [Models], [LitellmList], [Bulk],
    [PullDialog]); and the properties, each group of lemmas followed by
    the theorems it serves.

    Conventions of the embedding.
    - Text is a [string] holding UTF-8 bytes.  [TextDecoder.decode] is
      the identity: a read holds whole characters.
    - A JavaScript number is an exact rational ([Q]).  The rounding of
      binary64 arithmetic is not modelled; on whole byte counts below
      2^53 sums are exact in the engine as well.
    - Values that come off the wire are [JS.value]s: JSON plus
      [undefined].  Truthiness, [||], [?.] and [===] are as in the
      language.
    - A coercion of a value of an unexpected type (a string divided by a
      number, an object appended to a string) is outside the model: the
      run is then [Unmodelled], never a made-up value.
    - A timer of [setInterval] is an entry of a table; it calls back at
      the multiples of its period. *)

From Stdlib Require Import ZArith QArith Qround Qabs List String Ascii Bool.
From Stdlib Require Import Lia Lqa.
From Stdlib Require Import DecimalString.
From stdpp Require Import gmap.
Import ListNotations.

Local Open Scope string_scope.
Local Open Scope list_scope.
Local Set Warnings "-register-all".

(* ===================================================================== *)
(** ** JavaScript values *)
(* ===================================================================== *)

Module JS.

Inductive value : Type :=
| VUndefined
| VNull
| VBool (b : bool)
| VNum (q : Q)
| VStr (s : string)
| VArr (items : list value)
| VObj (fields : list (string * value)).

(** [ToBoolean]: what [if (v)], [!v], [a || b] and [a && b] test. *)
Definition truthy (v : value) : bool :=
  match v with
  | VUndefined | VNull => false
  | VBool b => b
  | VNum q => negb (Qeq_bool q 0)
  | VStr s => negb (String.eqb s "")
  | VArr _ | VObj _ => true
  end.

(** [a || b] *)
Definition or_else (a b : value) : value := if truthy a then a else b.

Fixpoint lookup_field (k : string) (fs : list (string * value)) : value :=
  match fs with
  | [] => VUndefined
  | (k', v) :: r => if String.eqb k k' then v else lookup_field k r
  end.

(** [v.k] for a data property name [k].  [None] is the [TypeError] of
    reading a property of [null] or [undefined].  The names read by the
    components ([endpoints], [status], [error], ...) are no property of
    an array, string, number or boolean, so those yield [undefined]. *)
Definition get (v : value) (k : string) : option value :=
  match v with
  | VUndefined | VNull => None
  | VObj fs => Some (lookup_field k fs)
  | _ => Some VUndefined
  end.

(** [v?.k] *)
Definition get_opt (v : value) (k : string) : value :=
  match get v k with
  | Some x => x
  | None => VUndefined
  end.

(** [v[0]] on a value that is not [null] or [undefined]. *)
Definition item0 (v : value) : value :=
  match v with
  | VArr (x :: _) => x
  | VObj fs => lookup_field "0" fs
  | VStr s => match s with
              | EmptyString => VUndefined
              | String c _ => VStr (String c EmptyString)
              end
  | _ => VUndefined
  end.

(** [v === 'lit'] *)
Definition is_string (v : value) (lit : string) : bool :=
  match v with
  | VStr s => String.eqb s lit
  | _ => false
  end.

(** Assignment to an object property while parsing: an existing key
    keeps its place and takes the new value, a new key goes last. *)
Fixpoint set_field (k : string) (v : value) (fs : list (string * value))
  : list (string * value) :=
  match fs with
  | [] => [(k, v)]
  | (k', v') :: r =>
      if String.eqb k k' then (k', v) :: r else (k', v') :: set_field k v r
  end.

(** [Math.round]: to the nearest integer, ties towards +infinity. *)
Definition Math_round (q : Q) : Z := Qfloor (q + (1 # 2)).

End JS.

Import JS.

(* ===================================================================== *)
(** ** String methods used by the stream loops *)
(* ===================================================================== *)

Module Text.

Definition code (c : ascii) : N := N_of_ascii c.

(** [s.split(sep)] for a one-character separator. *)
Fixpoint split (sep : ascii) (s : string) : list string :=
  match s with
  | EmptyString => [EmptyString]
  | String c r =>
      if Ascii.eqb c sep then EmptyString :: split sep r
      else match split sep r with
           | h :: t => String c h :: t
           | [] => [String c EmptyString]
           end
  end.

(** The WhiteSpace and LineTerminator code points of ECMAScript, in
    their UTF-8 encoding, by length. *)
Definition ws1 (a : ascii) : bool :=
  let n := code a in
  (N.leb 9 n && N.leb n 13) || N.eqb n 32.

Definition ws2 (a b : ascii) : bool :=
  N.eqb (code a) 194 && N.eqb (code b) 160.             (* U+00A0 *)

Definition ws3 (a b c : ascii) : bool :=
  let x := code a in let y := code b in let z := code c in
  (N.eqb x 225 && N.eqb y 154 && N.eqb z 128)           (* U+1680 *)
  || (N.eqb x 226 && N.eqb y 128 &&
      ((N.leb 128 z && N.leb z 138)                     (* U+2000..200A *)
       || N.eqb z 168 || N.eqb z 169 || N.eqb z 175))   (* 2028 2029 202F *)
  || (N.eqb x 226 && N.eqb y 129 && N.eqb z 159)        (* U+205F *)
  || (N.eqb x 227 && N.eqb y 128 && N.eqb z 128)        (* U+3000 *)
  || (N.eqb x 239 && N.eqb y 187 && N.eqb z 191).       (* U+FEFF *)

Fixpoint trimStart_list (l : list ascii) : list ascii :=
  match l with
  | [] => []
  | a :: r =>
      if ws1 a then trimStart_list r
      else match r with
           | [] => l
           | b :: r2 =>
               if ws2 a b then trimStart_list r2
               else match r2 with
                    | [] => l
                    | c :: r3 => if ws3 a b c then trimStart_list r3 else l
                    end
           end
  end.

(** The same scan on the reversed text: the bytes of a character come
    last byte first. *)
Fixpoint trimEnd_rev (l : list ascii) : list ascii :=
  match l with
  | [] => []
  | a :: r =>
      if ws1 a then trimEnd_rev r
      else match r with
           | [] => l
           | b :: r2 =>
               if ws2 b a then trimEnd_rev r2
               else match r2 with
                    | [] => l
                    | c :: r3 => if ws3 c b a then trimEnd_rev r3 else l
                    end
           end
  end.

(** [s.trim()] *)
Definition trim (s : string) : string :=
  string_of_list_ascii
    (rev (trimEnd_rev (rev (trimStart_list (list_ascii_of_string s))))).

(** [s.trim()] used as a condition: true when something is left. *)
Definition nonblank (s : string) : bool := negb (String.eqb (trim s) "").

(** [s.startsWith(p)] *)
Definition startsWith (s p : string) : bool := String.prefix p s.

Fixpoint drop (n : nat) (s : string) : string :=
  match n, s with
  | O, _ => s
  | S n', String _ r => drop n' r
  | S _, EmptyString => EmptyString
  end.

(** [s.replace(pat, rep)] with a string pattern: the first occurrence
    only.  ([rep] holds no [$] pattern in the sources.) *)
Fixpoint replace (pat rep : string) (s : string) : string :=
  if String.prefix pat s then rep ++ drop (String.length pat) s
  else match s with
       | EmptyString => EmptyString
       | String c r => String c (replace pat rep r)
       end.

(** The double quote. *)
Definition quote : ascii := "034"%char.

(** A text written with apostrophes for its double quotes. *)
Fixpoint quoted (s : string) : string :=
  match s with
  | EmptyString => EmptyString
  | String c r =>
      String (if Ascii.eqb c "'"%char then quote else c) (quoted r)
  end.

(** A text that ends where a line ends. *)
Definition whole_lines (chunk : string) : Prop :=
  exists body : string, chunk = (body ++ String "010" EmptyString)%string.

(** Decimal rendering of a natural number, as [String(n)] gives it. *)
Definition of_nat (n : nat) : string := NilZero.string_of_uint (Nat.to_uint n).

Definition of_N (n : N) : string := NilZero.string_of_uint (N.to_uint n).

End Text.


(* ===================================================================== *)
(** ** [JSON.parse] *)
(* ===================================================================== *)

(** The platform's parser, as ECMA-404 defines it: a lexer that reads the
    text one byte at a time, and a pushdown automaton over its tokens.
    Both are folds, hence total.  [None] is the [SyntaxError]. *)

Module JSON.

Inductive token : Type :=
| TLBrace | TRBrace | TLBrack | TRBrack | TColon | TComma
| TAtom (v : value).

(** *** Numbers *)

Inductive numst : Type :=
| NSign | NZero | NInt | NFracStart | NFrac | NExpStart | NExpSign | NExp.

Record numacc : Type := {
  neg : bool;       (* a leading minus *)
  mant : N;         (* the digits of the integer and fraction parts *)
  fracd : N;        (* how many of them are fraction digits *)
  eneg : bool;      (* a minus in the exponent *)
  ex : N            (* the exponent digits *)
}.

Definition num0 (sgn : bool) (d : N) : numacc :=
  {| neg := sgn; mant := d; fracd := 0; eneg := false; ex := 0 |}.

Definition digit (c : ascii) : option N :=
  let n := Text.code c in
  if (N.leb 48 n && N.leb n 57)%bool then Some (n - 48)%N else None.

Definition hexdigit (c : ascii) : option N :=
  let n := Text.code c in
  if (N.leb 48 n && N.leb n 57)%bool then Some (n - 48)%N
  else if (N.leb 65 n && N.leb n 70)%bool then Some (n - 55)%N
  else if (N.leb 97 n && N.leb n 102)%bool then Some (n - 87)%N
  else None.

Definition num_accepting (st : numst) : bool :=
  match st with
  | NZero | NInt | NFrac | NExp => true
  | _ => false
  end.

Definition num_value (a : numacc) : Q :=
  let m := if neg a then (- Z.of_N (mant a))%Z else Z.of_N (mant a) in
  let e := ((if eneg a then - Z.of_N (ex a) else Z.of_N (ex a))
            - Z.of_N (fracd a))%Z in
  Qred (if (0 <=? e)%Z then inject_Z (m * 10 ^ e)
        else Qmake m (Z.to_pos (10 ^ (- e)))).

(** One more byte of a number; [None] when the byte does not continue it. *)
Definition num_step (st : numst) (a : numacc) (c : ascii)
  : option (numst * numacc) :=
  let push_int d :=
    {| neg := neg a; mant := (mant a * 10 + d)%N; fracd := fracd a;
       eneg := eneg a; ex := ex a |} in
  let push_frac d :=
    {| neg := neg a; mant := (mant a * 10 + d)%N; fracd := (fracd a + 1)%N;
       eneg := eneg a; ex := ex a |} in
  let push_exp d :=
    {| neg := neg a; mant := mant a; fracd := fracd a;
       eneg := eneg a; ex := (ex a * 10 + d)%N |} in
  let sees c' := Ascii.eqb c c' in
  match st, digit c with
  | NSign, Some d => Some (if N.eqb d 0 then NZero else NInt, push_int d)
  | NSign, None => None
  | NZero, Some _ => None
  | NInt, Some d => Some (NInt, push_int d)
  | (NZero | NInt), None =>
      if sees "."%char then Some (NFracStart, a)
      else if (sees "e" || sees "E")%char%bool then Some (NExpStart, a)
      else None
  | NFracStart, Some d => Some (NFrac, push_frac d)
  | NFracStart, None => None
  | NFrac, Some d => Some (NFrac, push_frac d)
  | NFrac, None =>
      if (sees "e" || sees "E")%char%bool then Some (NExpStart, a) else None
  | NExpStart, Some d => Some (NExp, push_exp d)
  | NExpStart, None =>
      if sees "+"%char then Some (NExpSign, a)
      else if sees "-"%char then
        Some (NExpSign, {| neg := neg a; mant := mant a; fracd := fracd a;
                           eneg := true; ex := ex a |})
      else None
  | NExpSign, Some d => Some (NExp, push_exp d)
  | NExpSign, None => None
  | NExp, Some d => Some (NExp, push_exp d)
  | NExp, None => None
  end.

(** *** Strings *)

(** A string under construction holds raw bytes and the code units of
    [\uXXXX] escapes; a surrogate pair of escapes is one character. *)
Definition unit_ : Type := (ascii + N)%type.

Definition byte (n : N) : ascii := ascii_of_N n.

Definition utf8 (cp : N) : list ascii :=
  if (cp <? 128)%N then [byte cp]
  else if (cp <? 2048)%N then
    [byte (192 + cp / 64); byte (128 + cp mod 64)]
  else if (cp <? 65536)%N then
    [byte (224 + cp / 4096); byte (128 + (cp / 64) mod 64);
     byte (128 + cp mod 64)]
  else
    [byte (240 + cp / 262144); byte (128 + (cp / 4096) mod 64);
     byte (128 + (cp / 64) mod 64); byte (128 + cp mod 64)].

Definition high_surrogate (u : N) : bool := (55296 <=? u)%N && (u <=? 56319)%N.
Definition low_surrogate (u : N) : bool := (56320 <=? u)%N && (u <=? 57343)%N.

Fixpoint encode (us : list unit_) : list ascii :=
  match us with
  | [] => []
  | inl b :: r => b :: encode r
  | inr u :: r =>
      match r with
      | inr v :: r' =>
          if high_surrogate u && low_surrogate v
          then utf8 (65536 + (u - 55296) * 1024 + (v - 56320))%N ++ encode r'
          else utf8 u ++ encode r
      | _ => utf8 u ++ encode r
      end
  end.

(** *** The lexer *)

Inductive lexst : Type :=
| LIdle
| LStr (acc : list unit_)                       (* newest first *)
| LEsc (acc : list unit_)
| LUni (todo : nat) (cp : N) (acc : list unit_)
| LNum (st : numst) (a : numacc)
| LLit (rest : list ascii) (v : value).

Definition json_ws (c : ascii) : bool :=
  let n := Text.code c in
  N.eqb n 32 || N.eqb n 9 || N.eqb n 10 || N.eqb n 13.

Definition idle_step (c : ascii) : option (lexst * list token) :=
  let sees c' := Ascii.eqb c c' in
  if json_ws c then Some (LIdle, [])
  else if sees "{"%char then Some (LIdle, [TLBrace])
  else if sees "}"%char then Some (LIdle, [TRBrace])
  else if sees "["%char then Some (LIdle, [TLBrack])
  else if sees "]"%char then Some (LIdle, [TRBrack])
  else if sees ":"%char then Some (LIdle, [TColon])
  else if sees ","%char then Some (LIdle, [TComma])
  else if sees Text.quote then Some (LStr [], [])
  else if sees "-"%char then Some (LNum NSign (num0 true 0), [])
  else if sees "n"%char then Some (LLit ["u"; "l"; "l"]%char VNull, [])
  else if sees "t"%char then Some (LLit ["r"; "u"; "e"]%char (VBool true), [])
  else if sees "f"%char then
    Some (LLit ["a"; "l"; "s"; "e"]%char (VBool false), [])
  else match digit c with
       | Some d => Some (LNum (if N.eqb d 0 then NZero else NInt)
                              (num0 false d), [])
       | None => None
       end.

Definition finish_string (acc : list unit_) : token :=
  TAtom (VStr (string_of_list_ascii (encode (rev acc)))).

Definition lex_step (st : lexst) (c : ascii) : option (lexst * list token) :=
  let sees c' := Ascii.eqb c c' in
  match st with
  | LIdle => idle_step c
  | LStr acc =>
      if sees Text.quote then Some (LIdle, [finish_string acc])
      else if sees "\"%char then Some (LEsc acc, [])
      else if (Text.code c <? 32)%N then None
      else Some (LStr (inl c :: acc), [])
  | LEsc acc =>
      let lit n := Some (LStr (inl (byte n) :: acc), []) in
      if sees Text.quote then lit 34%N
      else if sees "\"%char then lit 92%N
      else if sees "/"%char then lit 47%N
      else if sees "b"%char then lit 8%N
      else if sees "f"%char then lit 12%N
      else if sees "n"%char then lit 10%N
      else if sees "r"%char then lit 13%N
      else if sees "t"%char then lit 9%N
      else if sees "u"%char then Some (LUni 4 0 acc, [])
      else None
  | LUni todo cp acc =>
      match hexdigit c with
      | None => None
      | Some d =>
          let cp' := (cp * 16 + d)%N in
          match todo with
          | S (S k) => Some (LUni (S k) cp' acc, [])
          | _ => Some (LStr (inr cp' :: acc), [])
          end
      end
  | LNum ns a =>
      match num_step ns a c with
      | Some (ns', a') => Some (LNum ns' a', [])
      | None =>
          if num_accepting ns then
            match idle_step c with
            | Some (st', toks) => Some (st', TAtom (VNum (num_value a)) :: toks)
            | None => None
            end
          else None
      end
  | LLit rest v =>
      match rest with
      | [] => None
      | x :: rest' =>
          if sees x then
            match rest' with
            | [] => Some (LIdle, [TAtom v])
            | _ => Some (LLit rest' v, [])
            end
          else None
      end
  end.

Fixpoint lex_from (st : lexst) (cs : list ascii) : option (list token) :=
  match cs with
  | [] =>
      match st with
      | LIdle => Some []
      | LNum ns a =>
          if num_accepting ns then Some [TAtom (VNum (num_value a))] else None
      | _ => None
      end
  | c :: r =>
      match lex_step st c with
      | None => None
      | Some (st', toks) =>
          match lex_from st' r with
          | None => None
          | Some more => Some (toks ++ more)
          end
      end
  end.

Definition lex (s : string) : option (list token) :=
  lex_from LIdle (list_ascii_of_string s).

(** *** The parser *)

Inductive frame : Type :=
| FArr (acc : list value)                           (* newest first *)
| FObj (fields : list (string * value))
| FObjK (fields : list (string * value)) (key : string).

Inductive pstate : Type :=
| PValue        (* a value must start *)
| PArrFirst     (* after '[': a value or ']' *)
| PObjFirst     (* after '{': a key or '}' *)
| PObjKey       (* after ',' in an object: a key *)
| PColon        (* after a key: ':' *)
| PAfter        (* after a member or element: ',' or the closing bracket *)
| PDone (v : value).

(** A complete value goes to the innermost open container. *)
Definition deliver (v : value) (stack : list frame)
  : option (pstate * list frame) :=
  match stack with
  | [] => Some (PDone v, [])
  | FArr acc :: st => Some (PAfter, FArr (v :: acc) :: st)
  | FObjK fs k :: st => Some (PAfter, FObj (set_field k v fs) :: st)
  | FObj _ :: _ => None
  end.

Definition start_value (t : token) (stack : list frame)
  : option (pstate * list frame) :=
  match t with
  | TAtom v => deliver v stack
  | TLBrack => Some (PArrFirst, FArr [] :: stack)
  | TLBrace => Some (PObjFirst, FObj [] :: stack)
  | _ => None
  end.

Definition start_key (t : token) (stack : list frame)
  : option (pstate * list frame) :=
  match t, stack with
  | TAtom (VStr k), FObj fs :: st => Some (PColon, FObjK fs k :: st)
  | _, _ => None
  end.

Definition parse_step (ps : pstate) (stack : list frame) (t : token)
  : option (pstate * list frame) :=
  match ps with
  | PValue => start_value t stack
  | PArrFirst =>
      match t, stack with
      | TRBrack, FArr _ :: st => deliver (VArr []) st
      | _, _ => start_value t stack
      end
  | PObjFirst =>
      match t, stack with
      | TRBrace, FObj _ :: st => deliver (VObj []) st
      | _, _ => start_key t stack
      end
  | PObjKey => start_key t stack
  | PColon =>
      match t with
      | TColon => Some (PValue, stack)
      | _ => None
      end
  | PAfter =>
      match t, stack with
      | TComma, FArr _ :: _ => Some (PValue, stack)
      | TRBrack, FArr acc :: st => deliver (VArr (rev acc)) st
      | TComma, FObj _ :: _ => Some (PObjKey, stack)
      | TRBrace, FObj fs :: st => deliver (VObj fs) st
      | _, _ => None
      end
  | PDone _ => None
  end.

Fixpoint parse_tokens (ps : pstate) (stack : list frame) (ts : list token)
  : option value :=
  match ts with
  | [] => match ps, stack with
          | PDone v, [] => Some v
          | _, _ => None
          end
  | t :: r =>
      match parse_step ps stack t with
      | None => None
      | Some (ps', stack') => parse_tokens ps' stack' r
      end
  end.

(** [JSON.parse(s)]; [None] when it throws. *)
Definition parse (s : string) : option value :=
  match lex s with
  | None => None
  | Some ts => parse_tokens PValue [] ts
  end.

End JSON.


(* ===================================================================== *)
(** ** The network, as the component sees it *)
(* ===================================================================== *)

Module Net.

Inductive method : Type := GET | POST | DELETE.

(** A request as handed to [fetch] or axios.  [body] is the value that
    is serialised ([JSON.stringify] for [fetch], axios' own encoding of
    [data]). *)
Record request : Type := {
  meth : method;
  url : string;
  body : option value
}.

(** How reading the body ends: [reader.read()] resolves with
    [done: true], or it rejects. *)
Inductive stream_end : Type :=
| Done
| ReadFails (message : string).

(** A [Response] of [fetch]: [response.ok], [response.status], and what
    the successive [reader.read()] calls deliver, already decoded. *)
Record response : Type := {
  ok : bool;
  status : nat;
  reads : list string;
  ending : stream_end
}.

Inductive fetch_result : Type :=
| FetchFails (message : string)        (* the promise rejects *)
| Responds (r : response).

(** An axios call: it resolves with [response.data], or rejects with an
    error carrying [error.response?.data] and [error.message]. *)
Record axios_error : Type := {
  response_data : option value;
  message : string
}.

Inductive axios_result : Type :=
| Fulfilled (data : value)
| Rejected (e : axios_error).

End Net.

Import Net.

(** How a run of statements ends. *)
Inductive completion (A : Type) : Type :=
| Normal (a : A)          (* ran to its end *)
| Returned (a : A)        (* left the method by [return] *)
| Unmodelled.             (* met a coercion outside the model *)

Arguments Normal {A} a.
Arguments Returned {A} a.
Arguments Unmodelled {A}.

(** The state a run ends in, whichever way it ends. *)
Definition final {A : Type} (c : completion A) : option A :=
  match c with
  | Normal a | Returned a => Some a
  | Unmodelled => None
  end.

(** What a method did besides changing the state: the requests it sent
    and the texts it passed to [alert].  When [result] is [Unmodelled],
    [alerts] is not modelled either. *)
Record outcome (A : Type) : Type := {
  sent : list request;
  alerts : list string;
  result : completion A
}.

Arguments sent {A} o.
Arguments alerts {A} o.
Arguments result {A} o.

(** What a part of the template renders to. *)
Inductive rendering (A : Type) : Type :=
| Shows (a : A)
| RenderFails                   (* a [TypeError] in the render function *)
| NotModelled.

Arguments Shows {A} a.
Arguments RenderFails {A}.
Arguments NotModelled {A}.

(** [error.response?.data?.detail || error.message] inside a template
    literal.  [None] when the detail is truthy and not a string: the
    literal would coerce it. *)
Definition detail_or_message (e : axios_error) : option string :=
  let detail := match response_data e with
                | Some d => get_opt d "detail"
                | None => VUndefined
                end in
  if truthy detail then
    match detail with
    | VStr d => Some d
    | _ => None
    end
  else Some (message e).

(** [error.message || fallback] *)
Definition message_or (msg fallback : string) : string :=
  if String.eqb msg "" then fallback else msg.

(* ===================================================================== *)
(** ** Llmm.vue: the pull dialog *)
(* ===================================================================== *)

Module Pull.

(** The [data()] fields of the pull dialog. *)
Record PullData : Type := {
  pullModelName : string;
  pullInProgress : bool;
  pullProgress : Z;
  pullStatus : value;
  pullError : value;
  pullComplete : bool
}.

Definition set_pullInProgress (b : bool) (s : PullData) : PullData :=
  {| pullModelName := pullModelName s; pullInProgress := b;
     pullProgress := pullProgress s; pullStatus := pullStatus s;
     pullError := pullError s; pullComplete := pullComplete s |}.

Definition set_pullProgress (p : Z) (s : PullData) : PullData :=
  {| pullModelName := pullModelName s; pullInProgress := pullInProgress s;
     pullProgress := p; pullStatus := pullStatus s;
     pullError := pullError s; pullComplete := pullComplete s |}.

Definition set_pullStatus (v : value) (s : PullData) : PullData :=
  {| pullModelName := pullModelName s; pullInProgress := pullInProgress s;
     pullProgress := pullProgress s; pullStatus := v;
     pullError := pullError s; pullComplete := pullComplete s |}.

Definition set_pullError (v : value) (s : PullData) : PullData :=
  {| pullModelName := pullModelName s; pullInProgress := pullInProgress s;
     pullProgress := pullProgress s; pullStatus := pullStatus s;
     pullError := v; pullComplete := pullComplete s |}.

Definition set_pullComplete (b : bool) (s : PullData) : PullData :=
  {| pullModelName := pullModelName s; pullInProgress := pullInProgress s;
     pullProgress := pullProgress s; pullStatus := pullStatus s;
     pullError := pullError s; pullComplete := b |}.

(** [Math.round((data.completed / data.total) * 100)], in exact
    arithmetic; [None] when an operand is not a number and the division
    would coerce it. *)
Definition percent (completed total : value) : option Z :=
  match completed, total with
  | VNum c, VNum t => Some (Math_round ((c / t) * 100))
  | _, _ => None
  end.

(** The body of the inner [try], from [data.error] on.  A [TypeError]
    ([data] is [null]) is caught by the inner [catch]: the line is
    logged and the loop goes on. *)
Definition pull_event (s : PullData) (data : value) : completion PullData :=
  match get data "error" with
  | None => Normal s
  | Some err =>
      if truthy err then
        Returned (set_pullInProgress false (set_pullError err s))
      else
        let status := get_opt data "status" in
        let completed := get_opt data "completed" in
        let total := get_opt data "total" in
        let s1 := if truthy status then set_pullStatus status s else s in
        let finish s2 :=
          if is_string status "success"
          then set_pullInProgress false (set_pullComplete true s2)
          else s2 in
        if truthy completed && truthy total then
          match percent completed total with
          | Some p => Normal (finish (set_pullProgress p s1))
          | None => Unmodelled
          end
        else Normal (finish s1)
  end.

(** One iteration of [for (const line of lines)]. *)
Definition pull_line (s : PullData) (line : string) : completion PullData :=
  match JSON.parse line with
  | None => Normal s                   (* SyntaxError, caught and logged *)
  | Some data => pull_event s data
  end.

Fixpoint pull_lines (s : PullData) (lines : list string)
  : completion PullData :=
  match lines with
  | [] => Normal s
  | line :: rest =>
      match pull_line s line with
      | Normal s' => pull_lines s' rest
      | stop => stop
      end
  end.

(** [chunk.split('\n').filter(line => line.trim())] *)
Definition nonblank_lines (chunk : string) : list string :=
  List.filter Text.nonblank (Text.split "010" chunk).

(** The [while (true)] loop over the reads that deliver a chunk. *)
Fixpoint pull_reads (s : PullData) (chunks : list string)
  : completion PullData :=
  match chunks with
  | [] => Normal s
  | chunk :: rest =>
      match pull_lines s (nonblank_lines chunk) with
      | Normal s' => pull_reads s' rest
      | stop => stop
      end
  end.

Definition pull_request (baseURL selectedHost : string) (s : PullData)
  : request :=
  {| meth := POST;
     url := baseURL ++ "/llmm/" ++ selectedHost ++ "/pull";
     body := Some (VObj [("model_name", VStr (pullModelName s))]) |}.

(** The assignments before the [try]. *)
Definition pull_started (s : PullData) : PullData :=
  {| pullModelName := pullModelName s; pullInProgress := true;
     pullProgress := 0; pullStatus := VStr "Starting pull...";
     pullError := VNull; pullComplete := false |}.

(** The outer [catch (error)] block. *)
Definition pull_catch (msg : string) (s : PullData) : PullData :=
  set_pullError (VStr (message_or msg "Failed to pull model")) s.

(** The [finally] block. *)
Definition pull_finally (s : PullData) : PullData :=
  set_pullInProgress false s.

(** The statements after the loop. *)
Definition pull_after_loop (s : PullData) : PullData :=
  if negb (pullComplete s)
  then set_pullStatus (VStr "Pull completed") (set_pullComplete true s)
  else s.

(** [startPull()]: the requests sent, and the state it leaves. *)
Definition startPull (baseURL selectedHost : string) (s : PullData)
    (net : fetch_result) : list request * completion PullData :=
  if String.eqb (pullModelName s) "" then ([], Returned s)
  else
    let s0 := pull_started s in
    ([pull_request baseURL selectedHost s],
     match net with
     | FetchFails msg => Normal (pull_finally (pull_catch msg s0))
     | Responds r =>
         if negb (ok r) then
           Normal (pull_finally
                     (pull_catch ("HTTP error! status: "
                                  ++ Text.of_nat (status r)) s0))
         else
           match pull_reads s0 (reads r) with
           | Normal s1 =>
               match ending r with
               | Done => Normal (pull_finally (pull_after_loop s1))
               | ReadFails msg => Normal (pull_finally (pull_catch msg s1))
               end
           | Returned s1 => Returned (pull_finally s1)
           | Unmodelled => Unmodelled
           end
     end).

(** *** The dialog of the template *)

Record PullView : Type := {
  progress_section : option (Z * value);  (* [v-if="pullInProgress"]: bar, status *)
  error_notice : option value;            (* [v-if="pullError"] *)
  success_notice : bool                   (* [v-if="pullComplete"] *)
}.

Definition render_pull (s : PullData) : PullView :=
  {| progress_section :=
       if pullInProgress s then Some (pullProgress s, pullStatus s) else None;
     error_notice := if truthy (pullError s) then Some (pullError s) else None;
     success_notice := pullComplete s |}.

(** *** The wire contract, in the spec's words *)











End Pull.

(* ===================================================================== *)
(** ** Llmm.vue and ChatView.vue: the chat *)
(* ===================================================================== *)

(** [sendMessage] of the chat dialog in Llmm.vue and [sendMessage] of
    ChatView.vue are the same statements; they differ in where the host
    label comes from ([this.selectedHost], [this.label]). *)

Module Chat.

Record Message : Type := {
  role : string;
  content : string
}.

Definition value_of_message (m : Message) : value :=
  VObj [("role", VStr (role m)); ("content", VStr (content m))].

(** The [data()] fields of the chat. *)
Record ChatData : Type := {
  chatHistory : list Message;
  chatInput : string;
  chatLoading : bool;
  selectedModel : string
}.

Definition set_chatHistory (h : list Message) (s : ChatData) : ChatData :=
  {| chatHistory := h; chatInput := chatInput s;
     chatLoading := chatLoading s; selectedModel := selectedModel s |}.

Definition set_chatLoading (b : bool) (s : ChatData) : ChatData :=
  {| chatHistory := chatHistory s; chatInput := chatInput s;
     chatLoading := b; selectedModel := selectedModel s |}.

(** [this.chatHistory.push(m)] *)
Definition push (m : Message) (s : ChatData) : ChatData :=
  set_chatHistory (chatHistory s ++ [m]) s.

Definition add_text (t : string) (m : Message) : Message :=
  {| role := role m; content := (content m ++ t)%string |}.

(** [assistantMessage.content += t].  [assistantMessage] is the object
    that was pushed to [chatHistory]; it is the entry at index [i], and
    the assignment changes that entry. *)
Definition append_content (i : nat) (t : string) (s : ChatData) : ChatData :=
  set_chatHistory (alter (add_text t) i (chatHistory s)) s.

(** The body of the inner [try] after [JSON.parse].  Appending a value
    that is not a string would coerce it. *)
Definition chat_event (i : nat) (s : ChatData) (data : value)
  : completion ChatData :=
  match get data "choices" with
  | None => Normal s                  (* TypeError, caught and logged *)
  | Some choices =>
      if truthy choices then
        let c := get_opt (get_opt (item0 choices) "delta") "content" in
        if truthy c then
          match c with
          | VStr t => Normal (append_content i t s)
          | _ => Unmodelled
          end
        else Normal s
      else Normal s
  end.

(** One iteration of [for (const line of lines)]. *)
Definition chat_line (i : nat) (s : ChatData) (line : string)
  : completion ChatData :=
  let jsonStr := Text.replace "data: " "" line in
  if String.eqb jsonStr "[DONE]" then Normal s        (* continue *)
  else match JSON.parse jsonStr with
       | None => Normal s             (* SyntaxError, caught and logged *)
       | Some data => chat_event i s data
       end.

Fixpoint chat_lines (i : nat) (s : ChatData) (lines : list string)
  : completion ChatData :=
  match lines with
  | [] => Normal s
  | line :: rest =>
      match chat_line i s line with
      | Normal s' => chat_lines i s' rest
      | stop => stop
      end
  end.

(** [chunk.split('\n').filter(line => line.trim() &&
    line.startsWith('data: '))] *)
Definition event_lines (chunk : string) : list string :=
  List.filter (fun line => Text.nonblank line
                           && Text.startsWith line "data: ")
              (Text.split "010" chunk).

Fixpoint chat_reads (i : nat) (s : ChatData) (chunks : list string)
  : completion ChatData :=
  match chunks with
  | [] => Normal s
  | chunk :: rest =>
      match chat_lines i s (event_lines chunk) with
      | Normal s' => chat_reads i s' rest
      | stop => stop
      end
  end.

Definition userMessage (s : ChatData) : Message :=
  {| role := "user"; content := chatInput s |}.

(** The assignments before the [try]. *)
Definition chat_started (s : ChatData) : ChatData :=
  {| chatHistory := chatHistory s ++ [userMessage s];
     chatInput := "";
     chatLoading := true;
     selectedModel := selectedModel s |}.

Definition chat_request (baseURL host : string) (s : ChatData) : request :=
  {| meth := POST;
     url := baseURL ++ "/llmm/" ++ host ++ "/chat";
     body := Some (VObj
               [("messages",
                 VArr (map value_of_message (chatHistory (chat_started s))));
                ("stream", VBool true);
                ("model", VStr (selectedModel s))]) |}.

(** The outer [catch (error)] block. *)
Definition chat_catch (s : ChatData) : ChatData :=
  push {| role := "assistant";
          content := "Error: Failed to get response from the model." |} s.

(** The [finally] block. *)
Definition chat_finally (s : ChatData) : ChatData :=
  set_chatLoading false s.

Definition assistantMessage : Message :=
  {| role := "assistant"; content := "" |}.

(** [sendMessage()], for the host label [host]. *)
Definition sendMessage (baseURL host : string) (s : ChatData)
    (net : fetch_result) : list request * completion ChatData :=
  if negb (Text.nonblank (chatInput s)) then ([], Returned s)
  else
    let s1 := chat_started s in
    ([chat_request baseURL host s],
     match net with
     | FetchFails _ => Normal (chat_finally (chat_catch s1))
     | Responds r =>
         if negb (ok r) then Normal (chat_finally (chat_catch s1))
         else
           let i := length (chatHistory s1) in
           match chat_reads i (push assistantMessage s1) (reads r) with
           | Normal s2 =>
               match ending r with
               | Done => Normal (chat_finally s2)
               | ReadFails _ => Normal (chat_finally (chat_catch s2))
               end
           | Returned s2 => Returned (chat_finally s2)
           | Unmodelled => Unmodelled
           end
     end).

(** *** The stream, in the spec's words *)

(** [carries line t]: the line is an event of the chat stream and [t]
    is the text it adds, the [choices[0].delta.content] field of a
    delta event; the sentinel and a delta without [content] add
    nothing. *)
Inductive carries : string -> string -> Prop :=
| carries_sentinel :
    carries "data: [DONE]" ""
| carries_text (payload : string) (fs c0 d : list (string * value))
               (more : list value) (t : string) :
    JSON.parse payload = Some (VObj fs) ->
    lookup_field "choices" fs = VArr (VObj c0 :: more) ->
    lookup_field "delta" c0 = VObj d ->
    lookup_field "content" d = VStr t ->
    carries ("data: " ++ payload) t
| carries_no_text (payload : string) (fs c0 d : list (string * value))
                  (more : list value) :
    JSON.parse payload = Some (VObj fs) ->
    lookup_field "choices" fs = VArr (VObj c0 :: more) ->
    lookup_field "delta" c0 = VObj d ->
    (lookup_field "content" d = VUndefined
     \/ lookup_field "content" d = VNull) ->
    carries ("data: " ++ payload) "".

(** The event lines of a text. *)
Definition data_lines (text : string) : list string :=
  List.filter (fun line => Text.startsWith line "data: ")
              (Text.split "010" text).

(** The state after a stream that added [text] and ended. *)
Definition chat_answered (s : ChatData) (text : string) : ChatData :=
  {| chatHistory := chatHistory s
                    ++ [userMessage s;
                        {| role := "assistant"; content := text |}];
     chatInput := "";
     chatLoading := false;
     selectedModel := selectedModel s |}.

End Chat.

(* ===================================================================== *)
(** ** Llmm.vue: the host table and its refresh *)
(* ===================================================================== *)

Module Dashboard.

(** The [data()] fields of the table and of its refresh;
    [refreshState.loading] is [loading]. *)
Record RefreshData : Type := {
  endpoints : value;
  loading : bool;
  intervalId : option nat;
  tickIntervalId : option nat;
  refreshInterval : Z;
  searchQuery : string
}.

Definition set_endpoints (v : value) (s : RefreshData) : RefreshData :=
  {| endpoints := v; loading := loading s; intervalId := intervalId s;
     tickIntervalId := tickIntervalId s;
     refreshInterval := refreshInterval s; searchQuery := searchQuery s |}.

Definition set_loading (b : bool) (s : RefreshData) : RefreshData :=
  {| endpoints := endpoints s; loading := b; intervalId := intervalId s;
     tickIntervalId := tickIntervalId s;
     refreshInterval := refreshInterval s; searchQuery := searchQuery s |}.

Definition set_intervalId (i : option nat) (s : RefreshData) : RefreshData :=
  {| endpoints := endpoints s; loading := loading s; intervalId := i;
     tickIntervalId := tickIntervalId s;
     refreshInterval := refreshInterval s; searchQuery := searchQuery s |}.

Definition set_tickIntervalId (i : option nat) (s : RefreshData)
  : RefreshData :=
  {| endpoints := endpoints s; loading := loading s;
     intervalId := intervalId s; tickIntervalId := i;
     refreshInterval := refreshInterval s; searchQuery := searchQuery s |}.

Definition set_refreshInterval (ms : Z) (s : RefreshData) : RefreshData :=
  {| endpoints := endpoints s; loading := loading s;
     intervalId := intervalId s; tickIntervalId := tickIntervalId s;
     refreshInterval := ms; searchQuery := searchQuery s |}.

(** The values of [data()]. *)
Definition initial : RefreshData :=
  {| endpoints := VNull; loading := false; intervalId := None;
     tickIntervalId := None; refreshInterval := 1000; searchQuery := "" |}.

Definition snapshot_request : request :=
  {| meth := GET; url := "/llmm"; body := None |}.

Definition tick_request : request :=
  {| meth := POST; url := "/llmm/tick"; body := None |}.

(** *** [fetchEndpoints] *)

(** Up to the first [await]: the flag is set and the GET leaves. *)
Definition fetchEndpoints_begin (s : RefreshData)
  : RefreshData * list request :=
  (set_loading true s, [snapshot_request]).

(** From the answer on.  (The wait that keeps the spinner for 200 ms
    changes no field.)  Reading [endpoints] of a [null] body throws, and
    the [catch] logs it. *)
Definition fetchEndpoints_settled (res : axios_result) (s : RefreshData)
  : RefreshData :=
  set_loading false
    match res with
    | Fulfilled data =>
        match get data "endpoints" with
        | Some e => set_endpoints e s
        | None => s
        end
    | Rejected _ => s
    end.

(** [fetchEndpoints()], run until its promise settles. *)
Definition fetchEndpoints (s : RefreshData) (res : axios_result)
  : list request * RefreshData :=
  let (s1, reqs) := fetchEndpoints_begin s in
  (reqs, fetchEndpoints_settled res s1).

(** *** [sendTick] *)

Definition sendTick_begin (s : RefreshData) : RefreshData * list request :=
  (s, [tick_request]).

(** The answer is awaited and dropped; a failure is logged. *)
Definition sendTick_settled (res : axios_result) (s : RefreshData)
  : RefreshData :=
  match res with
  | Fulfilled _ => s
  | Rejected _ => s
  end.

(** *** Timers *)

Inductive Callback : Type := SendTick | FetchEndpoints.

Record timer : Type := {
  callback : Callback;
  period : Z                           (* milliseconds *)
}.

(** The component in the page: its data, and the interval timers of the
    window with the next free timer id.  Ids are positive. *)
Record World : Type := {
  data : RefreshData;
  timers : gmap nat timer;
  next_id : nat
}.

Definition with_data (d : RefreshData) (w : World) : World :=
  {| data := d; timers := timers w; next_id := next_id w |}.

(** [setInterval(cb, ms)] *)
Definition setInterval (cb : Callback) (ms : Z) (w : World) : nat * World :=
  (next_id w,
   {| data := data w;
      timers := <[next_id w := {| callback := cb; period := ms |}]> (timers w);
      next_id := S (next_id w) |}).

(** [clearInterval(id)] *)
Definition clearInterval (id : nat) (w : World) : World :=
  {| data := data w; timers := delete id (timers w); next_id := next_id w |}.

(** [if (id) clearInterval(id)]: [null] and [0] are falsy. *)
Definition clear_if_set (id : option nat) (w : World) : World :=
  match id with
  | Some (S n) => clearInterval (S n) w
  | _ => w
  end.

(** [startRefresh()] *)
Definition startRefresh (w : World) : World * list request :=
  let w1 := clear_if_set (intervalId (data w)) w in
  let w2 := clear_if_set (tickIntervalId (data w1)) w1 in
  let (d3, reqs) := fetchEndpoints_begin (data w2) in
  let w3 := with_data d3 w2 in
  if (refreshInterval (data w3) =? 1000)%Z then
    let (t, w4) := setInterval SendTick 1000 w3 in
    let w5 := with_data (set_tickIntervalId (Some t) (data w4)) w4 in
    let (f, w6) := setInterval FetchEndpoints 2000 w5 in
    (with_data (set_intervalId (Some f) (data w6)) w6, reqs)
  else
    let (f, w4) := setInterval FetchEndpoints (refreshInterval (data w3)) w3 in
    (with_data (set_intervalId (Some f) (data w4)) w4, reqs).

(** [updateRefreshInterval()], after [v-model] stored the choice. *)
Definition updateRefreshInterval (w : World) : World * list request :=
  startRefresh w.

(** What the page does next. *)
Inductive event : Type :=
| Mounted
| SelectInterval (ms : Z)
| TimerFires (id : nat)
| TickSettled (res : axios_result)
| FetchSettled (res : axios_result)
| BeforeUnmount.

Definition step (w : World) (ev : event) : World * list request :=
  match ev with
  | Mounted =>
      let (d1, r1) := fetchEndpoints_begin (data w) in
      let (w2, r2) := startRefresh (with_data d1 w) in
      (w2, r1 ++ r2)
  | SelectInterval ms =>
      updateRefreshInterval (with_data (set_refreshInterval ms (data w)) w)
  | TimerFires id =>
      match timers w !! id with
      | Some tm =>
          let (d, reqs) :=
            match callback tm with
            | SendTick => sendTick_begin (data w)
            | FetchEndpoints => fetchEndpoints_begin (data w)
            end in
          (with_data d w, reqs)
      | None => (w, [])
      end
  | TickSettled res => (with_data (sendTick_settled res (data w)) w, [])
  | FetchSettled res => (with_data (fetchEndpoints_settled res (data w)) w, [])
  | BeforeUnmount =>
      (clear_if_set (tickIntervalId (data w))
         (clear_if_set (intervalId (data w)) w), [])
  end.

(** A timer set [elapsed] ms ago calls back now. *)
Definition due (tm : timer) (elapsed : Z) : bool :=
  (0 <? elapsed)%Z && (elapsed mod period tm =? 0)%Z.

(** How often a timer calls back in the first [window] ms. *)
Definition calls_within (tm : timer) (window : nat) : nat :=
  length (List.filter (fun e => due tm (Z.of_nat e)) (seq 1 window)).

(** [setInterval(this.sendTick, 1000)] *)
Definition tick_timer : timer := {| callback := SendTick; period := 1000 |}.

(** [setInterval(this.fetchEndpoints, ms)] *)
Definition fetch_timer (ms : Z) : timer :=
  {| callback := FetchEndpoints; period := ms |}.

(** What a callback sends when it is called. *)
Definition request_of (cb : Callback) : request :=
  match cb with
  | SendTick => tick_request
  | FetchEndpoints => snapshot_request
  end.

(** The running timers are those whose id the component holds, and
    their ids are positive and used up. *)
Definition timers_owned (w : World) : Prop :=
  (0 < next_id w)%nat
  /\ forall (id : nat) (tm : timer),
       timers w !! id = Some tm ->
       (0 < id < next_id w)%nat
       /\ (intervalId (data w) = Some id \/ tickIntervalId (data w) = Some id).

Definition page_loaded : World :=
  {| data := initial; timers := ∅; next_id := 1 |}.

(** *** The table of the template *)

(** The cells of a host row that show fields of the host record. *)
Record HostRow : Type := {
  dot_online : bool;            (* [:class="{ 'is-online': plugin.is_online }"] *)
  system : string;              (* [{{ label }}] *)
  version_text : value;         (* [{{ plugin.version || '-' }}] *)
  ip_text : value               (* [{{ plugin.ip || 'N/A' }}] *)
}.

Inductive view : Type :=
| Connecting                    (* the [v-else] placeholder *)
| Table (rows : list HostRow).

(** The computed [filteredEndpoints], for an empty search box. *)
Definition filteredEndpoints (s : RefreshData) : option value :=
  if negb (truthy (endpoints s)) || String.eqb (searchQuery s) ""
  then Some (endpoints s)
  else None.

Definition render_row (label : string) (plugin : value) : option HostRow :=
  match get plugin "is_online" with
  | None => None
  | Some online =>
      Some {| dot_online := truthy online;
              system := label;
              version_text := or_else (get_opt plugin "version") (VStr "-");
              ip_text := or_else (get_opt plugin "ip") (VStr "N/A") |}
  end.

Fixpoint render_rows (entries : list (string * value))
  : option (list HostRow) :=
  match entries with
  | [] => Some []
  | (label, plugin) :: rest =>
      match render_row label plugin, render_rows rest with
      | Some r, Some rs => Some (r :: rs)
      | _, _ => None
      end
  end.

(** A key that is an array index: a decimal numeral without leading
    zero, below 2^32 - 1. *)
Fixpoint decimal (acc : N) (s : string) : option N :=
  match s with
  | EmptyString => Some acc
  | String c r =>
      match JSON.digit c with
      | Some d => decimal (acc * 10 + d)%N r
      | None => None
      end
  end.

Definition array_index (k : string) : option N :=
  match decimal 0 k with
  | Some n =>
      if String.eqb (Text.of_N n) k && (n <? 4294967295)%N
      then Some n else None
  | None => None
  end.

Fixpoint insert_index (n : N) (e : string * value)
         (l : list (N * (string * value))) : list (N * (string * value)) :=
  match l with
  | [] => [(n, e)]
  | (m, e') :: r =>
      if (n <? m)%N then (n, e) :: l else (m, e') :: insert_index n e r
  end.

(** The order in which an object is enumerated: array indices in
    ascending order, then the other keys in the order of creation. *)
Definition enumerate (fs : list (string * value)) : list (string * value) :=
  let indexed :=
    fold_left (fun acc e => match array_index (fst e) with
                            | Some n => insert_index n e acc
                            | None => acc
                            end) fs [] in
  map snd indexed
  ++ List.filter (fun e => match array_index (fst e) with
                           | Some _ => false
                           | None => true
                           end) fs.

Fixpoint number_from (n : nat) (items : list value) : list (string * value) :=
  match items with
  | [] => []
  | x :: r => (Text.of_nat n, x) :: number_from (S n) r
  end.

(** [v-if="filteredEndpoints"] and
    [v-for="(plugin, label) in filteredEndpoints"]. *)
Definition render (s : RefreshData) : rendering view :=
  match filteredEndpoints s with
  | None => NotModelled
  | Some shown =>
      if truthy shown then
        match shown with
        | VObj fs =>
            match render_rows (enumerate fs) with
            | Some rows => Shows (Table rows)
            | None => RenderFails
            end
        | VArr items =>
            match render_rows (number_from 0 items) with
            | Some rows => Shows (Table rows)
            | None => RenderFails
            end
        | _ => NotModelled
        end
      else Shows Connecting
  end.

(** *** The snapshot, in the spec's words *)






End Dashboard.

(* ===================================================================== *)
(** ** Llmm.vue: the VRAM and expiry cells *)
(* ===================================================================== *)

Module Cells.

Local Open Scope Q_scope.

(** A model of a host's [models] list, with the two fields the cells
    read.  [size_vram] is [None] when the property is missing or [null],
    and else the number of bytes.  [expires_at] is [None] when the
    property is missing, [null] or empty, and else the time value, in
    ms, of [new Date(model.expires_at)]. *)
Record Model : Type := {
  name : string;
  size_vram : option Q;
  expires_at : option Z
}.

(** [model.size_vram || 0] *)
Definition size_or_0 (model : Model) : Q :=
  match size_vram model with
  | Some q => if Qeq_bool q 0 then 0 else q
  | None => 0
  end.

(** [models.reduce((acc, model) => acc + (model.size_vram || 0), 0)] *)
Definition totalVram (models : list Model) : Q :=
  fold_left (fun acc model => acc + size_or_0 model) models 0.

(** [16 * 1024 ** 3] *)
Definition sixteen_GiB : Q := 17179869184.

(** [calculateVramUsage(models)]; [None] is a [models] that is [null] or
    [undefined]. *)
Definition calculateVramUsage (models : option (list Model)) : Q :=
  match models with
  | None | Some [] => 0
  | Some ms => (totalVram ms / sixteen_GiB) * 100
  end.





(** The callback of the [reduce] in [formatTimeRemaining]. *)
Definition later (latest : option Z) (model : Model) : option Z :=
  match expires_at model with
  | None => latest
  | Some expiryTime =>
      match latest with
      | Some l => Some (if (l <? expiryTime)%Z then expiryTime else l)
      | None => Some expiryTime
      end
  end.

Definition latestExpiry (models : list Model) : option Z :=
  fold_left later models None.

Section TimeRemaining.

(** [formatDistanceToNow(date, { addSuffix: true })] of date-fns; it
    reads the clock. *)
Variable formatDistanceToNow : Z -> string.

(** [formatTimeRemaining(models)] *)
Definition formatTimeRemaining (models : option (list Model)) : string :=
  match models with
  | None | Some [] => "N/A"
  | Some ms =>
      match latestExpiry ms with
      | None => "N/A"
      | Some t => formatDistanceToNow t
      end
  end.

End TimeRemaining.

(** *** The cells, in the spec's words *)

(** The bytes of a model in accelerator memory, 0 if unknown. *)
Definition sizeVram (model : Model) : Q :=
  match size_vram model with
  | Some q => q
  | None => 0
  end.

(** The sum over the models of their [sizeVram]. *)
Fixpoint sum_sizeVram (models : list Model) : Q :=
  match models with
  | [] => 0
  | model :: rest => sizeVram model + sum_sizeVram rest
  end.

Definition no_expiry (model : Model) : Prop := expires_at model = None.

End Cells.

(* ===================================================================== *)
(** ** Llmm.vue: the model list and the delete dialog *)
(* ===================================================================== *)

Module ModelList.

(** The [data()] fields of the list dialog and of the delete
    confirmation. *)
Record ListData : Type := {
  listModels : value;
  listModelsLoading : bool;
  deleteConfirmModalActive : bool;
  modelToDelete : value;
  deleteInProgress : bool
}.

Definition set_deleteInProgress (b : bool) (s : ListData) : ListData :=
  {| listModels := listModels s; listModelsLoading := listModelsLoading s;
     deleteConfirmModalActive := deleteConfirmModalActive s;
     modelToDelete := modelToDelete s; deleteInProgress := b |}.

Definition delete_request (selectedHost : string) (s : ListData) : request :=
  {| meth := DELETE;
     url := "/llmm/" ++ selectedHost ++ "/delete";
     body := Some (VObj [("model_name", modelToDelete s)]) |}.

Definition models_request (selectedHost : string) : request :=
  {| meth := GET; url := "/llmm/" ++ selectedHost ++ "/models"; body := None |}.

(** The block under [if (response.data.status === 'success')]: the dialog
    closes, the pending model is cleared, the list is fetched again.  A
    failed fetch, or a [null] body, is logged by the inner [catch] and
    leaves the list. *)
Definition delete_succeeded (refresh : axios_result) (s : ListData)
  : ListData :=
  {| listModels :=
       match refresh with
       | Fulfilled data =>
           match get data "models" with
           | Some models => or_else models (VArr [])
           | None => listModels s
           end
       | Rejected _ => listModels s
       end;
     listModelsLoading := false;
     deleteConfirmModalActive := false;
     modelToDelete := VNull;
     deleteInProgress := deleteInProgress s |}.

(** [deleteModel()].  [answer] settles the DELETE and [refresh] the GET
    that follows a success.  A body that is [null] makes
    [response.data.status] throw; the alert then shows the engine's
    message, which is not modelled. *)
Definition deleteModel (selectedHost : string) (s : ListData)
    (answer refresh : axios_result) : outcome ListData :=
  if negb (truthy (modelToDelete s)) then
    {| sent := []; alerts := []; result := Returned s |}
  else
    let req := delete_request selectedHost s in
    let s1 := set_deleteInProgress true s in
    match answer with
    | Fulfilled data =>
        match get data "status" with
        | None => {| sent := [req]; alerts := []; result := Unmodelled |}
        | Some status =>
            if is_string status "success" then
              {| sent := [req; models_request selectedHost];
                 alerts := [];
                 result := Normal (set_deleteInProgress false
                                     (delete_succeeded refresh s1)) |}
            else
              {| sent := [req]; alerts := [];
                 result := Normal (set_deleteInProgress false s1) |}
        end
    | Rejected e =>
        match detail_or_message e with
        | Some text =>
            {| sent := [req];
               alerts := [("Failed to delete model: " ++ text)%string];
               result := Normal (set_deleteInProgress false s1) |}
        | None => {| sent := [req]; alerts := []; result := Unmodelled |}
        end
    end.

End ModelList.

(* ===================================================================== *)
(** ** Llmm.vue: bulk creation of aliases *)
(* ===================================================================== *)

Module Litellm.

(** The [data()] fields of the bulk-create dialog. *)
Record LitellmData : Type := {
  litellmModelName : string;
  litellmOllamaModel : string;
  litellmCreating : bool;
  litellmResults : value;
  selectedHosts : list string
}.

Definition bulk_create_request (s : LitellmData) : request :=
  {| meth := POST;
     url := "/llmm/litellm/models/bulk-create";
     body := Some (VObj [("model_name", VStr (litellmModelName s));
                         ("ollama_model", VStr (litellmOllamaModel s));
                         ("host_labels", VArr (map VStr (selectedHosts s)))]) |}.

Definition settled (results : value) (s : LitellmData) : LitellmData :=
  {| litellmModelName := litellmModelName s;
     litellmOllamaModel := litellmOllamaModel s;
     litellmCreating := false;
     litellmResults := results;
     selectedHosts := selectedHosts s |}.

(** [createLitellmModels()] *)
Definition createLitellmModels (s : LitellmData) (answer : axios_result)
  : outcome LitellmData :=
  if String.eqb (litellmModelName s) ""
     || String.eqb (litellmOllamaModel s) ""
     || (length (selectedHosts s) =? 0)%nat
  then {| sent := []; alerts := []; result := Returned s |}
  else
    let req := bulk_create_request s in
    match answer with
    | Fulfilled data =>
        {| sent := [req]; alerts := []; result := Normal (settled data s) |}
    | Rejected e =>
        match detail_or_message e with
        | Some text =>
            {| sent := [req];
               alerts := [("Failed to create models: " ++ text)%string];
               result := Normal (settled VNull s) |}
        | None => {| sent := [req]; alerts := []; result := Unmodelled |}
        end
    end.

(** *** The results section of the template *)







End Litellm.

(* ===================================================================== *)
(** ** The alias bridge behind [bulk-create] *)
(* ===================================================================== *)

Module AliasBridge.













End AliasBridge.

(* ===================================================================== *)
(** ** Sample inputs *)
(* ===================================================================== *)

Module Samples.
Import Pull.

Definition pull_dialog : PullData :=
  {| pullModelName := "gemma2:2b"; pullInProgress := false;
     pullProgress := 0; pullStatus := VStr ""; pullError := VNull;
     pullComplete := false |}.

Definition manifest_line : string :=
  Text.quoted "{'status':'pulling manifest'}".

Definition download_line : string :=
  Text.quoted "{'status':'downloading','completed':50,'total':200}".

Definition reset_line : string := Text.quoted "{'error':'connection reset'}".

Definition success_line : string := Text.quoted "{'status':'success'}".

Definition nl : string := String "010" EmptyString.

(** Two progress events, then an error event; the source goes on
    sending. *)
Definition failing_pull : response :=
  {| ok := true; status := 200;
     reads := [(manifest_line ++ nl ++ download_line ++ nl)%string;
               (reset_line ++ nl ++ success_line ++ nl)%string];
     ending := Done |}.

Import Chat.

Definition chat : ChatData :=
  {| chatHistory := []; chatInput := "Hello?"; chatLoading := false;
     selectedModel := "gemma2:2b" |}.

Definition hi_payload : string :=
  Text.quoted "{'choices':[{'delta':{'content':'Hi'}}]}".

Definition there_payload : string :=
  Text.quoted "{'choices':[{'delta':{'content':' there'}}]}".

Definition hi_line : string := ("data: " ++ hi_payload)%string.

Definition there_line : string := ("data: " ++ there_payload)%string.

Definition done_line : string := "data: [DONE]".

(** The stream of two deltas and the sentinel, each event followed by
    an empty line. *)
Definition chat_stream : string :=
  (hi_line ++ nl ++ nl ++ there_line ++ nl ++ nl ++ done_line ++ nl ++ nl)
  %string.

(** A chunking of [chat_stream] in which every read ends at a line
    end. *)
Definition aligned_reads : list string :=
  [(hi_line ++ nl ++ nl)%string;
   (there_line ++ nl ++ nl ++ done_line ++ nl ++ nl)%string].

(** A chunking of [chat_stream] in which the second event is cut. *)
Definition cut_reads : list string :=
  [(hi_line ++ nl ++ nl ++ Text.quoted "data: {'choi")%string;
   (Text.quoted "ces':[{'delta':{'content':' there'}}]}" ++ nl ++ nl
    ++ done_line ++ nl ++ nl)%string].

Definition answers (chunks : list string) : fetch_result :=
  Responds {| ok := true; status := 200; reads := chunks; ending := Done |}.

Import Dashboard.




Import Cells.

(** Two models of 4 GiB and 10 GiB and one of unknown size. *)
Definition loaded : list Model :=
  [{| name := "gemma2:2b"; size_vram := Some 4294967296%Q;
      expires_at := Some 1700000300000%Z |};
   {| name := "llama3:8b"; size_vram := Some 10737418240%Q;
      expires_at := Some 1700000100000%Z |};
   {| name := "idle"; size_vram := None; expires_at := None |}].

(** A stand-in for the date-fns rendering: the time value in digits. *)
Definition at_ms (t : Z) : string :=
  ("at " ++ Text.of_N (Z.to_N t) ++ " ms")%string.

Import ModelList Litellm.


Definition not_found : axios_error :=
  {| response_data := Some (VObj [("detail", VStr "model not found")]);
     message := "Request failed with status code 404" |}.



End Samples.


(* ===================================================================== *)
(** ** Llmm.vue: the search box *)
(* ===================================================================== *)

Module Search.
Import Dashboard.

(** [c.toLowerCase()] for an ASCII character: A-Z become a-z. *)
Definition lower (c : ascii) : ascii :=
  let n := Text.code c in
  if (N.leb 65 n && N.leb n 90)%bool then ascii_of_N (n + 32) else c.

(** [s.toLowerCase()] for a text of ASCII characters.  [None] when the
    text holds a byte of another character: the case mapping of Unicode
    is not modelled. *)
Fixpoint toLowerCase (s : string) : option string :=
  match s with
  | EmptyString => Some EmptyString
  | String c r =>
      if (Text.code c <? 128)%N then
        match toLowerCase r with
        | Some r' => Some (String (lower c) r')
        | None => None
        end
      else None
  end.

(** [s.includes(q)] *)
Fixpoint includes (s q : string) {struct s} : bool :=
  if String.prefix q s then true
  else match s with
       | EmptyString => false
       | String _ r => includes r q
       end.

(** [model.name.toLowerCase().includes(query)], the callback of [some].
    A [model] that is [null], or a [name] that is no string, throws. *)
Definition name_matches (query : string) (model : value) : rendering bool :=
  match get model "name" with
  | None => RenderFails
  | Some (VStr n) =>
      match toLowerCase n with
      | Some n' => Shows (includes n' query)
      | None => NotModelled
      end
  | Some _ => RenderFails
  end.

(** [models.some(model => ...)]: it stops at the first model that
    matches. *)
Fixpoint some (query : string) (models : list value) : rendering bool :=
  match models with
  | [] => Shows false
  | model :: rest =>
      match name_matches query model with
      | Shows true => Shows true
      | Shows false => some query rest
      | RenderFails => RenderFails
      | NotModelled => NotModelled
      end
  end.

(** The callback of [filter]: [labelMatch || modelsMatch], as a
    condition.  Both constants are computed before the [||].
    [plugin.models?.some] is [undefined] for a [models] that is missing
    or [null]; a [plugin] that is [null] and a [models] that is no array
    throw. *)
Definition matches (query label : string) (plugin : value) : rendering bool :=
  match toLowerCase label with
  | None => NotModelled
  | Some l =>
      let labelMatch := includes l query in
      match get plugin "models" with
      | None => RenderFails
      | Some (VUndefined | VNull) => Shows labelMatch
      | Some (VArr models) =>
          match some query models with
          | Shows modelsMatch => Shows (labelMatch || modelsMatch)
          | RenderFails => RenderFails
          | NotModelled => NotModelled
          end
      | Some _ => RenderFails
      end
  end.

(** [entries.filter(([label, plugin]) => ...)] *)
Fixpoint filter_entries (query : string) (entries : list (string * value))
  : rendering (list (string * value)) :=
  match entries with
  | [] => Shows []
  | (label, plugin) :: rest =>
      match matches query label plugin with
      | Shows keep =>
          match filter_entries query rest with
          | Shows kept => Shows (if keep then (label, plugin) :: kept else kept)
          | RenderFails => RenderFails
          | NotModelled => NotModelled
          end
      | RenderFails => RenderFails
      | NotModelled => NotModelled
      end
  end.

(** The entries the callback keeps. *)
Definition kept_by (query : string) (e : string * value) : bool :=
  match matches query (fst e) (snd e) with
  | Shows true => true
  | _ => false
  end.

(** [Object.entries(v)] for a [v] that is truthy.  The entries of a
    string, one per character, are not modelled. *)
Definition entries (v : value) : option (list (string * value)) :=
  match v with
  | VObj fs => Some (enumerate fs)
  | VArr items => Some (number_from 0 items)
  | VNum _ | VBool _ => Some []
  | VStr _ | VUndefined | VNull => None
  end.

(** The computed [filteredEndpoints].  [Object.fromEntries] makes an
    object of the entries kept; they come in the order of enumeration,
    which is then the order of the new object as well. *)
Definition filteredEndpoints (s : RefreshData) : rendering value :=
  if negb (truthy (endpoints s)) || String.eqb (searchQuery s) ""
  then Shows (endpoints s)
  else
    match toLowerCase (searchQuery s), entries (endpoints s) with
    | Some query, Some es =>
        match filter_entries query es with
        | Shows kept => Shows (VObj kept)
        | RenderFails => RenderFails
        | NotModelled => NotModelled
        end
    | _, _ => NotModelled
    end.

(** [v-if="filteredEndpoints"] and the [v-for] over it. *)
Definition render_table (shown : value) : rendering view :=
  if truthy shown then
    match shown with
    | VObj fs =>
        match render_rows (enumerate fs) with
        | Some rows => Shows (Table rows)
        | None => RenderFails
        end
    | VArr items =>
        match render_rows (number_from 0 items) with
        | Some rows => Shows (Table rows)
        | None => RenderFails
        end
    | _ => NotModelled
    end
  else Shows Connecting.

Definition render (s : RefreshData) : rendering view :=
  match filteredEndpoints s with
  | Shows shown => render_table shown
  | RenderFails => RenderFails
  | NotModelled => NotModelled
  end.

(** *** What a search is meant to find *)

(** [q] occurs in [s]. *)
Definition occurs (q s : string) : Prop :=
  exists a b : string, s = (a ++ q ++ b)%string.

(** A host is a hit for the lower-case query [q] when [q] occurs in its
    label or in the name of one of its models, letter case aside. *)
Definition hit (q : string) (e : string * value) : Prop :=
  (exists l, toLowerCase (fst e) = Some l /\ occurs q l)
  \/ (exists models model n n',
        get (snd e) "models" = Some (VArr models)
        /\ In model models
        /\ get model "name" = Some (VStr n)
        /\ toLowerCase n = Some n'
        /\ occurs q n').


End Search.

(* ===================================================================== *)
(** ** Llmm.vue: the selection of hosts *)
(* ===================================================================== *)

Module Selection.
Import Dashboard.

(** The fields whose key is an array index: they are enumerated
    first. *)
Definition is_index (e : string * value) : bool :=
  match array_index (fst e) with
  | Some _ => true
  | None => false
  end.

(** [Object.keys(v)] for a [v] that is truthy. *)
Definition keys (v : value) : option (list string) :=
  match v with
  | VObj fs => Some (map fst (enumerate fs))
  | VArr items => Some (map fst (number_from 0 items))
  | VNum _ | VBool _ => Some []
  | VStr _ | VUndefined | VNull => None
  end.

(** The computed [allSelected]: it compares the two lengths. *)
Definition allSelected (endpoints : value) (selectedHosts : list string)
  : option bool :=
  if negb (truthy endpoints) then Some false
  else match keys endpoints with
       | Some allHosts =>
           Some ((0 <? length allHosts)%nat
                 && (length selectedHosts =? length allHosts)%nat)
       | None => None
       end.

(** The computed [someSelected]; [&&] reads [allSelected] only when the
    selection is not empty. *)
Definition someSelected (endpoints : value) (selectedHosts : list string)
  : option bool :=
  if (0 <? length selectedHosts)%nat then
    match allSelected endpoints selectedHosts with
    | Some a => Some (negb a)
    | None => None
    end
  else Some false.

(** [toggleSelectAll()]: the new [selectedHosts]. *)
Definition toggleSelectAll (endpoints : value) (selectedHosts : list string)
  : option (list string) :=
  match allSelected endpoints selectedHosts with
  | Some true => Some []
  | Some false =>
      if truthy endpoints then keys endpoints   (* [endpoints || {}] *)
      else Some []
  | None => None
  end.

(** [selectedHosts.indexOf(label)]; [None] is [-1]. *)
Fixpoint indexOf (label : string) (l : list string) : option nat :=
  match l with
  | [] => None
  | x :: r =>
      if String.eqb x label then Some O
      else match indexOf label r with
           | Some i => Some (S i)
           | None => None
           end
  end.

(** [toggleHostSelection(label)]: [splice(index, 1)] takes the entry
    at [index] out, [push] adds the label at the end. *)
Definition toggleHostSelection (label : string) (selectedHosts : list string)
  : list string :=
  match indexOf label selectedHosts with
  | Some index => delete index selectedHosts
  | None => selectedHosts ++ [label]
  end.

(** [:checked="selectedHosts.includes(label)"] *)
Definition checked (label : string) (selectedHosts : list string) : bool :=
  existsb (String.eqb label) selectedHosts.

End Selection.

(* ===================================================================== *)
(** ** Llmm.vue and ChatView.vue: the models of a host *)
(* ===================================================================== *)

Module Models.
Import Chat ModelList.

(** The [data()] fields that hold the models offered for the chat. *)
Record ModelsData : Type := {
  chat : ChatData;
  availableModels : value;
  modelsLoading : bool
}.

(** The [data()] fields of the chat dialog of Llmm.vue. *)
Record ChatDialog : Type := {
  chat_host : string;                  (* [selectedHost] *)
  chatModalActive : bool;
  models : ModelsData
}.

(** The [data()] fields of the list dialog of Llmm.vue. *)
Record ListDialog : Type := {
  list_host : string;                  (* [selectedHost] *)
  listModalActive : bool;
  listing : ListData
}.

Definition set_selectedModel (m : string) (c : ChatData) : ChatData :=
  {| chatHistory := chatHistory c; chatInput := chatInput c;
     chatLoading := chatLoading c; selectedModel := m |}.

(** [v-model="chatInput"]: the user types [text] into the input. *)
Definition set_chatInput (text : string) (c : ChatData) : ChatData :=
  {| chatHistory := chatHistory c; chatInput := text;
     chatLoading := chatLoading c; selectedModel := selectedModel c |}.

(** The [try], [catch] and [finally] of [openChatModal] and of
    [fetchModels], which are the same statements: the list becomes
    [response.data.models || []], and its first entry, if it has one,
    the selected model; a failure, or a body that is [null], leaves the
    empty list.  A first entry that is no string, and a list that is a
    string or an object, are outside the model. *)
Definition models_settled (answer : axios_result) (d : ModelsData)
  : completion ModelsData :=
  let failed :=
    Normal {| chat := chat d; availableModels := VArr [];
              modelsLoading := false |} in
  match answer with
  | Rejected _ => failed
  | Fulfilled data =>
      match get data "models" with
      | None => failed
      | Some m =>
          let available := or_else m (VArr []) in
          match available with
          | VArr (VStr first :: _) =>
              Normal {| chat := set_selectedModel first (chat d);
                        availableModels := available;
                        modelsLoading := false |}
          | VArr [] | VNum _ | VBool _ =>
              Normal {| chat := chat d; availableModels := available;
                        modelsLoading := false |}
          | _ => Unmodelled
          end
      end
  end.

(** [openChatModal(label)], up to the [await]. *)
Definition openChatModal_begin (label : string) (s : ChatDialog)
  : ChatDialog * list request :=
  ({| chat_host := label;
      chatModalActive := true;
      models := {| chat := {| chatHistory := []; chatInput := "";
                              chatLoading := false; selectedModel := "" |};
                   availableModels := VArr [];
                   modelsLoading := true |} |},
   [models_request label]).

Definition with_models (d : ModelsData) (s : ChatDialog) : ChatDialog :=
  {| chat_host := chat_host s; chatModalActive := chatModalActive s;
     models := d |}.

(** [openChatModal(label)], run until its promise settles. *)
Definition openChatModal (label : string) (s : ChatDialog)
    (answer : axios_result) : list request * completion ChatDialog :=
  let (s1, reqs) := openChatModal_begin label s in
  (reqs,
   match models_settled answer (models s1) with
   | Normal d => Normal (with_models d s1)
   | Returned d => Returned (with_models d s1)
   | Unmodelled => Unmodelled
   end).

(** [fetchModels()] of ChatView.vue, for the host [label] of the
    route. *)
Definition fetchModels (label : string) (d : ModelsData)
    (answer : axios_result) : list request * completion ModelsData :=
  ([models_request label],
   models_settled answer
     {| chat := chat d; availableModels := availableModels d;
        modelsLoading := true |}).

(** [openListModal(label)], run until its promise settles. *)
Definition openListModal (label : string) (s : ListDialog)
    (answer : axios_result) : list request * ListDialog :=
  ([models_request label],
   {| list_host := label;
      listModalActive := true;
      listing :=
        {| listModels :=
             match answer with
             | Fulfilled data =>
                 match get data "models" with
                 | Some m => or_else m (VArr [])
                 | None => VArr []
                 end
             | Rejected _ => VArr []
             end;
           listModelsLoading := false;
           deleteConfirmModalActive := deleteConfirmModalActive (listing s);
           modelToDelete := modelToDelete (listing s);
           deleteInProgress := deleteInProgress (listing s) |} |}).

(** [confirmDeleteModel(modelName)] *)
Definition confirmDeleteModel (modelName : value) (s : ListData) : ListData :=
  {| listModels := listModels s;
     listModelsLoading := listModelsLoading s;
     deleteConfirmModalActive := true;
     modelToDelete := modelName;
     deleteInProgress := deleteInProgress s |}.

(** The body of the list dialog. *)
Inductive ListView : Type :=
| LoadingModels                        (* [v-if="listModelsLoading"] *)
| NoModels                             (* [v-else-if="listModels.length === 0"] *)
| Items (shown : list value).          (* [v-for="model in listModels"] *)

Definition render_list (s : ListData) : rendering ListView :=
  if listModelsLoading s then Shows LoadingModels
  else match listModels s with
       | VArr [] => Shows NoModels
       | VArr items => Shows (Items items)
       | VUndefined | VNull => RenderFails
       | _ => NotModelled
       end.

End Models.

(* ===================================================================== *)
(** ** Llmm.vue: the aliases of a host, and their deletion *)
(* ===================================================================== *)

Module LitellmList.

(** The [data()] fields of the alias list and of its delete
    confirmation. *)
Record AliasListData : Type := {
  selectedHost : string;
  litellmListModalActive : bool;
  litellmListModels : value;
  litellmListLoading : bool;
  litellmDeleteInProgress : bool;
  litellmDeleteConfirmModal : bool;
  litellmModelToDelete : value
}.

Definition set_litellmDeleteInProgress (b : bool) (s : AliasListData)
  : AliasListData :=
  {| selectedHost := selectedHost s;
     litellmListModalActive := litellmListModalActive s;
     litellmListModels := litellmListModels s;
     litellmListLoading := litellmListLoading s;
     litellmDeleteInProgress := b;
     litellmDeleteConfirmModal := litellmDeleteConfirmModal s;
     litellmModelToDelete := litellmModelToDelete s |}.

Definition aliases_request (label : string) : request :=
  {| meth := GET; url := "/llmm/litellm/models/" ++ label; body := None |}.

(** [axios.delete(`/llmm/litellm/models/${id}`)]: the id goes into the
    path as it is. *)
Definition delete_alias_request (id : string) : request :=
  {| meth := DELETE; url := "/llmm/litellm/models/" ++ id; body := None |}.

(** [openLitellmListModal(label)], run until its promise settles. *)
Definition openLitellmListModal (label : string) (s : AliasListData)
    (answer : axios_result) : list request * AliasListData :=
  ([aliases_request label],
   {| selectedHost := label;
      litellmListModalActive := true;
      litellmListModels :=
        match answer with
        | Fulfilled data =>
            match get data "models" with
            | Some m => or_else m (VArr [])
            | None => VArr []
            end
        | Rejected _ => VArr []
        end;
      litellmListLoading := false;
      litellmDeleteInProgress := litellmDeleteInProgress s;
      litellmDeleteConfirmModal := litellmDeleteConfirmModal s;
      litellmModelToDelete := litellmModelToDelete s |}).

(** [closeLitellmListModal()] *)
Definition closeLitellmListModal (s : AliasListData) : AliasListData :=
  {| selectedHost := selectedHost s;
     litellmListModalActive := false;
     litellmListModels := VArr [];
     litellmListLoading := false;
     litellmDeleteInProgress := litellmDeleteInProgress s;
     litellmDeleteConfirmModal := litellmDeleteConfirmModal s;
     litellmModelToDelete := litellmModelToDelete s |}.

(** [confirmDeleteLitellmModel(modelId)] *)
Definition confirmDeleteLitellmModel (modelId : value) (s : AliasListData)
  : AliasListData :=
  {| selectedHost := selectedHost s;
     litellmListModalActive := litellmListModalActive s;
     litellmListModels := litellmListModels s;
     litellmListLoading := litellmListLoading s;
     litellmDeleteInProgress := litellmDeleteInProgress s;
     litellmDeleteConfirmModal := true;
     litellmModelToDelete := modelId |}.

(** The block under [if (response.data.status === 'success')]. *)
Definition alias_deleted (refresh : axios_result) (s : AliasListData)
  : AliasListData :=
  {| selectedHost := selectedHost s;
     litellmListModalActive := litellmListModalActive s;
     litellmListModels :=
       match refresh with
       | Fulfilled data =>
           match get data "models" with
           | Some m => or_else m (VArr [])
           | None => litellmListModels s
           end
       | Rejected _ => litellmListModels s
       end;
     litellmListLoading := false;
     litellmDeleteInProgress := litellmDeleteInProgress s;
     litellmDeleteConfirmModal := false;
     litellmModelToDelete := VNull |}.

(** [deleteLitellmModel()].  [answer] settles the DELETE and [refresh]
    the GET that follows a success.  An id that is truthy and no string
    would be coerced into the path; a [null] body makes
    [response.data.status] throw and the alert show the engine's
    message: both are outside the model, and so is then what is sent. *)
Definition deleteLitellmModel (s : AliasListData)
    (answer refresh : axios_result) : outcome AliasListData :=
  if negb (truthy (litellmModelToDelete s)) then
    {| sent := []; alerts := []; result := Returned s |}
  else
    match litellmModelToDelete s with
    | VStr id =>
        let req := delete_alias_request id in
        let s1 := set_litellmDeleteInProgress true s in
        match answer with
        | Fulfilled data =>
            match get data "status" with
            | None => {| sent := [req]; alerts := []; result := Unmodelled |}
            | Some status =>
                if is_string status "success" then
                  {| sent := [req; aliases_request (selectedHost s)];
                     alerts := [];
                     result := Normal (set_litellmDeleteInProgress false
                                         (alias_deleted refresh s1)) |}
                else
                  {| sent := [req]; alerts := [];
                     result := Normal (set_litellmDeleteInProgress false s1) |}
            end
        | Rejected e =>
            match detail_or_message e with
            | Some text =>
                {| sent := [req];
                   alerts := [("Failed to delete model from LiteLLM: "
                               ++ text)%string];
                   result := Normal (set_litellmDeleteInProgress false s1) |}
            | None => {| sent := [req]; alerts := []; result := Unmodelled |}
            end
        end
    | _ => {| sent := []; alerts := []; result := Unmodelled |}
    end.

End LitellmList.

(* ===================================================================== *)
(** ** Llmm.vue: the bulk dialogs *)
(* ===================================================================== *)

Module Bulk.
Import Litellm.

(** The [data()] fields of the two bulk dialogs; they share
    [selectedHosts]. *)
Record BulkData : Type := {
  litellmModalActive : bool;
  create : LitellmData;                (* holds [selectedHosts] *)
  litellmPurgeModalActive : bool;
  litellmPurging : bool;
  litellmPurgeResults : value
}.

Definition with_create (c : LitellmData) (s : BulkData) : BulkData :=
  {| litellmModalActive := litellmModalActive s; create := c;
     litellmPurgeModalActive := litellmPurgeModalActive s;
     litellmPurging := litellmPurging s;
     litellmPurgeResults := litellmPurgeResults s |}.

(** [openLitellmModal()] *)
Definition openLitellmModal (s : BulkData) : BulkData :=
  {| litellmModalActive := true;
     create := {| litellmModelName := ""; litellmOllamaModel := "";
                  litellmCreating := false; litellmResults := VNull;
                  selectedHosts := selectedHosts (create s) |};
     litellmPurgeModalActive := litellmPurgeModalActive s;
     litellmPurging := litellmPurging s;
     litellmPurgeResults := litellmPurgeResults s |}.

(** [closeLitellmModal()] *)
Definition closeLitellmModal (s : BulkData) : BulkData :=
  {| litellmModalActive := false;
     create := {| litellmModelName := ""; litellmOllamaModel := "";
                  litellmCreating := false; litellmResults := VNull;
                  selectedHosts := [] |};
     litellmPurgeModalActive := litellmPurgeModalActive s;
     litellmPurging := litellmPurging s;
     litellmPurgeResults := litellmPurgeResults s |}.

Definition set_selectedHosts (hs : list string) (c : LitellmData)
  : LitellmData :=
  {| litellmModelName := litellmModelName c;
     litellmOllamaModel := litellmOllamaModel c;
     litellmCreating := litellmCreating c;
     litellmResults := litellmResults c;
     selectedHosts := hs |}.

(** [openLitellmPurgeModal()] *)
Definition openLitellmPurgeModal (s : BulkData) : BulkData :=
  {| litellmModalActive := litellmModalActive s; create := create s;
     litellmPurgeModalActive := true;
     litellmPurging := false;
     litellmPurgeResults := VNull |}.

(** [closeLitellmPurgeModal()] *)
Definition closeLitellmPurgeModal (s : BulkData) : BulkData :=
  {| litellmModalActive := litellmModalActive s;
     create := set_selectedHosts [] (create s);
     litellmPurgeModalActive := false;
     litellmPurging := false;
     litellmPurgeResults := VNull |}.

Definition bulk_purge_request (s : BulkData) : request :=
  {| meth := POST;
     url := "/llmm/litellm/models/bulk-purge";
     body := Some (VObj [("host_labels",
                          VArr (map VStr (selectedHosts (create s))))]) |}.

Definition purge_settled (results : value) (s : BulkData) : BulkData :=
  {| litellmModalActive := litellmModalActive s; create := create s;
     litellmPurgeModalActive := litellmPurgeModalActive s;
     litellmPurging := false;
     litellmPurgeResults := results |}.

(** [purgeLitellmModels()] *)
Definition purgeLitellmModels (s : BulkData) (answer : axios_result)
  : outcome BulkData :=
  if (length (selectedHosts (create s)) =? 0)%nat
  then {| sent := []; alerts := []; result := Returned s |}
  else
    let req := bulk_purge_request s in
    match answer with
    | Fulfilled data =>
        {| sent := [req]; alerts := [];
           result := Normal (purge_settled data s) |}
    | Rejected e =>
        match detail_or_message e with
        | Some text =>
            {| sent := [req];
               alerts := [("Failed to purge models: " ++ text)%string];
               result := Normal (purge_settled VNull s) |}
        | None => {| sent := [req]; alerts := []; result := Unmodelled |}
        end
    end.

(** [createLitellmModels()] on the fields of the create dialog. *)
Definition createLitellmModels (s : BulkData) (answer : axios_result)
  : outcome BulkData :=
  let o := Litellm.createLitellmModels (create s) answer in
  {| sent := sent o; alerts := alerts o;
     result := match result o with
               | Normal c => Normal (with_create c s)
               | Returned c => Returned (with_create c s)
               | Unmodelled => Unmodelled
               end |}.

(** [v-if="selectedHosts.length > 0 && litellmStatus.available"]: the
    bar with the two bulk buttons, for a LiteLLM that is available. *)
Definition bulk_bar (s : BulkData) : bool :=
  (0 <? length (selectedHosts (create s)))%nat.

End Bulk.

(* ===================================================================== *)
(** ** Llmm.vue: opening and closing the pull dialog *)
(* ===================================================================== *)

Module PullDialog.
Import Pull.

(** The [data()] fields of the pull dialog with the host it is for. *)
Record DialogData : Type := {
  selectedHost : string;
  pullModalActive : bool;
  pull : PullData
}.

(** The values [openPullModal] and [closePullModal] give the fields of
    the pull. *)
Definition cleared : PullData :=
  {| pullModelName := ""; pullInProgress := false; pullProgress := 0;
     pullStatus := VStr ""; pullError := VNull; pullComplete := false |}.

(** [openPullModal(label)] *)
Definition openPullModal (label : string) (s : DialogData) : DialogData :=
  {| selectedHost := label; pullModalActive := true; pull := cleared |}.

(** [closePullModal()] *)
Definition closePullModal (s : DialogData) : DialogData :=
  {| selectedHost := selectedHost s; pullModalActive := false;
     pull := cleared |}.

(** [v-model="pullModelName"]: the user types [name] into the input. *)
Definition set_pullModelName (name : string) (s : PullData) : PullData :=
  {| pullModelName := name; pullInProgress := pullInProgress s;
     pullProgress := pullProgress s; pullStatus := pullStatus s;
     pullError := pullError s; pullComplete := pullComplete s |}.

End PullDialog.

(* ===================================================================== *)
(** ** Line ends *)
(* ===================================================================== *)

Module LineEnds.

(** The carriage return. *)
Definition cr : ascii := "013"%char.

(** The text with a carriage return put before every line feed: the
    line ends CR LF in place of LF. *)
Fixpoint crlf (s : string) : string :=
  match s with
  | EmptyString => EmptyString
  | String c r =>
      if Ascii.eqb c "010" then String cr (String "010" (crlf r))
      else String c (crlf r)
  end.

(** The lines of a text with a carriage return added to every line but
    the last, which no line feed ends. *)
Fixpoint mark_cr (lines : list string) : list string :=
  match lines with
  | [] => []
  | line :: rest =>
      match rest with
      | [] => [line]
      | _ :: _ => (line ++ String cr "")%string :: mark_cr rest
      end
  end.

(** A state of the lexer of [JSON.parse] in which no literal that is
    being read holds a carriage return. *)
Definition plain (st : JSON.lexst) : Prop :=
  match st with
  | JSON.LLit rest _ => ~ In cr rest
  | _ => True
  end.

(** The response whose reads have the line ends CR LF. *)
Definition with_crlf (r : response) : response :=
  {| ok := ok r; status := status r; reads := map crlf (reads r);
     ending := ending r |}.

End LineEnds.

(* ===================================================================== *)
(** ** The messages of a chat *)
(* ===================================================================== *)

Module ChatLog.
Import Chat.

(** The message the outer [catch] of [sendMessage] pushes. *)
Definition failure_notice : Message :=
  {| role := "assistant";
     content := "Error: Failed to get response from the model." |}.

(** What [sendMessage] adds to the history after the user's message:
    the answer as far as it came, and the failure notice when the
    request or the stream failed. *)
Definition added (net : fetch_result) (tail : list Message) : Prop :=
  match net with
  | FetchFails _ => tail = [failure_notice]
  | Responds r =>
      if ok r then
        exists text : string,
          tail = {| role := "assistant"; content := text |}
                 :: match ending r with
                    | Done => []
                    | ReadFails _ => [failure_notice]
                    end
      else tail = [failure_notice]
  end.

End ChatLog.

(* ===================================================================== *)
(** ** Runs of the page *)
(* ===================================================================== *)

Module Lifecycle.
Import Dashboard.

(** The page after a sequence of events. *)
Fixpoint run (w : World) (evs : list event) : World :=
  match evs with
  | [] => w
  | ev :: rest => run (fst (step w ev)) rest
  end.

End Lifecycle.

(* ===================================================================== *)
(** ** Byte counts of a pull *)
(* ===================================================================== *)

Module PullBounds.

Local Open Scope Q_scope.



End PullBounds.

(* ===================================================================== *)
(** ** Further sample inputs *)
(* ===================================================================== *)

Module Cases.
Import Dashboard.

(** A snapshot of two hosts: one runs a model, one reports none. *)
Definition gpu1_entry : string * value :=
  ("gpu-1", VObj [("is_online", VBool true);
                  ("models", VArr [VObj [("name", VStr "Gemma2:2b")]])]).

Definition cpu_entry : string * value :=
  ("CPU-box", VObj [("is_online", VBool false); ("models", VNull)]).

Definition two_hosts : list (string * value) := [gpu1_entry; cpu_entry].



(** The table over [two_hosts] with [q] in the search box. *)
Definition searching (q : string) : RefreshData :=
  {| endpoints := VObj two_hosts; loading := false; intervalId := None;
     tickIntervalId := None; refreshInterval := 1000; searchQuery := q |}.

(** A chat dialog left over from a talk with another host. *)
Definition old_chat : Models.ChatDialog :=
  {| Models.chat_host := "CPU-box";
     Models.chatModalActive := false;
     Models.models :=
       {| Models.chat :=
            {| Chat.chatHistory :=
                 [{| Chat.role := "user"; Chat.content := "earlier" |}];
               Chat.chatInput := "draft";
               Chat.chatLoading := false;
               Chat.selectedModel := "llama3:8b" |};
          Models.availableModels := VArr [VStr "llama3:8b"];
          Models.modelsLoading := false |} |}.

Definition two_models : value :=
  VObj [("models", VArr [VStr "gemma2:2b"; VStr "llama3:8b"])].

(** The alias list of host A, with the delete confirmation open. *)
Definition alias_dialog : LitellmList.AliasListData :=
  {| LitellmList.selectedHost := "A";
     LitellmList.litellmListModalActive := true;
     LitellmList.litellmListModels :=
       VArr [VObj [("model_name", VStr "team-gemma");
                   ("model_info", VObj [("id", VStr "A-team-gemma")])]];
     LitellmList.litellmListLoading := false;
     LitellmList.litellmDeleteInProgress := false;
     LitellmList.litellmDeleteConfirmModal := true;
     LitellmList.litellmModelToDelete := VStr "A-team-gemma" |}.




(** The sample pull stream in one read. *)
Definition failing_pull_in_one : response :=
  {| ok := true; status := 200;
     reads := [(Samples.manifest_line ++ Samples.nl
                ++ Samples.download_line ++ Samples.nl
                ++ Samples.reset_line ++ Samples.nl
                ++ Samples.success_line ++ Samples.nl)%string];
     ending := Done |}.

(** The sample chat stream in one read. *)
Definition chat_in_one : response :=
  {| ok := true; status := 200; reads := [Samples.chat_stream];
     ending := Done |}.

Definition chat_aligned : response :=
  {| ok := true; status := 200; reads := Samples.aligned_reads;
     ending := Done |}.

(** A pull stream that ends without an event: a blank line and a line
    that is no JSON. *)
Definition silent_pull : response :=
  {| ok := true; status := 200;
     reads := [Samples.nl; ("<html>" ++ Samples.nl)%string];
     ending := Done |}.

(** The answer of a server that fails. *)
Definition server_error : response :=
  {| ok := false; status := 500; reads := ["Internal Server Error"];
     ending := Done |}.

End Cases.

(* ===================================================================== *)
(** * Properties *)
(* ===================================================================== *)

Module TextFacts.
Import Text.

(** One step of [++] on strings. *)
Lemma append_cons (c : ascii) (a b : string) :
  (String c a ++ b)%string = String c (a ++ b).
Proof. reflexivity. Qed.

Lemma append_nil_l (s : string) : ("" ++ s)%string = s.
Proof. reflexivity. Qed.

Lemma append_nil_r (s : string) : (s ++ "")%string = s.
Proof.
  induction s as [|c s IH]; [reflexivity|].
  now rewrite append_cons, IH.
Qed.

Lemma append_assoc (a b c : string) :
  ((a ++ b) ++ c)%string = (a ++ (b ++ c))%string.
Proof.
  induction a as [|x a IH]; [reflexivity|].
  now rewrite !append_cons, IH.
Qed.

Lemma split_not_nil (sep : ascii) (s : string) : split sep s <> [].
Proof.
  destruct s as [|c s]; cbn; [discriminate|].
  destruct (Ascii.eqb c sep); [discriminate|].
  destruct (split sep s); discriminate.
Qed.

(** Splitting a text at a separator splits its lines. *)
Lemma split_app_sep (sep : ascii) (a b : string) :
  split sep (a ++ String sep b) = split sep a ++ split sep b.
Proof.
  induction a as [|c a IH].
  - rewrite append_nil_l. cbn. now rewrite Ascii.eqb_refl.
  - rewrite append_cons. cbn [split]. destruct (Ascii.eqb c sep).
    + now rewrite IH.
    + rewrite IH. pose proof (split_not_nil sep a) as Hne.
      destruct (split sep a); [contradiction|reflexivity].
Qed.

Lemma prefix_nil (s : string) : String.prefix "" s = true.
Proof. now destruct s. Qed.

Lemma prefix_app (p s : string) : String.prefix p (p ++ s) = true.
Proof.
  induction p as [|a p IH]; [apply prefix_nil|].
  rewrite append_cons. cbn [String.prefix].
  destruct (ascii_dec a a); [exact IH|contradiction].
Qed.

Lemma drop_app (p s : string) : drop (String.length p) (p ++ s) = s.
Proof. induction p as [|a p IH]; [reflexivity|exact IH]. Qed.

Lemma replace_unfold (pat rep s : string) :
  replace pat rep s =
    if String.prefix pat s then (rep ++ drop (String.length pat) s)%string
    else match s with
         | EmptyString => EmptyString
         | String c r => String c (replace pat rep r)
         end.
Proof. now destruct s. Qed.

(** Replacing a pattern the text starts with replaces that prefix. *)
Lemma replace_prefix (pat rep s : string) :
  replace pat rep (pat ++ s) = (rep ++ s)%string.
Proof. now rewrite replace_unfold, prefix_app, drop_app. Qed.

(** A text that ends in a byte which starts no white space keeps that
    byte when trimmed from the end. *)
Lemma trimEnd_rev_keeps (c : ascii) :
  ws1 c = false ->
  (forall a, ws2 c a = false) ->
  (forall a b, ws3 c b a = false) ->
  forall x, trimEnd_rev (x ++ [c]) <> [].
Proof.
  intros H1 H2 H3 x.
  remember (length x) as n eqn:Hn. revert x Hn.
  induction n as [n IH] using lt_wf_ind. intros x ->.
  destruct x as [|a x]; cbn [app trimEnd_rev].
  - rewrite H1. discriminate.
  - destruct (ws1 a).
    + apply (IH (length x)); [cbn; lia|reflexivity].
    + destruct x as [|b x]; cbn [app].
      * rewrite H2. discriminate.
      * destruct (ws2 b a).
        -- apply (IH (length x)); [cbn; lia|reflexivity].
        -- destruct x as [|d x]; cbn [app].
           ++ rewrite H3. discriminate.
           ++ destruct (ws3 d b a); [|discriminate].
              apply (IH (length x)); [cbn; lia|reflexivity].
Qed.

Lemma string_of_list_ascii_nil (l : list ascii) :
  string_of_list_ascii l = "" -> l = [].
Proof. destruct l; [reflexivity|discriminate]. Qed.

(** A line that starts with [data: ] is not blank. *)
Lemma data_prefix_nonblank (line : string) :
  startsWith line "data: " = true -> nonblank line = true.
Proof.
  unfold startsWith. intros H.
  destruct line as [|c line]; [discriminate H|].
  change ((if ascii_dec "d" c then String.prefix "ata: " line else false)
          = true) in H.
  destruct (ascii_dec "d" c) as [<-|]; [|discriminate].
  clear H. unfold nonblank, trim. apply negb_true_iff.
  apply String.eqb_neq. intros E.
  apply string_of_list_ascii_nil in E.
  apply (f_equal (@rev ascii)) in E. rewrite rev_involutive in E.
  cbn [rev] in E. revert E.
  cbn [list_ascii_of_string].
  destruct (list_ascii_of_string line) as [|a [|b r]] eqn:El.
  - cbn. discriminate.
  - change (trimStart_list ["d"%char; a]) with ["d"%char; a].
    change (rev ["d"%char; a]) with ([a] ++ ["d"%char]).
    apply trimEnd_rev_keeps; reflexivity.
  - change (trimStart_list ("d"%char :: a :: b :: r))
      with ("d"%char :: a :: b :: r).
    change (rev ("d"%char :: a :: b :: r))
      with (rev (a :: b :: r) ++ ["d"%char]).
    apply trimEnd_rev_keeps; reflexivity.
Qed.

(** The lines kept by a filter that drops the empty line: when a text
    ends at a line end, the lines of what follows come after its own. *)
Lemma filter_split_app (keep : string -> bool) (a b : string) :
  keep "" = false ->
  whole_lines a ->
  List.filter keep (split "010" (a ++ b))
  = List.filter keep (split "010" a) ++ List.filter keep (split "010" b).
Proof.
  intros Hempty [body ->].
  rewrite append_assoc, append_cons, append_nil_l.
  rewrite !split_app_sep, !List.filter_app.
  cbn [split List.filter]. rewrite Hempty. now rewrite app_nil_r.
Qed.

(** Reads that end at line ends hold, one after the other, the lines of
    the whole text. *)
Lemma filter_split_concat (keep : string -> bool) (chunks : list string) :
  keep "" = false ->
  Forall whole_lines chunks ->
  List.filter keep (split "010" (String.concat "" chunks))
  = flat_map (fun chunk => List.filter keep (split "010" chunk)) chunks.
Proof.
  intros Hempty. induction 1 as [|c chunks Hc _ IH].
  - cbn. now rewrite Hempty.
  - cbn [flat_map]. rewrite <- IH.
    destruct chunks as [|c' chunks].
    + cbn [String.concat split List.filter]. rewrite Hempty.
      now rewrite app_nil_r.
    + change (String.concat "" (c :: c' :: chunks))
        with (c ++ "" ++ String.concat "" (c' :: chunks))%string.
      rewrite append_nil_l. now apply filter_split_app.
Qed.

End TextFacts.

Module PullFacts.
Import Pull.

Lemma pull_lines_app (a b : list string) :
  forall s,
    pull_lines s (a ++ b) =
    match pull_lines s a with
    | Normal s' => pull_lines s' b
    | stop => stop
    end.
Proof.
  induction a as [|l a IH]; intros s; simpl.
  - reflexivity.
  - destruct (pull_line s l); auto.
Qed.

(** The two nested loops visit the non-blank lines of the reads in
    order. *)
Lemma pull_reads_flat (chunks : list string) :
  forall s,
    pull_reads s chunks = pull_lines s (flat_map nonblank_lines chunks).
Proof.
  induction chunks as [|c chunks IH]; intros s; simpl.
  - reflexivity.
  - rewrite pull_lines_app.
    destruct (pull_lines s (nonblank_lines c)); auto.
Qed.

(** When every read ends at a line end, the lines the loops visit are
    the non-blank lines of the whole body. *)
Lemma nonblank_lines_concat (chunks : list string) :
  Forall Text.whole_lines chunks ->
  nonblank_lines (String.concat "" chunks) = flat_map nonblank_lines chunks.
Proof. now apply TextFacts.filter_split_concat. Qed.




Lemma startPull_sends (baseURL selectedHost : string) (s : PullData)
      (net : fetch_result) :
  pullModelName s <> "" ->
  fst (startPull baseURL selectedHost s net)
  = [pull_request baseURL selectedHost s].
Proof.
  intros Hn. unfold startPull.
  destruct (String.eqb_spec (pullModelName s) ""); [contradiction|].
  reflexivity.
Qed.

Lemma startPull_reads (baseURL selectedHost : string) (s : PullData)
      (r : response) :
  pullModelName s <> "" -> ok r = true ->
  snd (startPull baseURL selectedHost s (Responds r)) =
    match pull_lines (pull_started s) (flat_map nonblank_lines (reads r)) with
    | Normal s1 =>
        Normal (pull_finally
                  match ending r with
                  | Done => pull_after_loop s1
                  | ReadFails msg => pull_catch msg s1
                  end)
    | Returned s1 => Returned (pull_finally s1)
    | Unmodelled => Unmodelled
    end.
Proof.
  intros Hn Hok. unfold startPull.
  destruct (String.eqb_spec (pullModelName s) ""); [contradiction|].
  cbn [snd]. rewrite Hok. cbn [negb]. rewrite pull_reads_flat.
  destruct (pull_lines _ _); try reflexivity.
  destruct (ending r); reflexivity.
Qed.


End PullFacts.

Module PullClaims.
Import Pull PullFacts.





End PullClaims.



Module ChatFacts.
Import Text TextFacts Chat.

(** The filter of the loop keeps exactly the lines that start with
    [data: ]; the blank test adds nothing. *)
Lemma event_lines_are_data_lines (chunk : string) :
  event_lines chunk = data_lines chunk.
Proof.
  unfold event_lines, data_lines. apply List.filter_ext. intros line.
  destruct (startsWith line "data: ") eqn:E.
  - now rewrite (data_prefix_nonblank line E).
  - apply andb_false_r.
Qed.

Lemma data_lines_concat (chunks : list string) :
  Forall whole_lines chunks ->
  data_lines (String.concat "" chunks) = flat_map data_lines chunks.
Proof. now apply filter_split_concat. Qed.

Lemma chat_lines_app (i : nat) (a b : list string) :
  forall s,
    chat_lines i s (a ++ b) =
    match chat_lines i s a with
    | Normal s' => chat_lines i s' b
    | stop => stop
    end.
Proof.
  induction a as [|l a IH]; intros s; [reflexivity|].
  cbn [app chat_lines]. destruct (chat_line i s l); auto.
Qed.

Lemma chat_reads_flat (i : nat) (chunks : list string) :
  forall s,
    chat_reads i s chunks = chat_lines i s (flat_map data_lines chunks).
Proof.
  induction chunks as [|c chunks IH]; intros s; [reflexivity|].
  cbn [chat_reads flat_map].
  rewrite chat_lines_app, event_lines_are_data_lines.
  destruct (chat_lines i s (data_lines c)); auto.
Qed.

Lemma append_content_nil (i : nat) (s : ChatData) :
  append_content i "" s = s.
Proof.
  unfold append_content, set_chatHistory.
  rewrite list_alter_id; [now destruct s|].
  intros [r c]. unfold add_text. cbn. now rewrite append_nil_r.
Qed.

Lemma append_content_twice (i : nat) (t u : string) (s : ChatData) :
  append_content i u (append_content i t s) = append_content i (t ++ u) s.
Proof.
  unfold append_content, set_chatHistory. cbn.
  rewrite list_alter_alter_eq. f_equal.
  apply list_alter_ext; [|reflexivity].
  intros [r c] _. unfold add_text. cbn. now rewrite append_assoc.
Qed.


Lemma replace_data_prefix (payload : string) :
  replace "data: " "" ("data: " ++ payload) = payload.
Proof. apply (replace_prefix "data: " "" payload). Qed.

(** An event line adds its text to the assistant message. *)
Lemma chat_line_carries (i : nat) (line t : string) :
  carries line t ->
  forall s, chat_line i s line = Normal (append_content i t s).
Proof.
  intros H s. destruct H as [|payload fs c0 d more t Hp Hc Hd Ht
                             |payload fs c0 d more Hp Hc Hd Ht].
  - now rewrite append_content_nil.
  - unfold chat_line. rewrite replace_data_prefix.
    destruct (String.eqb_spec payload "[DONE]") as [->|_];
      [discriminate Hp|].
    rewrite Hp. unfold chat_event, get. rewrite Hc.
    cbn [truthy item0 get_opt get]. rewrite Hd.
    cbn [get_opt get]. rewrite Ht.
    cbn [truthy]. destruct (String.eqb_spec t "") as [->|_]; cbn [negb].
    + now rewrite append_content_nil.
    + reflexivity.
  - unfold chat_line. rewrite replace_data_prefix.
    destruct (String.eqb_spec payload "[DONE]") as [->|_];
      [discriminate Hp|].
    rewrite Hp. unfold chat_event, get. rewrite Hc.
    cbn [truthy item0 get_opt get]. rewrite Hd.
    cbn [get_opt get]. rewrite append_content_nil.
    destruct Ht as [-> | ->]; reflexivity.
Qed.

Lemma concat_cons (t : string) (ts : list string) :
  String.concat "" (t :: ts) = (t ++ String.concat "" ts)%string.
Proof.
  destruct ts; cbn [String.concat].
  - now rewrite append_nil_r.
  - reflexivity.
Qed.

Lemma chat_lines_carries (i : nat) (lines texts : list string) :
  Forall2 carries lines texts ->
  forall s,
    chat_lines i s lines
    = Normal (append_content i (String.concat "" texts) s).
Proof.
  induction 1 as [|l t lines texts Hl _ IH]; intros s.
  - cbn [chat_lines String.concat]. now rewrite append_content_nil.
  - cbn [chat_lines]. rewrite (chat_line_carries i l t Hl s), IH.
    now rewrite append_content_twice, concat_cons.
Qed.

Lemma sendMessage_sends (baseURL host : string) (s : ChatData)
      (net : fetch_result) :
  nonblank (chatInput s) = true ->
  fst (sendMessage baseURL host s net) = [chat_request baseURL host s].
Proof. intros H. unfold sendMessage. now rewrite H. Qed.

Lemma sendMessage_reads (baseURL host : string) (s : ChatData)
      (r : response) :
  nonblank (chatInput s) = true -> ok r = true ->
  snd (sendMessage baseURL host s (Responds r)) =
    match chat_lines (length (chatHistory (chat_started s)))
                     (push assistantMessage (chat_started s))
                     (flat_map data_lines (reads r)) with
    | Normal s2 =>
        Normal (chat_finally
                  match ending r with
                  | Done => s2
                  | ReadFails _ => chat_catch s2
                  end)
    | Returned s2 => Returned (chat_finally s2)
    | Unmodelled => Unmodelled
    end.
Proof.
  intros H Hok. unfold sendMessage. rewrite H, Hok. cbn [negb snd].
  rewrite chat_reads_flat.
  destruct (chat_lines _ _ _); try reflexivity.
  destruct (ending r); reflexivity.
Qed.


(** A stream whose event lines, read by read, carry [texts] leaves the
    assistant message with their concatenation. *)
Lemma sendMessage_answered (baseURL host : string) (s : ChatData)
      (r : response) (texts : list string) :
  nonblank (chatInput s) = true ->
  ok r = true -> ending r = Done ->
  Forall2 carries (flat_map data_lines (reads r)) texts ->
  sendMessage baseURL host s (Responds r)
  = ([chat_request baseURL host s],
     Normal (chat_answered s (String.concat "" texts))).
Proof.
  intros H Hok Hend Hc.
  rewrite (surjective_pairing (sendMessage _ _ _ _)).
  rewrite sendMessage_sends, sendMessage_reads by assumption.
  rewrite (chat_lines_carries _ _ _ Hc), Hend.
  do 2 f_equal.
  unfold chat_finally, set_chatLoading, append_content, set_chatHistory,
    push, set_chatHistory, chat_started, chat_answered.
  cbn [chatHistory chatInput chatLoading selectedModel].
  f_equal.
  rewrite <- (Nat.add_0_r (length _)), alter_app_r.
  cbn [alter list_alter]. unfold add_text, assistantMessage.
  cbn [role content]. rewrite append_nil_l.
  now rewrite <- app_assoc.
Qed.

End ChatFacts.

Module ChatClaims.
Import Text Chat ChatFacts.



(** C5, as stated, fails: it is not so that for every chunking of the
    stream into reads the assistant message ends up as the
    concatenation of the texts the stream carries.  When a read ends
    inside an event line, the loop parses the two parts apart and the
    delta is lost. *)
Lemma sendMessage_cut_line_loses_delta :
  ~ (forall (baseURL host : string) (s : ChatData) (r : response)
            (texts : list string),
        nonblank (chatInput s) = true ->
        ok r = true -> ending r = Done ->
        Forall2 carries (data_lines (String.concat "" (reads r))) texts ->
        snd (sendMessage baseURL host s (Responds r))
        = Normal (chat_answered s (String.concat "" texts))).
Proof.
  intros claim.
  specialize (claim "http://api" "gpu-1" Samples.chat
                    {| ok := true; status := 200;
                       reads := Samples.cut_reads; ending := Done |}
                    ["Hi"; " there"; ""]
                    eq_refl eq_refl eq_refl).
  assert (Hc : Forall2 carries
                 (data_lines (String.concat "" Samples.cut_reads))
                 ["Hi"; " there"; ""]).
  { change (data_lines (String.concat "" Samples.cut_reads))
      with [Samples.hi_line; Samples.there_line; Samples.done_line].
    repeat constructor.
    - eapply (carries_text Samples.hi_payload); reflexivity.
    - eapply (carries_text Samples.there_payload); reflexivity. }
  specialize (claim Hc). vm_compute in claim. discriminate claim.
Qed.

(** C5, amended.  When every read ends at a line end, so that no event
    line is cut, and the event lines of the stream carry [texts], the
    assistant message ends up with the concatenation of [texts] in the
    order of arrival: no delta is lost, doubled or moved. *)
Theorem sendMessage_keeps_every_delta :
  forall (baseURL host : string) (s : ChatData) (r : response)
         (texts : list string),
    nonblank (chatInput s) = true ->
    ok r = true -> ending r = Done ->
    Forall whole_lines (reads r) ->
    Forall2 carries (data_lines (String.concat "" (reads r))) texts ->
    sendMessage baseURL host s (Responds r)
    = ([chat_request baseURL host s],
       Normal (chat_answered s (String.concat "" texts))).
Proof.
  intros baseURL host s r texts H Hok Hend Hwhole Hc.
  apply sendMessage_answered; try assumption.
  now rewrite <- data_lines_concat.
Qed.

(** C5, amended, at the sample stream in reads that end at line ends. *)
Lemma sendMessage_keeps_every_delta_witness :
  nonblank (chatInput Samples.chat) = true
  /\ Forall whole_lines Samples.aligned_reads
  /\ sendMessage "http://api" "gpu-1" Samples.chat
                 (Samples.answers Samples.aligned_reads)
     = ([chat_request "http://api" "gpu-1" Samples.chat],
        Normal (chat_answered Samples.chat "Hi there")).
Proof.
  assert (H : nonblank (chatInput Samples.chat) = true) by reflexivity.
  assert (Hw : Forall whole_lines Samples.aligned_reads).
  { repeat constructor.
    - exists (Samples.hi_line ++ Samples.nl)%string. reflexivity.
    - exists (Samples.there_line ++ Samples.nl ++ Samples.nl
              ++ Samples.done_line ++ Samples.nl)%string. reflexivity. }
  split; [exact H|]. split; [exact Hw|].
  apply (sendMessage_keeps_every_delta
           "http://api" "gpu-1" Samples.chat
           {| ok := true; status := 200;
              reads := Samples.aligned_reads; ending := Done |}
           ["Hi"; " there"; ""] H eq_refl eq_refl Hw).
  change (data_lines (String.concat "" Samples.aligned_reads))
    with [Samples.hi_line; Samples.there_line; Samples.done_line].
  repeat constructor.
  - eapply (carries_text Samples.hi_payload); reflexivity.
  - eapply (carries_text Samples.there_payload); reflexivity.
Defined.

End ChatClaims.


Module DashboardFacts.
Import Dashboard.





(** *** Timers *)

Lemma lookup_clear_if_set (id : option nat) (w : World) (k : nat)
      (tm : timer) :
  timers (clear_if_set id w) !! k = Some tm ->
  timers w !! k = Some tm /\ (id = Some k -> k = 0%nat).
Proof.
  destruct id as [[|n]|]; cbn.
  - intros H. split; [exact H|]. now intros [= <-].
  - rewrite lookup_delete_Some. intros [Hne H]. split; [exact H|].
    intros [= E]. congruence.
  - intros H. split; [exact H|]. discriminate.
Qed.

Lemma clear_if_set_data (id : option nat) (w : World) :
  data (clear_if_set id w) = data w.
Proof. now destruct id as [[|n]|]. Qed.

Lemma clear_if_set_next (id : option nat) (w : World) :
  next_id (clear_if_set id w) = next_id w.
Proof. now destruct id as [[|n]|]. Qed.

(** Clearing the two ids the component holds stops every timer. *)
Lemma cleared_world (w : World) :
  timers_owned w ->
  clear_if_set (tickIntervalId (data (clear_if_set (intervalId (data w)) w)))
               (clear_if_set (intervalId (data w)) w)
  = {| data := data w; timers := ∅; next_id := next_id w |}.
Proof.
  intros [_ Hown].
  set (w1 := clear_if_set (intervalId (data w)) w).
  set (w2 := clear_if_set (tickIntervalId (data w1)) w1).
  assert (Hd : data w2 = data w).
  { unfold w2. rewrite clear_if_set_data. apply clear_if_set_data. }
  assert (Hn : next_id w2 = next_id w).
  { unfold w2. rewrite clear_if_set_next. apply clear_if_set_next. }
  assert (Ht : timers w2 = ∅).
  { apply map_empty. intros k.
    destruct (timers w2 !! k) as [tm|] eqn:E; [exfalso|reflexivity].
    apply lookup_clear_if_set in E as [E Htick].
    apply lookup_clear_if_set in E as [E Hint].
    unfold w1 in Htick. rewrite clear_if_set_data in Htick.
    destruct (Hown k tm E) as [[Hpos _] [H|H]].
    - apply Hint in H. lia.
    - apply Htick in H. lia. }
  destruct w2 as [d t n]. cbn in Hd, Hn, Ht. now subst.
Qed.

Lemma startRefresh_adaptive (w : World) :
  timers_owned w ->
  refreshInterval (data w) = 1000%Z ->
  startRefresh w
  = ({| data := set_intervalId (Some (S (next_id w)))
                  (set_tickIntervalId (Some (next_id w))
                     (set_loading true (data w)));
        timers := <[S (next_id w) := fetch_timer 2000]>
                    {[ next_id w := tick_timer ]};
        next_id := S (S (next_id w)) |},
     [snapshot_request]).
Proof.
  intros Hown Hms. unfold startRefresh.
  rewrite (cleared_world w Hown).
  cbn [fetchEndpoints_begin data with_data set_loading refreshInterval].
  rewrite Hms. cbn [Z.eqb Pos.eqb setInterval with_data data timers next_id].
  reflexivity.
Qed.

Lemma startRefresh_fixed (w : World) :
  timers_owned w ->
  refreshInterval (data w) <> 1000%Z ->
  startRefresh w
  = ({| data := set_intervalId (Some (next_id w))
                  (set_loading true (data w));
        timers := {[ next_id w := fetch_timer (refreshInterval (data w)) ]};
        next_id := S (next_id w) |},
     [snapshot_request]).
Proof.
  intros Hown Hms. unfold startRefresh.
  rewrite (cleared_world w Hown).
  cbn [fetchEndpoints_begin data with_data set_loading refreshInterval].
  destruct (Z.eqb_spec (refreshInterval (data w)) 1000); [contradiction|].
  reflexivity.
Qed.

Lemma timers_owned_with_data (d : RefreshData) (w : World) :
  intervalId d = intervalId (data w) ->
  tickIntervalId d = tickIntervalId (data w) ->
  timers_owned w -> timers_owned (with_data d w).
Proof.
  intros Hi Ht [Hn Hown]. split; [exact Hn|].
  intros id tm H. cbn in *. rewrite Hi, Ht. exact (Hown id tm H).
Qed.

Lemma timers_owned_startRefresh (w : World) :
  timers_owned w -> timers_owned (fst (startRefresh w)).
Proof.
  intros Hown.
  destruct (Z.eq_dec (refreshInterval (data w)) 1000%Z) as [E|E].
  - rewrite (startRefresh_adaptive w Hown E). split; cbn; [lia|].
    intros id tm H.
    apply lookup_insert_Some in H as [[<- _]|[Hne H]].
    + split; [lia|]. now left.
    + apply lookup_singleton_Some in H as [<- _].
      split; [destruct Hown; lia|]. now right.
  - rewrite (startRefresh_fixed w Hown E). split; cbn; [lia|].
    intros id tm H.
    apply lookup_singleton_Some in H as [<- _].
    split; [destruct Hown; lia|]. now left.
Qed.

(** The premise of the refresh claim holds when the page is loaded and
    after every event. *)
Lemma timers_owned_page_loaded : timers_owned page_loaded.
Proof. split; cbn; [lia|]. intros id tm H. now rewrite lookup_empty in H. Qed.

Lemma timers_owned_step (w : World) (ev : event) :
  timers_owned w -> timers_owned (fst (step w ev)).
Proof.
  intros Hown. destruct ev as [|ms|id|res|res|]; cbn [step].
  - cbn [fetchEndpoints_begin].
    rewrite (surjective_pairing (startRefresh _)). cbn [fst].
    apply timers_owned_startRefresh.
    now apply timers_owned_with_data.
  - unfold updateRefreshInterval.
    apply timers_owned_startRefresh.
    now apply timers_owned_with_data.
  - destruct (timers w !! id) as [tm|]; [|exact Hown].
    destruct (callback tm); cbn; now apply timers_owned_with_data.
  - cbn [fst]. apply timers_owned_with_data; [| |exact Hown];
      now destruct res.
  - cbn [fst]. apply timers_owned_with_data; [| |exact Hown];
      unfold fetchEndpoints_settled;
      destruct res as [body|]; try reflexivity;
      now destruct (get body "endpoints").
  - cbn [fst].
    pose proof (cleared_world w Hown) as Hc.
    rewrite clear_if_set_data in Hc. rewrite Hc.
    split; cbn; [now destruct Hown|].
    intros id tm H. now rewrite lookup_empty in H.
Qed.

(** Only the answer to a snapshot fetch changes [endpoints]. *)
Lemma endpoints_step (w : World) (ev : event) :
  endpoints (data (fst (step w ev))) <> endpoints (data w) ->
  exists body : value, ev = FetchSettled (Fulfilled body).
Proof.
  destruct ev as [|ms|id|res|res|]; cbn [step].
  - cbn [fetchEndpoints_begin]. unfold startRefresh.
    rewrite !clear_if_set_data.
    cbn [fetchEndpoints_begin with_data data refreshInterval set_loading].
    destruct (_ =? _)%Z; cbn; congruence.
  - unfold updateRefreshInterval, startRefresh.
    rewrite !clear_if_set_data.
    cbn [fetchEndpoints_begin with_data data refreshInterval set_loading
         set_refreshInterval].
    destruct (_ =? _)%Z; cbn; congruence.
  - destruct (timers w !! id) as [tm|]; [|cbn; congruence].
    destruct (callback tm); cbn; congruence.
  - destruct res; cbn; congruence.
  - destruct res as [body|e]; [now exists body|cbn; congruence].
  - cbn [fst]. rewrite !clear_if_set_data. congruence.
Qed.

(** A timer of period [p] calls back [window / p] times in [window]
    ms. *)
Lemma calls_within_period (tm : timer) (window : nat) :
  (0 < period tm)%Z ->
  calls_within tm window = Z.to_nat (Z.of_nat window / period tm).
Proof.
  intros Hp. unfold calls_within.
  induction window as [|n IH]; [reflexivity|].
  rewrite seq_S, List.filter_app, length_app, IH.
  cbn [List.filter Nat.add]. unfold due.
  assert (Hpos : (0 <? Z.of_nat (S n))%Z = true) by (apply Z.ltb_lt; lia).
  rewrite Hpos. cbn [andb].
  set (p := period tm) in *.
  pose proof (Z.div_mod (Z.of_nat (S n)) p ltac:(lia)) as Hdm.
  pose proof (Z.mod_pos_bound (Z.of_nat (S n)) p Hp) as Hb.
  pose proof (Z.div_pos (Z.of_nat n) p ltac:(lia) Hp) as Hq.
  destruct (Z.eqb_spec (Z.of_nat (S n) mod p) 0) as [E|E]; cbn [length].
  - assert (Hdiv : (Z.of_nat n / p = Z.of_nat (S n) / p - 1)%Z).
    { symmetry. apply (Z.div_unique _ _ _ (p - 1)%Z); nia. }
    rewrite Hdiv in *. lia.
  - assert (Hdiv : (Z.of_nat n / p = Z.of_nat (S n) / p)%Z).
    { symmetry.
      apply (Z.div_unique _ _ _ (Z.of_nat (S n) mod p - 1)%Z); nia. }
    rewrite Hdiv. lia.
Qed.

Lemma step_tick_settled (w : World) (res : axios_result) :
  step w (TickSettled res) = (w, []).
Proof. destruct w, res; reflexivity. Qed.

Lemma step_timer_fires (w : World) (id : nat) (tm : timer) :
  timers w !! id = Some tm ->
  snd (step w (TimerFires id)) = [request_of (callback tm)]
  /\ endpoints (data (fst (step w (TimerFires id)))) = endpoints (data w).
Proof.
  intros H. cbn [step]. rewrite H. now destruct (callback tm).
Qed.

End DashboardFacts.

Module DashboardClaims.
Import Dashboard DashboardFacts.




End DashboardClaims.

Module RefreshClaims.
Import Dashboard DashboardFacts.

(** C8.  In a page whose running timers are the ones the component
    holds, [startRefresh] fetches the snapshot once and then: with the
    interval at 1000 ms it leaves exactly two timers, one that calls
    [sendTick] every 1000 ms and one that calls [fetchEndpoints] every
    2000 ms; with any other interval it leaves exactly one timer, which
    calls [fetchEndpoints] at that interval, and none that ticks.  A
    timer that is called sends the one request of its callback, a tick
    or a snapshot fetch, and in [window] ms it is called
    [window / period] times.  The answer to a tick, success or failure,
    changes nothing in the page, and no event but the fulfilled answer
    to a snapshot fetch changes [endpoints]. *)
Theorem refresh_keeps_ticks_and_reads_apart :
  forall w : World,
    timers_owned w ->
    (refreshInterval (data w) = 1000%Z ->
     exists t f : nat,
       t <> f
       /\ timers (fst (startRefresh w))
          = <[f := fetch_timer 2000]> {[ t := tick_timer ]}
       /\ snd (startRefresh w) = [snapshot_request])
    /\ (refreshInterval (data w) <> 1000%Z ->
        exists f : nat,
          timers (fst (startRefresh w))
          = {[ f := fetch_timer (refreshInterval (data w)) ]}
          /\ snd (startRefresh w) = [snapshot_request]
          /\ forall (id : nat) (tm : timer),
               timers (fst (startRefresh w)) !! id = Some tm ->
               callback tm = FetchEndpoints)
    /\ (forall (w0 : World) (id : nat) (tm : timer),
          timers w0 !! id = Some tm ->
          snd (step w0 (TimerFires id)) = [request_of (callback tm)]
          /\ endpoints (data (fst (step w0 (TimerFires id))))
             = endpoints (data w0))
    /\ (forall (tm : timer) (window : nat),
          (0 < period tm)%Z ->
          calls_within tm window
          = Z.to_nat (Z.of_nat window / period tm))
    /\ (forall (w0 : World) (res : axios_result),
          step w0 (TickSettled res) = (w0, []))
    /\ (forall (w0 : World) (ev : event),
          endpoints (data (fst (step w0 ev))) <> endpoints (data w0) ->
          exists body : value, ev = FetchSettled (Fulfilled body)).
Proof.
  intros w Hown.
  split; [|split; [|split; [|split; [|split]]]].
  - intros Hms. exists (next_id w), (S (next_id w)).
    rewrite (startRefresh_adaptive w Hown Hms). repeat split. lia.
  - intros Hms. exists (next_id w).
    rewrite (startRefresh_fixed w Hown Hms). repeat split.
    intros id tm H. cbn in H.
    now apply lookup_singleton_Some in H as [_ <-].
  - exact step_timer_fires.
  - exact calls_within_period.
  - exact step_tick_settled.
  - exact endpoints_step.
Qed.

(** C8 at the page as loaded: the two timers of the adaptive mode. *)
Lemma refresh_keeps_ticks_and_reads_apart_witness :
  timers_owned page_loaded
  /\ exists t f : nat,
       t <> f
       /\ timers (fst (startRefresh page_loaded))
          = <[f := fetch_timer 2000]> {[ t := tick_timer ]}
       /\ snd (startRefresh page_loaded) = [snapshot_request].
Proof.
  split; [exact timers_owned_page_loaded|].
  exact (proj1 (refresh_keeps_ticks_and_reads_apart
                  page_loaded timers_owned_page_loaded) eq_refl).
Defined.

End RefreshClaims.


Module CellsFacts.
Import Cells.

Local Open Scope Q_scope.

Lemma size_or_0_sizeVram (model : Model) : size_or_0 model == sizeVram model.
Proof.
  unfold size_or_0, sizeVram. destruct (size_vram model) as [q|]; [|reflexivity].
  destruct (Qeq_bool q 0) eqn:E; [|reflexivity].
  apply Qeq_bool_iff in E. now rewrite E.
Qed.

Lemma fold_totalVram (models : list Model) :
  forall acc : Q,
    fold_left (fun acc model => acc + size_or_0 model) models acc
    == acc + sum_sizeVram models.
Proof.
  induction models as [|m models IH]; intros acc; cbn [fold_left sum_sizeVram].
  - now rewrite Qplus_0_r.
  - rewrite IH, size_or_0_sizeVram. now rewrite Qplus_assoc.
Qed.

(** The [reduce] computes the sum of the sizes, an unknown size counting
    as 0. *)
Lemma totalVram_sum (models : list Model) :
  totalVram models == sum_sizeVram models.
Proof. unfold totalVram. rewrite fold_totalVram. apply Qplus_0_l. Qed.

Lemma calculateVramUsage_sum (models : list Model) :
  calculateVramUsage (Some models)
  == (sum_sizeVram models / sixteen_GiB) * 100.
Proof.
  destruct models as [|m models]; [reflexivity|].
  unfold calculateVramUsage. now rewrite totalVram_sum.
Qed.

(** For whole byte counts that add up to less than 2^48 the percentage
    is a multiple of 2^-32 with a numerator below 2^53: a number that
    binary64 holds exactly, as it does the sum and the quotient. *)
Lemma usage_of_byte_counts (models : list Model) (total : Z) :
  sum_sizeVram models == inject_Z total ->
  (0 <= total < 2 ^ 48)%Z ->
  calculateVramUsage (Some models)
  == inject_Z (25 * total) / inject_Z (2 ^ 32)
  /\ (25 * total < 2 ^ 53)%Z.
Proof.
  intros Hsum Hb. split; [|lia].
  rewrite calculateVramUsage_sum, Hsum, inject_Z_mult.
  unfold sixteen_GiB. change (inject_Z (2 ^ 32)) with 4294967296.
  change (inject_Z 25) with 25. field.
Qed.







(** What the [reduce] of [formatTimeRemaining] holds at its end: nothing
    when it started with nothing and no model has an expiry, and else
    the latest of what it started with and the expiries. *)
Lemma latest_fold (models : list Model) :
  forall acc : option Z,
    match fold_left later models acc with
    | None => acc = None /\ Forall no_expiry models
    | Some t =>
        (acc = Some t \/ exists m, In m models /\ expires_at m = Some t)
        /\ (forall a, acc = Some a -> (a <= t)%Z)
        /\ (forall m t', In m models -> expires_at m = Some t' -> (t' <= t)%Z)
    end.
Proof.
  induction models as [|m models IH]; intros acc; cbn [fold_left].
  - destruct acc as [t|].
    + split; [now left|]. split; [intros a [= ->]; lia|intros ? ? []].
    + split; [reflexivity|constructor].
  - specialize (IH (later acc m)).
    destruct (fold_left later models (later acc m)) as [t|].
    + destruct IH as (Hfrom & Hacc & Hall).
      unfold later in Hfrom, Hacc.
      destruct (expires_at m) as [e|] eqn:Em.
      * split; [|split].
        -- destruct Hfrom as [Hfrom|(m' & Hin & Hm')];
             [|right; exists m'; split; [now right|exact Hm']].
           destruct acc as [l|].
           ++ destruct (l <? e)%Z; injection Hfrom as <-.
              ** right. exists m. split; [now left|exact Em].
              ** now left.
           ++ injection Hfrom as <-.
              right. exists m. split; [now left|exact Em].
        -- intros a ->. specialize (Hacc _ eq_refl).
           destruct (Z.ltb_spec a e); lia.
        -- intros m' t' [<-|Hin] Hm'.
           ++ rewrite Em in Hm'. injection Hm' as <-.
              destruct acc as [l|]; specialize (Hacc _ eq_refl);
                [destruct (Z.ltb_spec l e); lia|lia].
           ++ exact (Hall m' t' Hin Hm').
      * split; [|split].
        -- destruct Hfrom as [Hfrom|(m' & Hin & Hm')]; [now left|].
           right. exists m'. split; [now right|exact Hm'].
        -- exact Hacc.
        -- intros m' t' [<-|Hin] Hm'; [congruence|].
           exact (Hall m' t' Hin Hm').
    + destruct IH as [Hnone Hall]. unfold later in Hnone.
      destruct (expires_at m) as [e|] eqn:Em.
      * destruct acc; discriminate.
      * split; [exact Hnone|]. constructor; assumption.
Qed.

End CellsFacts.

Module CellsClaims.
Import Cells CellsFacts.

Local Open Scope Q_scope.



End CellsClaims.

Module ExpiryClaims.
Import Cells CellsFacts.

(** C10.  With a [formatDistanceToNow] that never prints ['N/A'],
    [formatTimeRemaining] is ['N/A'] exactly when the list is [null] or
    empty or none of its models has an [expires_at]; in every other case
    it is the rendering of the latest [expires_at] among the models that
    have one, so no earlier expiry decides what is shown. *)
Theorem formatTimeRemaining_latest :
  forall (formatDistanceToNow : Z -> string) (models : option (list Model)),
    (forall t : Z, formatDistanceToNow t <> "N/A") ->
    (formatTimeRemaining formatDistanceToNow models = "N/A"
     <-> match models with
         | None => True
         | Some ms => Forall no_expiry ms
         end)
    /\ (forall ms : list Model,
          models = Some ms ->
          ~ Forall no_expiry ms ->
          exists t : Z,
            formatTimeRemaining formatDistanceToNow models
            = formatDistanceToNow t
            /\ (exists m, In m ms /\ expires_at m = Some t)
            /\ (forall m t',
                  In m ms -> expires_at m = Some t' -> (t' <= t)%Z)).
Proof.
  intros fmt models Hfmt.
  assert (Hrun : forall ms,
             formatTimeRemaining fmt (Some ms)
             = match latestExpiry ms with
               | None => "N/A"
               | Some t => fmt t
               end).
  { intros [|m ms]; reflexivity. }
  split.
  - destruct models as [ms|]; [|cbn; tauto].
    rewrite Hrun. unfold latestExpiry.
    pose proof (latest_fold ms None) as H.
    destruct (fold_left later ms None) as [t|].
    + destruct H as ([Hnone|(m & Hin & Hm)] & _); [discriminate|].
      split; [intros E; now apply Hfmt in E|].
      intros Hall. rewrite List.Forall_forall in Hall.
      specialize (Hall m Hin). unfold no_expiry in Hall. congruence.
    + tauto.
  - intros ms -> Hsome. rewrite Hrun. unfold latestExpiry.
    pose proof (latest_fold ms None) as H.
    destruct (fold_left later ms None) as [t|]; [|tauto].
    destruct H as ([Hnone|Hfrom] & _ & Hmax); [discriminate|].
    exists t. split; [reflexivity|]. split; [exact Hfrom|exact Hmax].
Qed.

(** C10 at the sample models, with the stand-in rendering. *)
Lemma formatTimeRemaining_latest_witness :
  (forall t : Z, Samples.at_ms t <> "N/A")
  /\ exists t : Z,
       formatTimeRemaining Samples.at_ms (Some Samples.loaded)
       = Samples.at_ms t
       /\ (exists m, In m Samples.loaded /\ expires_at m = Some t)
       /\ (forall m t',
             In m Samples.loaded -> expires_at m = Some t' -> (t' <= t)%Z).
Proof.
  assert (H : forall t : Z, Samples.at_ms t <> "N/A").
  { intros t E. unfold Samples.at_ms in E.
    rewrite !TextFacts.append_cons in E. discriminate E. }
  split; [exact H|].
  apply (proj2 (formatTimeRemaining_latest
                  Samples.at_ms (Some Samples.loaded) H)
               Samples.loaded eq_refl).
  intros Hall. inversion Hall as [|m ms Hm _]. discriminate Hm.
Defined.

End ExpiryClaims.


Module ModelListFacts.
Import ModelList.




End ModelListFacts.

Module ModelListClaims.
Import ModelList ModelListFacts.



End ModelListClaims.

Module LitellmFacts.
Import Litellm AliasBridge.







End LitellmFacts.

Module LitellmClaims.
Import Litellm AliasBridge LitellmFacts.



End LitellmClaims.

(* ===================================================================== *)
(** * Properties of the search box, the selection, the dialogs and the
      streams *)
(* ===================================================================== *)

Module SearchFacts.
Import Text TextFacts Dashboard Search.

Lemma includes_unfold (s q : string) :
  includes s q =
    if String.prefix q s then true
    else match s with
         | EmptyString => false
         | String _ r => includes r q
         end.
Proof. now destruct s. Qed.

Lemma prefix_split (q s : string) :
  String.prefix q s = true -> exists b : string, s = (q ++ b)%string.
Proof.
  revert s. induction q as [|c q IH]; intros s H.
  - exists s. reflexivity.
  - destruct s as [|d s]; [discriminate H|].
    cbn [String.prefix] in H.
    destruct (ascii_dec c d) as [<-|]; [|discriminate H].
    destruct (IH s H) as [b ->]. exists b. reflexivity.
Qed.

(** [includes] is the test for an occurrence. *)
Lemma includes_occurs (s q : string) :
  includes s q = true <-> occurs q s.
Proof.
  split.
  - induction s as [|c s IH]; rewrite includes_unfold.
    + destruct (String.prefix q "") eqn:E; [|discriminate].
      intros _. destruct (prefix_split _ _ E) as [b Hb].
      exists "", b. exact Hb.
    + destruct (String.prefix q (String c s)) eqn:E.
      * intros _. destruct (prefix_split _ _ E) as [b Hb].
        exists "", b. exact Hb.
      * intros H. destruct (IH H) as (a & b & ->).
        exists (String c a), b. reflexivity.
  - intros (a & b & ->). induction a as [|c a IH].
    + rewrite append_nil_l, includes_unfold. now rewrite prefix_app.
    + rewrite append_cons, includes_unfold.
      destruct (String.prefix q _); [reflexivity|exact IH].
Qed.



Lemma name_matches_true (q : string) (model : value) :
  name_matches q model = Shows true <->
  exists n n', get model "name" = Some (VStr n)
               /\ toLowerCase n = Some n' /\ occurs q n'.
Proof.
  unfold name_matches. split.
  - destruct (get model "name") as [[| | | |n| |]|]; try discriminate.
    destruct (toLowerCase n) as [n'|] eqn:El; [|discriminate].
    intros [= H]. exists n, n'. apply includes_occurs in H. now repeat split.
  - intros (n & n' & -> & -> & H). apply includes_occurs in H.
    now rewrite H.
Qed.

(** [some] answers [true] exactly when a model matches, provided it
    answers. *)
Lemma some_true (q : string) (models : list value) (b : bool) :
  some q models = Shows b ->
  (b = true <-> exists model, In model models
                              /\ name_matches q model = Shows true).
Proof.
  revert b. induction models as [|m ms IH]; intros b; cbn [some].
  - intros [= <-]. split; [discriminate|]. intros (? & [] & _).
  - destruct (name_matches q m) as [[|]| |] eqn:E; try discriminate.
    + intros [= <-]. split; [|reflexivity].
      intros _. exists m. split; [now left|exact E].
    + intros H. rewrite (IH b H). split.
      * intros (m' & Hin & Hm'). exists m'. split; [now right|exact Hm'].
      * intros (m' & [<-|Hin] & Hm'); [congruence|].
        exists m'. now split.
Qed.

(** The callback of the filter keeps exactly the hits, provided it
    answers. *)
Lemma matches_hit (q label : string) (plugin : value) (b : bool) :
  matches q label plugin = Shows b ->
  (b = true <-> hit q (label, plugin)).
Proof.
  unfold matches, hit. cbn [fst snd].
  destruct (toLowerCase label) as [l|]; [|discriminate].
  destruct (get plugin "models") as [models|]; [|discriminate].
  assert (Hlabel : includes l q = true
                   <-> exists l0, Some l = Some l0 /\ occurs q l0).
  { rewrite includes_occurs. split.
    - intros H. now exists l.
    - now intros (l0 & [= <-] & H). }
  destruct models as [| | | | |ms|]; try discriminate.
  - intros [= <-]. rewrite Hlabel. split; [now left|].
    intros [H|(ms & ? & ? & ? & [=] & _)]. exact H.
  - intros [= <-]. rewrite Hlabel. split; [now left|].
    intros [H|(ms & ? & ? & ? & [=] & _)]. exact H.
  - destruct (some q ms) as [mm| |] eqn:Es; try discriminate.
    intros [= <-]. rewrite orb_true_iff, Hlabel, (some_true q ms mm Es).
    split.
    + intros [H|(m & Hin & Hm)]; [now left|right].
      apply name_matches_true in Hm as (n & n' & Hn & Hl & Ho).
      now exists ms, m, n, n'.
    + intros [H|(ms' & m & n & n' & [= <-] & Hin & Hn & Hl & Ho)];
        [now left|right].
      exists m. split; [exact Hin|].
      apply name_matches_true. now exists n, n'.
Qed.

Lemma filter_entries_filter (q : string) (es kept : list (string * value)) :
  filter_entries q es = Shows kept ->
  kept = List.filter (kept_by q) es
  /\ forall e, In e es -> (kept_by q e = true <-> hit q e).
Proof.
  revert kept. induction es as [|[label plugin] es IH]; intros kept;
    cbn [filter_entries].
  - intros [= <-]. split; [reflexivity|intros ? []].
  - destruct (matches q label plugin) as [keep| |] eqn:Em; try discriminate.
    destruct (filter_entries q es) as [kept0| |]; try discriminate.
    intros [= <-]. destruct (IH kept0 eq_refl) as [-> Hall].
    assert (Hk : kept_by q (label, plugin) = keep).
    { unfold kept_by. cbn [fst snd]. rewrite Em. now destruct keep. }
    split.
    + cbn [List.filter]. rewrite Hk. now destruct keep.
    + intros e [<-|Hin]; [|now apply Hall].
      rewrite <- (matches_hit q label plugin keep Em), Hk. tauto.
Qed.

Lemma filteredEndpoints_query (s : RefreshData) (q : string)
      (fs : list (string * value)) :
  endpoints s = VObj fs ->
  searchQuery s <> "" ->
  toLowerCase (searchQuery s) = Some q ->
  filteredEndpoints s
  = match filter_entries q (enumerate fs) with
    | Shows kept => Shows (VObj kept)
    | RenderFails => RenderFails
    | NotModelled => NotModelled
    end.
Proof.
  intros He Hq Hl. unfold filteredEndpoints. rewrite He, Hl.
  cbn [truthy negb orb entries].
  now destruct (String.eqb_spec (searchQuery s) "").
Qed.

End SearchFacts.

Module SearchProps.
Import Text TextFacts Dashboard Search SearchFacts.




(** X1.  With a text in the search box and the hosts an object, the
    computed [filteredEndpoints], when it yields a value, yields the
    object of exactly the hosts that are hits: those whose label, or the
    name of one of whose models, holds the query, letter case aside.
    The hosts kept come in the order of the enumeration, each with its
    own record, and they are what the table shows. *)
Theorem filteredEndpoints_finds_the_hits :
  forall (s : RefreshData) (fs : list (string * value)) (q : string)
         (shown : value),
    endpoints s = VObj fs ->
    searchQuery s <> "" ->
    toLowerCase (searchQuery s) = Some q ->
    filteredEndpoints s = Shows shown ->
    exists keep : string * value -> bool,
      shown = VObj (List.filter keep (enumerate fs))
      /\ (forall e, In e (enumerate fs) -> (keep e = true <-> hit q e))
      /\ render s = render_table shown.
Proof.
  intros s fs q shown He Hq Hl Hshown.
  pose proof Hshown as Hrun.
  rewrite (filteredEndpoints_query s q fs He Hq Hl) in Hrun.
  destruct (filter_entries q (enumerate fs)) as [kept| |] eqn:Ef;
    try discriminate.
  injection Hrun as <-.
  destruct (filter_entries_filter q _ _ Ef) as [-> Hall].
  exists (kept_by q). split; [reflexivity|]. split; [exact Hall|].
  unfold render. now rewrite Hshown.
Qed.

(** X1 at the two sample hosts, with [GEM] in the search box: the host
    that runs Gemma is shown, the other is not. *)
Lemma filteredEndpoints_finds_the_hits_witness :
  endpoints (Cases.searching "GEM") = VObj Cases.two_hosts
  /\ searchQuery (Cases.searching "GEM") <> ""
  /\ toLowerCase (searchQuery (Cases.searching "GEM")) = Some "gem"
  /\ filteredEndpoints (Cases.searching "GEM")
     = Shows (VObj [Cases.gpu1_entry])
  /\ exists keep : string * value -> bool,
       VObj [Cases.gpu1_entry]
       = VObj (List.filter keep (enumerate Cases.two_hosts))
       /\ (forall e, In e (enumerate Cases.two_hosts) ->
                     (keep e = true <-> hit "gem" e))
       /\ render (Cases.searching "GEM")
          = render_table (VObj [Cases.gpu1_entry]).
Proof.
  assert (H1 : endpoints (Cases.searching "GEM") = VObj Cases.two_hosts)
    by reflexivity.
  assert (H2 : searchQuery (Cases.searching "GEM") <> "")
    by (cbn; discriminate).
  assert (H3 : toLowerCase (searchQuery (Cases.searching "GEM")) = Some "gem")
    by reflexivity.
  assert (H4 : filteredEndpoints (Cases.searching "GEM")
               = Shows (VObj [Cases.gpu1_entry])) by reflexivity.
  split; [exact H1|]. split; [exact H2|]. split; [exact H3|].
  split; [exact H4|].
  exact (filteredEndpoints_finds_the_hits
           (Cases.searching "GEM") Cases.two_hosts "gem"
           (VObj [Cases.gpu1_entry]) H1 H2 H3 H4).
Defined.



End SearchProps.

Module TableFacts.
Import Dashboard DashboardFacts Selection.

Lemma insert_index_perm (n : N) (e : string * value)
      (l : list (N * (string * value))) :
  Permutation (map snd (insert_index n e l)) (e :: map snd l).
Proof.
  induction l as [|[m e'] l IH]; cbn [insert_index map snd].
  - reflexivity.
  - destruct (n <? m)%N; cbn [map snd]; [reflexivity|].
    rewrite IH. apply perm_swap.
Qed.

Lemma fold_insert_perm (l : list (string * value)) :
  forall acc : list (N * (string * value)),
    Permutation
      (map snd (fold_left (fun acc e => match array_index (fst e) with
                                        | Some n => insert_index n e acc
                                        | None => acc
                                        end) l acc))
      (map snd acc ++ List.filter is_index l).
Proof.
  induction l as [|e l IH]; intros acc; cbn [fold_left List.filter].
  - now rewrite app_nil_r.
  - rewrite IH. unfold is_index at 2.
    destruct (array_index (fst e)) as [n|]; [|reflexivity].
    rewrite insert_index_perm. cbn [app].
    apply Permutation_middle.
Qed.

Lemma filter_parts_perm {A : Type} (p q : A -> bool) (l : list A) :
  (forall x, q x = negb (p x)) ->
  Permutation (List.filter p l ++ List.filter q l) l.
Proof.
  intros Hq. induction l as [|x l IH]; [reflexivity|].
  cbn [List.filter]. rewrite Hq. destruct (p x); cbn [negb app].
  - now rewrite IH.
  - rewrite <- Permutation_middle. now rewrite IH.
Qed.

(** Enumerating an object visits every field once. *)
Lemma enumerate_perm (fs : list (string * value)) :
  Permutation (enumerate fs) fs.
Proof.
  unfold enumerate. rewrite fold_insert_perm. cbn [map app].
  apply filter_parts_perm. intros x. unfold is_index.
  now destruct (array_index (fst x)).
Qed.



End TableFacts.

Module TableProps.
Import Dashboard DashboardFacts TableFacts.



End TableProps.

Module SelectionFacts.
Import Dashboard Selection.

Lemma checked_In (label : string) (sel : list string) :
  checked label sel = true <-> In label sel.
Proof.
  unfold checked. rewrite existsb_exists. split.
  - intros (x & Hin & E). apply String.eqb_eq in E. now subst.
  - intros H. exists label. split; [exact H|apply String.eqb_refl].
Qed.

Lemma checked_false (label : string) (sel : list string) :
  checked label sel = false <-> ~ In label sel.
Proof.
  rewrite <- checked_In. now destruct (checked label sel).
Qed.

(** The toggle, entry by entry: it takes out the first entry that is
    the label, and adds the label at the end when there is none. *)
Lemma toggle_cons (label x : string) (sel : list string) :
  toggleHostSelection label (x :: sel)
  = if String.eqb x label then sel
    else x :: toggleHostSelection label sel.
Proof.
  unfold toggleHostSelection. cbn [indexOf].
  destruct (String.eqb x label); [reflexivity|].
  now destruct (indexOf label sel).
Qed.

Lemma toggle_nil (label : string) : toggleHostSelection label [] = [label].
Proof. reflexivity. Qed.

Lemma toggle_In_other (label other : string) (sel : list string) :
  other <> label ->
  (In other (toggleHostSelection label sel) <-> In other sel).
Proof.
  intros Hne. induction sel as [|x sel IH].
  - rewrite toggle_nil. cbn. intuition congruence.
  - rewrite toggle_cons. destruct (String.eqb_spec x label) as [->|_].
    + cbn. intuition congruence.
    + cbn [In]. now rewrite IH.
Qed.

Lemma toggle_In_label (label : string) (sel : list string) :
  List.NoDup sel ->
  (In label (toggleHostSelection label sel) <-> ~ In label sel).
Proof.
  induction 1 as [|x sel Hx Hnd IH].
  - rewrite toggle_nil. cbn. tauto.
  - rewrite toggle_cons. destruct (String.eqb_spec x label) as [->|Hne].
    + cbn. tauto.
    + cbn [In]. rewrite IH. intuition congruence.
Qed.

Lemma toggle_NoDup (label : string) (sel : list string) :
  List.NoDup sel -> List.NoDup (toggleHostSelection label sel).
Proof.
  induction 1 as [|x sel Hx Hnd IH].
  - rewrite toggle_nil. repeat constructor. intros [].
  - rewrite toggle_cons. destruct (String.eqb_spec x label) as [->|Hne].
    + exact Hnd.
    + constructor; [|exact IH].
      now rewrite (toggle_In_other label x sel Hne).
Qed.

Lemma toggle_length (label : string) (sel : list string) :
  length (toggleHostSelection label sel)
  = if checked label sel then pred (length sel) else S (length sel).
Proof.
  induction sel as [|x sel IH]; [reflexivity|].
  rewrite toggle_cons. unfold checked in *. cbn [existsb].
  rewrite (String.eqb_sym label x).
  destruct (String.eqb x label); cbn [orb length]; [reflexivity|].
  rewrite IH. destruct (existsb (String.eqb label) sel) eqn:E; [|reflexivity].
  destruct sel; [discriminate E|reflexivity].
Qed.

Lemma bool_eq_iff (a b : bool) : (a = true <-> b = true) -> a = b.
Proof. destruct a, b; intuition congruence. Qed.

(** The keys of an object are the keys of its fields, each once. *)
Lemma keys_object (fs : list (string * value)) :
  List.NoDup (map fst fs) ->
  exists ks : list string,
    keys (VObj fs) = Some ks
    /\ List.NoDup ks
    /\ forall l, In l ks <-> In l (map fst fs).
Proof.
  intros Hnd. exists (map fst (enumerate fs)).
  pose proof (Permutation_map fst (TableFacts.enumerate_perm fs)) as Hp.
  split; [reflexivity|]. split.
  - apply (Permutation_NoDup (Permutation_sym Hp) Hnd).
  - intros l. split; apply Permutation_in; [exact Hp|].
    now apply Permutation_sym.
Qed.

End SelectionFacts.

Module SelectionProps.
Import Dashboard Selection SelectionFacts.

(** X4.  On a selection without repeats, [toggleHostSelection(label)]
    flips the checkbox of that host and of no other: the host is
    selected afterwards exactly when it was not before, every other
    host is selected exactly when it was, the number of selected hosts
    goes up or down by one, and the selection is again without
    repeats. *)
Theorem toggleHostSelection_flips_one_box :
  forall (label : string) (selectedHosts : list string),
    List.NoDup selectedHosts ->
    List.NoDup (toggleHostSelection label selectedHosts)
    /\ checked label (toggleHostSelection label selectedHosts)
       = negb (checked label selectedHosts)
    /\ (forall other : string,
          other <> label ->
          checked other (toggleHostSelection label selectedHosts)
          = checked other selectedHosts)
    /\ length (toggleHostSelection label selectedHosts)
       = if checked label selectedHosts
         then pred (length selectedHosts)
         else S (length selectedHosts).
Proof.
  intros label sel Hnd.
  split; [now apply toggle_NoDup|]. split; [|split].
  - apply bool_eq_iff.
    rewrite checked_In, negb_true_iff, checked_false.
    now apply toggle_In_label.
  - intros other Hne. apply bool_eq_iff. rewrite !checked_In.
    now apply toggle_In_other.
  - apply toggle_length.
Qed.

(** X4 at a selection of two hosts, the first of which is clicked. *)
Lemma toggleHostSelection_flips_one_box_witness :
  List.NoDup ["A"; "B"]
  /\ toggleHostSelection "A" ["A"; "B"] = ["B"]
  /\ checked "A" (toggleHostSelection "A" ["A"; "B"])
     = negb (checked "A" ["A"; "B"]).
Proof.
  assert (H : List.NoDup ["A"; "B"]).
  { repeat constructor; cbn; intuition discriminate. }
  split; [exact H|]. split; [reflexivity|].
  exact (proj1 (proj2 (toggleHostSelection_flips_one_box "A" ["A"; "B"] H))).
Defined.

(** X5.  After [toggleSelectAll] the header checkbox is never in
    between: the selection is empty, or [allSelected] holds.  When all
    hosts counted as selected the selection becomes empty; otherwise it
    becomes the keys of [endpoints], and nothing when [endpoints] is not
    there yet. *)
Theorem toggleSelectAll_all_or_none :
  forall (endpoints : value) (selectedHosts after : list string),
    toggleSelectAll endpoints selectedHosts = Some after ->
    someSelected endpoints after = Some false
    /\ (after = [] \/ allSelected endpoints after = Some true)
    /\ (allSelected endpoints selectedHosts = Some true -> after = [])
    /\ (allSelected endpoints selectedHosts = Some false ->
        if truthy endpoints then keys endpoints = Some after
        else after = []).
Proof.
  intros e sel after. unfold toggleSelectAll, someSelected.
  destruct (allSelected e sel) as [[|]|] eqn:Eall; try discriminate.
  - intros [= <-]. cbn. repeat split; auto; discriminate.
  - unfold allSelected in *.
    destruct (truthy e) eqn:Et; cbn [negb] in *.
    + intros Hk. rewrite Hk. rewrite Nat.eqb_refl, andb_true_r.
      destruct (0 <? length after)%nat eqn:El; cbn [negb].
      * repeat split; auto; discriminate.
      * repeat split; auto; try discriminate.
        left. destruct after; [reflexivity|discriminate El].
    + intros [= <-]. cbn. repeat split; auto; discriminate.
Qed.

(** X5 at the two sample hosts with one of them selected. *)
Lemma toggleSelectAll_all_or_none_witness :
  toggleSelectAll (VObj Cases.two_hosts) ["gpu-1"]
  = Some ["gpu-1"; "CPU-box"]
  /\ someSelected (VObj Cases.two_hosts) ["gpu-1"] = Some true
  /\ someSelected (VObj Cases.two_hosts) ["gpu-1"; "CPU-box"] = Some false.
Proof.
  assert (H : toggleSelectAll (VObj Cases.two_hosts) ["gpu-1"]
              = Some ["gpu-1"; "CPU-box"]) by reflexivity.
  split; [exact H|]. split; [reflexivity|].
  exact (proj1 (toggleSelectAll_all_or_none
                  (VObj Cases.two_hosts) ["gpu-1"] ["gpu-1"; "CPU-box"] H)).
Defined.

(** X6.  [allSelected] compares two lengths.  For an [endpoints] object
    and a selection without repeats that holds only hosts of the
    object, it is true exactly when there is a host and every host is
    selected. *)
Theorem allSelected_when_every_host_is :
  forall (fs : list (string * value)) (selectedHosts : list string),
    List.NoDup (map fst fs) ->
    List.NoDup selectedHosts ->
    (forall l, In l selectedHosts -> In l (map fst fs)) ->
    (allSelected (VObj fs) selectedHosts = Some true
     <-> fs <> [] /\ forall l, In l (map fst fs) -> In l selectedHosts).
Proof.
  intros fs sel Hfs Hsel Hincl.
  destruct (keys_object fs Hfs) as (ks & Hk & Hnd & Hks).
  unfold allSelected. cbn [truthy negb]. rewrite Hk.
  assert (Hlen : length ks = length fs).
  { injection Hk as <-. rewrite length_map.
    apply Permutation_length, TableFacts.enumerate_perm. }
  assert (Hsub : incl sel ks).
  { intros l Hl. apply Hks, Hincl, Hl. }
  split.
  - intros [= H]. apply andb_true_iff in H as [Hpos Heq].
    apply Nat.ltb_lt in Hpos. apply Nat.eqb_eq in Heq.
    split; [intros ->; cbn in Hlen; lia|].
    intros l Hl. apply Hks in Hl.
    apply (@List.NoDup_length_incl _ sel ks Hsel); [lia|exact Hsub|exact Hl].
  - intros [Hne Hall]. f_equal. apply andb_true_iff. split.
    + apply Nat.ltb_lt. destruct fs; [contradiction|cbn in Hlen; lia].
    + apply Nat.eqb_eq. apply Nat.le_antisymm.
      * now apply List.NoDup_incl_length.
      * apply List.NoDup_incl_length; [exact Hnd|].
        intros l Hl. apply Hall, Hks, Hl.
Qed.

(** X6 at the two sample hosts, both selected, the later one first. *)
Lemma allSelected_when_every_host_is_witness :
  List.NoDup (map fst Cases.two_hosts)
  /\ List.NoDup ["CPU-box"; "gpu-1"]
  /\ allSelected (VObj Cases.two_hosts) ["CPU-box"; "gpu-1"] = Some true.
Proof.
  assert (H1 : List.NoDup (map fst Cases.two_hosts)).
  { repeat constructor; cbn; intuition discriminate. }
  assert (H2 : List.NoDup ["CPU-box"; "gpu-1"]).
  { repeat constructor; cbn; intuition discriminate. }
  split; [exact H1|]. split; [exact H2|].
  apply (allSelected_when_every_host_is
           Cases.two_hosts ["CPU-box"; "gpu-1"] H1 H2).
  - cbn. tauto.
  - split; [discriminate|]. cbn. tauto.
Defined.

End SelectionProps.

Module SelectAllProps.
Import Dashboard Search SearchFacts Selection.

(** X7.  The header checkbox does not look at the search box.  With
    hosts filtered by a search and not all of them counted as selected,
    [toggleSelectAll] selects every host of the snapshot: the hosts the
    table shows, and every host the search hides as well. *)
Theorem toggleSelectAll_reaches_hidden_hosts :
  forall (s : RefreshData) (fs kept : list (string * value)) (q : string)
         (selectedHosts : list string),
    endpoints s = VObj fs ->
    searchQuery s <> "" ->
    toLowerCase (searchQuery s) = Some q ->
    filteredEndpoints s = Shows (VObj kept) ->
    allSelected (endpoints s) selectedHosts = Some false ->
    toggleSelectAll (endpoints s) selectedHosts
    = Some (map fst (enumerate fs))
    /\ (forall e, In e kept -> In (fst e) (map fst (enumerate fs)))
    /\ (forall e, In e (enumerate fs) -> ~ hit q e ->
                  ~ In e kept /\ In (fst e) (map fst (enumerate fs))).
Proof.
  intros s fs kept q sel He Hq Hl Hshown Hall.
  rewrite (filteredEndpoints_query s q fs He Hq Hl) in Hshown.
  destruct (filter_entries q (enumerate fs)) as [k| |] eqn:Ef;
    try discriminate.
  injection Hshown as <-.
  destruct (filter_entries_filter q _ _ Ef) as [-> Hhit].
  split; [|split].
  - unfold toggleSelectAll. rewrite Hall, He. reflexivity.
  - intros e Hin. apply List.filter_In in Hin as [Hin _].
    now apply in_map.
  - intros e Hin Hno. split; [|now apply in_map].
    intros Hk. apply List.filter_In in Hk as [_ Hk].
    apply Hno, (Hhit e Hin), Hk.
Qed.

(** X7 at the two sample hosts with [GEM] in the search box. *)
Lemma toggleSelectAll_reaches_hidden_hosts_witness :
  filteredEndpoints (Cases.searching "GEM") = Shows (VObj [Cases.gpu1_entry])
  /\ toggleSelectAll (endpoints (Cases.searching "GEM")) []
     = Some ["gpu-1"; "CPU-box"].
Proof.
  assert (H : filteredEndpoints (Cases.searching "GEM")
              = Shows (VObj [Cases.gpu1_entry])) by reflexivity.
  split; [exact H|].
  assert (Hq : searchQuery (Cases.searching "GEM") <> "")
    by (cbn; discriminate).
  exact (proj1 (toggleSelectAll_reaches_hidden_hosts
                  (Cases.searching "GEM") Cases.two_hosts
                  [Cases.gpu1_entry] "gem" []
                  eq_refl Hq eq_refl H eq_refl)).
Defined.

End SelectAllProps.

Module PullRuns.
Import Pull PullFacts PullBounds.

(** What one event can do to the dialog, whichever way the handler
    ends. *)
Lemma pull_event_frame (s s' : PullData) (data : value) :
  final (pull_event s data) = Some s' ->
  pullModelName s' = pullModelName s
  /\ (pullProgress s' = pullProgress s
      \/ exists c t : Q,
           get_opt data "completed" = VNum c /\ get_opt data "total" = VNum t
           /\ ~ c == 0 /\ ~ t == 0
           /\ pullProgress s' = Math_round ((c / t) * 100)).
Proof.
  unfold pull_event.
  destruct (get data "error") as [err|]; [|intros [= <-]; auto].
  destruct (truthy err); [intros [= <-]; auto|].
  remember (get_opt data "status") as status eqn:Hs.
  remember (get_opt data "completed") as completed eqn:Hc.
  remember (get_opt data "total") as total eqn:Ht.
  destruct (truthy completed) eqn:Ec; cbn [andb];
    [destruct (truthy total) eqn:Et; cbn [andb]|];
    try (destruct (truthy status); destruct (is_string status "success");
         intros [= <-]; auto; fail).
  destruct completed as [| | |c| | |]; try discriminate;
    destruct total as [| | |t| | |]; try discriminate.
  cbn [percent truthy] in *.
  apply negb_true_iff in Ec, Et.
  assert (Hc0 : ~ c == 0) by (intros E; apply Qeq_bool_iff in E; congruence).
  assert (Ht0 : ~ t == 0) by (intros E; apply Qeq_bool_iff in E; congruence).
  destruct (truthy status); destruct (is_string status "success");
    intros [= <-]; (split; [reflexivity|]); right; exists c, t; auto.
Qed.

(** Events that end normally leave the error as it was. *)
Lemma pull_event_no_error (s s' : PullData) (data : value) :
  pull_event s data = Normal s' -> pullError s' = pullError s.
Proof.
  unfold pull_event.
  destruct (get data "error") as [err|]; [|now intros [= <-]].
  destruct (truthy err); [discriminate|].
  destruct (truthy (get_opt data "completed") && truthy (get_opt data "total")).
  - destruct (percent _ _); [|discriminate].
    destruct (truthy (get_opt data "status"));
      destruct (is_string _ "success"); now intros [= <-].
  - destruct (truthy (get_opt data "status"));
      destruct (is_string _ "success"); now intros [= <-].
Qed.

Lemma pull_lines_no_error (lines : list string) :
  forall s s' : PullData,
    pull_lines s lines = Normal s' -> pullError s' = pullError s.
Proof.
  induction lines as [|line lines IH]; intros s s'; cbn [pull_lines].
  - now intros [= <-].
  - unfold pull_line at 1.
    destruct (JSON.parse line) as [data|].
    + destruct (pull_event s data) as [s1| |] eqn:E; try discriminate.
      intros H. rewrite (IH _ _ H). now apply (pull_event_no_error s s1 data).
    + apply IH.
Qed.



Lemma pull_lines_name (lines : list string) :
  forall s s' : PullData,
    final (pull_lines s lines) = Some s' ->
    pullModelName s' = pullModelName s.
Proof.
  induction lines as [|line lines IH]; intros s s'; cbn [pull_lines].
  - now intros [= <-].
  - unfold pull_line at 1.
    destruct (JSON.parse line) as [data|]; [|apply IH].
    pose proof (fun s1 => pull_event_frame s s1 data) as Hstep.
    destruct (pull_event s data) as [s1|s1|]; cbn [final] in *.
    + intros H. rewrite (IH _ _ H). now apply (Hstep s1).
    + intros [= <-]. now apply (Hstep s1).
    + discriminate.
Qed.

Lemma message_or_given (msg fallback : string) :
  fallback <> "" -> message_or msg fallback <> "".
Proof.
  intros H. unfold message_or. now destruct (String.eqb_spec msg "").
Qed.

Lemma pull_lines_no_json (lines : list string) (s : PullData) :
  (forall line, In line lines -> JSON.parse line = None) ->
  pull_lines s lines = Normal s.
Proof.
  induction lines as [|line lines IH]; intros H; [reflexivity|].
  cbn [pull_lines]. unfold pull_line.
  rewrite (H line (or_introl eq_refl)). apply IH.
  intros l Hl. apply H. now right.
Qed.

End PullRuns.

Module PullProps.
Import Pull PullFacts PullBounds PullRuns.

(** X8.  However the network answers, [startPull] with a model name
    sends its one POST, and when it is over the dialog is no longer
    busy and the model name is as it was typed.  Without a model name
    it sends nothing and changes nothing. *)
Theorem startPull_always_ends_idle :
  forall (baseURL selectedHost : string) (s s' : PullData)
         (net : fetch_result),
    final (snd (startPull baseURL selectedHost s net)) = Some s' ->
    pullModelName s' = pullModelName s
    /\ (pullModelName s <> "" ->
        pullInProgress s' = false
        /\ fst (startPull baseURL selectedHost s net)
           = [pull_request baseURL selectedHost s])
    /\ (pullModelName s = "" ->
        s' = s /\ fst (startPull baseURL selectedHost s net) = []).
Proof.
  intros baseURL host s s' net. unfold startPull.
  destruct (String.eqb_spec (pullModelName s) "") as [E|E]; cbn [fst snd final].
  - intros [= <-]. repeat split; auto; contradiction.
  - intros H.
    assert (G : pullModelName s' = pullModelName s
                /\ pullInProgress s' = false).
    { destruct net as [msg|r]; [injection H as <-; now split|].
      destruct (ok r); cbn [negb] in H; [|injection H as <-; now split].
      rewrite pull_reads_flat in H.
      pose proof (pull_lines_name (flat_map nonblank_lines (reads r))
                    (pull_started s)) as Hn.
      destruct (pull_lines (pull_started s)
                  (flat_map nonblank_lines (reads r))) as [s1|s1|];
        try discriminate; specialize (Hn s1 eq_refl).
      - destruct (ending r); injection H as <-;
          (split; [|reflexivity]); [|exact Hn].
        unfold pull_after_loop. now destruct (pullComplete s1).
      - injection H as <-. now split. }
    destruct G as [Hn Hp]. split; [exact Hn|]. split; [now split|].
    intros E'. contradiction.
Qed.

(** X8 at the sample stream, which ends by an error event. *)
Lemma startPull_always_ends_idle_witness :
  exists s' : PullData,
    final (snd (startPull "http://api" "gpu-1" Samples.pull_dialog
                          (Responds Samples.failing_pull))) = Some s'
    /\ pullModelName s' = "gemma2:2b"
    /\ pullInProgress s' = false.
Proof.
  eexists. split; [reflexivity|].
  destruct (startPull_always_ends_idle
              "http://api" "gpu-1" Samples.pull_dialog _
              (Responds Samples.failing_pull) eq_refl) as (Hn & Hbusy & _).
  split; [exact Hn|]. apply Hbusy. discriminate.
Defined.



(** X10.  When the stream ends and no error event came, the pull is
    reported as complete, with the success notice, whether or not an
    event said ['success'].  So for a body in which no line is JSON, an
    empty body among them, the dialog ends at 0 percent with the status
    ['Pull completed'] and the success notice. *)
Theorem startPull_completes_without_success_event :
  forall (baseURL selectedHost : string) (s s' : PullData) (r : response),
    pullModelName s <> "" ->
    ok r = true ->
    ending r = Done ->
    snd (startPull baseURL selectedHost s (Responds r)) = Normal s' ->
    pullComplete s' = true
    /\ pullError s' = VNull
    /\ render_pull s' = {| progress_section := None;
                           error_notice := None;
                           success_notice := true |}
    /\ ((forall line : string,
           In line (flat_map nonblank_lines (reads r)) ->
           JSON.parse line = None) ->
        s' = {| pullModelName := pullModelName s;
                pullInProgress := false;
                pullProgress := 0;
                pullStatus := VStr "Pull completed";
                pullError := VNull;
                pullComplete := true |}).
Proof.
  intros baseURL host s s' r Hn Hok Hend.
  rewrite (startPull_reads baseURL host s r Hn Hok), Hend.
  pose proof (pull_lines_no_error (flat_map nonblank_lines (reads r))
                (pull_started s)) as Herr.
  pose proof (pull_lines_no_json (flat_map nonblank_lines (reads r))
                (pull_started s)) as Hnone.
  destruct (pull_lines (pull_started s) (flat_map nonblank_lines (reads r)))
    as [s1| |]; try discriminate.
  intros [= <-]. specialize (Herr s1 eq_refl). cbn in Herr.
  assert (Hc : pullComplete (pull_finally (pull_after_loop s1)) = true).
  { unfold pull_after_loop. now destruct (pullComplete s1) eqn:E. }
  assert (He : pullError (pull_finally (pull_after_loop s1)) = VNull).
  { unfold pull_after_loop. now destruct (pullComplete s1). }
  split; [exact Hc|]. split; [exact He|]. split.
  - unfold render_pull. rewrite Hc, He. reflexivity.
  - intros Hall. specialize (Hnone Hall). injection Hnone as ->.
    reflexivity.
Qed.

(** X10 at a stream of a blank line and a line of HTML. *)
Lemma startPull_completes_without_success_event_witness :
  pullModelName Samples.pull_dialog <> ""
  /\ snd (startPull "http://api" "gpu-1" Samples.pull_dialog
                    (Responds Cases.silent_pull))
     = Normal {| pullModelName := "gemma2:2b";
                 pullInProgress := false;
                 pullProgress := 0;
                 pullStatus := VStr "Pull completed";
                 pullError := VNull;
                 pullComplete := true |}
  /\ render_pull {| pullModelName := "gemma2:2b";
                    pullInProgress := false;
                    pullProgress := 0;
                    pullStatus := VStr "Pull completed";
                    pullError := VNull;
                    pullComplete := true |}
     = {| progress_section := None; error_notice := None;
          success_notice := true |}.
Proof.
  assert (H : pullModelName Samples.pull_dialog <> "") by discriminate.
  assert (Hrun : snd (startPull "http://api" "gpu-1" Samples.pull_dialog
                                (Responds Cases.silent_pull))
                 = Normal {| pullModelName := "gemma2:2b";
                             pullInProgress := false;
                             pullProgress := 0;
                             pullStatus := VStr "Pull completed";
                             pullError := VNull;
                             pullComplete := true |}) by reflexivity.
  split; [exact H|]. split; [exact Hrun|].
  exact (proj1 (proj2 (proj2
           (startPull_completes_without_success_event
              "http://api" "gpu-1" Samples.pull_dialog _ Cases.silent_pull
              H eq_refl eq_refl Hrun)))).
Defined.

(** X11.  When the request of a pull fails, or the server answers with
    a status that is not ok, the body is not read: the dialog shows the
    error (the message of the failure, ['Failed to pull model'] when it
    has none, or ['HTTP error! status: '] and the status), no progress
    bar and no success notice, and the status text stays
    ['Starting pull...']. *)
Theorem startPull_failed_request_shows_error :
  forall (baseURL selectedHost : string) (s : PullData) (net : fetch_result),
    pullModelName s <> "" ->
    match net with
    | FetchFails _ => True
    | Responds r => ok r = false
    end ->
    exists msg : string,
      msg = match net with
            | FetchFails m => message_or m "Failed to pull model"
            | Responds r => ("HTTP error! status: " ++ Text.of_nat (status r))
                            %string
            end
      /\ startPull baseURL selectedHost s net
         = ([pull_request baseURL selectedHost s],
            Normal {| pullModelName := pullModelName s;
                      pullInProgress := false;
                      pullProgress := 0;
                      pullStatus := VStr "Starting pull...";
                      pullError := VStr msg;
                      pullComplete := false |})
      /\ render_pull {| pullModelName := pullModelName s;
                        pullInProgress := false;
                        pullProgress := 0;
                        pullStatus := VStr "Starting pull...";
                        pullError := VStr msg;
                        pullComplete := false |}
         = {| progress_section := None;
              error_notice := Some (VStr msg);
              success_notice := false |}.
Proof.
  intros baseURL host s net Hn Hnet. eexists. split; [reflexivity|].
  unfold startPull.
  destruct (String.eqb_spec (pullModelName s) ""); [contradiction|].
  destruct net as [m|r].
  - split; [reflexivity|]. unfold render_pull. cbn.
    pose proof (message_or_given m "Failed to pull model") as Hm.
    destruct (String.eqb_spec (message_or m "Failed to pull model") "");
      [|reflexivity].
    exfalso. apply Hm; [discriminate|assumption].
  - rewrite Hnet. cbn [negb]. split; reflexivity.
Qed.

(** X11 at a server that answers 500. *)
Lemma startPull_failed_request_shows_error_witness :
  pullModelName Samples.pull_dialog <> ""
  /\ ok Cases.server_error = false
  /\ exists msg : string,
       msg = "HTTP error! status: 500"
       /\ startPull "http://api" "gpu-1" Samples.pull_dialog
                    (Responds Cases.server_error)
          = ([pull_request "http://api" "gpu-1" Samples.pull_dialog],
             Normal {| pullModelName := "gemma2:2b";
                       pullInProgress := false;
                       pullProgress := 0;
                       pullStatus := VStr "Starting pull...";
                       pullError := VStr msg;
                       pullComplete := false |})
       /\ render_pull {| pullModelName := "gemma2:2b";
                         pullInProgress := false;
                         pullProgress := 0;
                         pullStatus := VStr "Starting pull...";
                         pullError := VStr msg;
                         pullComplete := false |}
          = {| progress_section := None;
               error_notice := Some (VStr msg);
               success_notice := false |}.
Proof.
  assert (H : pullModelName Samples.pull_dialog <> "") by discriminate.
  split; [exact H|]. split; [reflexivity|].
  exact (startPull_failed_request_shows_error
           "http://api" "gpu-1" Samples.pull_dialog
           (Responds Cases.server_error) H eq_refl).
Defined.

End PullProps.

Module PullDialogProps.
Import Pull PullFacts PullDialog.

(** X12.  The pull dialog opens clean and on the host of the menu it
    was opened from: after [openPullModal(label)] it shows no progress,
    no error and no success notice, whatever an earlier pull left;
    [startPull] does nothing as long as no model name is typed; and
    with a name typed it sends its POST to the pull route of [label]
    with that name.  [closePullModal] leaves the same clean fields. *)
Theorem openPullModal_opens_clean_on_host :
  forall (label : string) (s : DialogData),
    selectedHost (openPullModal label s) = label
    /\ pullModalActive (openPullModal label s) = true
    /\ render_pull (pull (openPullModal label s))
       = {| progress_section := None; error_notice := None;
            success_notice := false |}
    /\ pull (closePullModal s) = pull (openPullModal label s)
    /\ pullModalActive (closePullModal s) = false
    /\ (forall (baseURL : string) (net : fetch_result),
          startPull baseURL (selectedHost (openPullModal label s))
                    (pull (openPullModal label s)) net
          = ([], Returned (pull (openPullModal label s))))
    /\ (forall (baseURL name : string) (net : fetch_result),
          name <> "" ->
          fst (startPull baseURL (selectedHost (openPullModal label s))
                         (set_pullModelName name
                            (pull (openPullModal label s))) net)
          = [{| meth := POST;
                url := baseURL ++ "/llmm/" ++ label ++ "/pull";
                body := Some (VObj [("model_name", VStr name)]) |}]).
Proof.
  intros label s. repeat split.
  intros baseURL name net Hname.
  now rewrite startPull_sends.
Qed.

End PullDialogProps.

Module ChatRuns.
Import Text TextFacts Chat ChatFacts ChatLog.

(** An event adds a text to the assistant message, possibly the empty
    one, and does nothing else. *)
Lemma chat_event_appends (i : nat) (s s' : ChatData) (data : value) :
  final (chat_event i s data) = Some s' ->
  exists t : string, s' = append_content i t s.
Proof.
  unfold chat_event.
  assert (Hsame : exists t : string, s = append_content i t s).
  { exists "". now rewrite append_content_nil. }
  destruct (get data "choices") as [choices|];
    [|intros [= <-]; exact Hsame].
  destruct (truthy choices); [|intros [= <-]; exact Hsame].
  destruct (truthy _); [|intros [= <-]; exact Hsame].
  destruct (get_opt _ "content") as [| | | |t| |]; try discriminate.
  intros [= <-]. now exists t.
Qed.

Lemma chat_line_appends (i : nat) (s s' : ChatData) (line : string) :
  final (chat_line i s line) = Some s' ->
  exists t : string, s' = append_content i t s.
Proof.
  unfold chat_line.
  assert (Hsame : exists t : string, s = append_content i t s).
  { exists "". now rewrite append_content_nil. }
  destruct (String.eqb _ "[DONE]"); [intros [= <-]; exact Hsame|].
  destruct (JSON.parse _) as [data|]; [|intros [= <-]; exact Hsame].
  apply chat_event_appends.
Qed.

Lemma chat_lines_appends (i : nat) (lines : list string) :
  forall s s' : ChatData,
    final (chat_lines i s lines) = Some s' ->
    exists t : string, s' = append_content i t s.
Proof.
  induction lines as [|line lines IH]; intros s s'; cbn [chat_lines].
  - intros [= <-]. exists "". now rewrite append_content_nil.
  - pose proof (chat_line_appends i s) as Hstep.
    destruct (chat_line i s line) as [s1|s1|] eqn:E; cbn [final];
      try discriminate.
    + intros H. destruct (IH s1 s' H) as [u ->].
      destruct (Hstep s1 line) as [t ->]; [now rewrite E|].
      exists (t ++ u)%string. apply append_content_twice.
    + intros [= <-]. apply (Hstep s1 line). now rewrite E.
Qed.

(** Appending to the assistant message that was pushed last changes
    that message and no other. *)
Lemma append_content_last (t : string) (s : ChatData) (m : Message) :
  chatHistory (append_content (length (chatHistory s)) t (push m s))
  = chatHistory s ++ [add_text t m].
Proof.
  unfold append_content, push, set_chatHistory.
  cbn [chatHistory].
  rewrite <- (Nat.add_0_r (length (chatHistory s))), alter_app_r.
  reflexivity.
Qed.

(** The loop over the lines never leaves the method. *)
Lemma chat_lines_not_returned (i : nat) (lines : list string) :
  forall s s' : ChatData, chat_lines i s lines <> Returned s'.
Proof.
  induction lines as [|line lines IH]; intros s s'; cbn [chat_lines];
    [discriminate|].
  assert (Hline : forall s1, chat_line i s line <> Returned s1).
  { intros s1. unfold chat_line.
    destruct (String.eqb _ "[DONE]"); [discriminate|].
    destruct (JSON.parse _) as [data|]; [|discriminate].
    unfold chat_event.
    destruct (get data "choices") as [choices|]; [|discriminate].
    destruct (truthy choices); [|discriminate].
    destruct (truthy _); [|discriminate].
    destruct (get_opt _ "content"); discriminate. }
  destruct (chat_line i s line) as [s1|s1|]; [apply IH| |discriminate].
  now destruct (Hline s1).
Qed.

(** The chat after the answer [t] has been added to the assistant
    message. *)
Lemma answered_so_far (t : string) (s : ChatData) :
  let s2 := append_content (length (chatHistory (chat_started s))) t
              (push assistantMessage (chat_started s)) in
  chatHistory s2
  = chatHistory s ++ [userMessage s; {| role := "assistant"; content := t |}]
  /\ chatInput s2 = "" /\ selectedModel s2 = selectedModel s.
Proof.
  intros s2. unfold s2. rewrite append_content_last.
  cbn [chat_started chatHistory]. rewrite <- app_assoc.
  unfold add_text, assistantMessage. cbn [role content app].
  now rewrite append_nil_l.
Qed.

End ChatRuns.

Module ChatProps.
Import Text TextFacts Chat ChatFacts ChatLog ChatRuns.

(** X13.  Whatever the network answers and whatever the stream holds,
    [sendMessage] with a message that is not blank keeps the history as
    it was and adds to it: first the user's message, then the
    assistant's answer as far as it came, then, when the request or the
    stream failed, the failure notice.  The input box is emptied, the
    spinner is off and the chosen model is unchanged. *)
Theorem sendMessage_only_adds_to_history :
  forall (baseURL host : string) (s s' : ChatData) (net : fetch_result),
    nonblank (chatInput s) = true ->
    final (snd (sendMessage baseURL host s net)) = Some s' ->
    chatInput s' = ""
    /\ chatLoading s' = false
    /\ selectedModel s' = selectedModel s
    /\ exists tail : list Message,
         chatHistory s' = chatHistory s ++ userMessage s :: tail
         /\ added net tail.
Proof.
  intros baseURL host s s' net Hin. unfold sendMessage.
  rewrite Hin. cbn [negb snd].
  assert (Hfail : final (Normal (chat_finally (chat_catch (chat_started s))))
                  = Some s' ->
                  chatInput s' = "" /\ chatLoading s' = false
                  /\ selectedModel s' = selectedModel s
                  /\ chatHistory s'
                     = chatHistory s ++ userMessage s :: [failure_notice]).
  { intros [= <-]. repeat split. cbn. now rewrite <- app_assoc. }
  destruct net as [msg|r].
  - intros H. destruct (Hfail H) as (H1 & H2 & H3 & H4).
    repeat split; try assumption. now exists [failure_notice].
  - unfold added. destruct (ok r); cbn [negb].
    2:{ intros H. destruct (Hfail H) as (H1 & H2 & H3 & H4).
        repeat split; try assumption. now exists [failure_notice]. }
    rewrite chat_reads_flat.
    pose proof (chat_lines_appends
                  (length (chatHistory (chat_started s)))
                  (flat_map data_lines (reads r))
                  (push assistantMessage (chat_started s))) as Hrun.
    pose proof (chat_lines_not_returned
                  (length (chatHistory (chat_started s)))
                  (flat_map data_lines (reads r))
                  (push assistantMessage (chat_started s))) as Hnot.
    destruct (chat_lines _ _ _) as [s2|s2|]; cbn [final]; try discriminate;
      [|now destruct (Hnot s2)].
    destruct (Hrun s2 eq_refl) as [t ->].
    destruct (answered_so_far t s) as (Hh & Hi & Hm).
    destruct (ending r); intros [= <-].
    + split; [exact Hi|]. split; [reflexivity|]. split; [exact Hm|].
      eexists. split; [exact Hh|]. now exists t.
    + split; [exact Hi|]. split; [reflexivity|]. split; [exact Hm|].
      eexists. split; [|now exists t].
      change (chatHistory (chat_finally (chat_catch ?x)))
        with (chatHistory x ++ [failure_notice]).
      change (length (chatHistory s ++ [userMessage s]))
        with (length (chatHistory (chat_started s))).
      rewrite Hh. now rewrite <- app_assoc.
Qed.

(** X13 at the sample chat, answered in reads that cut an event: the
    history holds the question and the part of the answer that came. *)
Lemma sendMessage_only_adds_to_history_witness :
  nonblank (chatInput Samples.chat) = true
  /\ exists s' : ChatData,
       final (snd (sendMessage "http://api" "gpu-1" Samples.chat
                               (Samples.answers Samples.cut_reads)))
       = Some s'
       /\ chatHistory s'
          = [{| role := "user"; content := "Hello?" |};
             {| role := "assistant"; content := "Hi" |}]
       /\ chatInput s' = ""
       /\ chatLoading s' = false.
Proof.
  assert (H : nonblank (chatInput Samples.chat) = true) by reflexivity.
  split; [exact H|]. eexists. split; [reflexivity|]. split; [reflexivity|].
  destruct (sendMessage_only_adds_to_history
              "http://api" "gpu-1" Samples.chat _
              (Samples.answers Samples.cut_reads) H eq_refl)
    as (Hi & Hl & _).
  now split.
Defined.

End ChatProps.

Module ChunkProps.
Import Text TextFacts.

(** X14.  How a pull stream is cut into reads does not matter as long
    as every read ends at a line end: two answers with the same status
    and the same body, each delivered in reads that end at line ends,
    leave [startPull] with the same request and the same state. *)
Theorem startPull_same_body_same_result :
  forall (baseURL selectedHost : string) (s : Pull.PullData)
         (r r' : response),
    ok r = ok r' -> status r = status r' -> ending r = ending r' ->
    Forall whole_lines (reads r) ->
    Forall whole_lines (reads r') ->
    String.concat "" (reads r) = String.concat "" (reads r') ->
    Pull.startPull baseURL selectedHost s (Responds r)
    = Pull.startPull baseURL selectedHost s (Responds r').
Proof.
  intros baseURL host s r r' Hok Hst Hend Hw Hw' Hbody.
  unfold Pull.startPull. rewrite Hok, Hst, Hend.
  rewrite !PullFacts.pull_reads_flat.
  rewrite <- !PullFacts.nonblank_lines_concat by assumption.
  now rewrite Hbody.
Qed.

(** X14 at the sample pull stream, in two reads and in one. *)
Lemma startPull_same_body_same_result_witness :
  Forall whole_lines (reads Samples.failing_pull)
  /\ Forall whole_lines (reads Cases.failing_pull_in_one)
  /\ Pull.startPull "http://api" "gpu-1" Samples.pull_dialog
                    (Responds Samples.failing_pull)
     = Pull.startPull "http://api" "gpu-1" Samples.pull_dialog
                      (Responds Cases.failing_pull_in_one).
Proof.
  assert (H1 : Forall whole_lines (reads Samples.failing_pull)).
  { repeat constructor.
    - exists (Samples.manifest_line ++ Samples.nl
              ++ Samples.download_line)%string. reflexivity.
    - exists (Samples.reset_line ++ Samples.nl
              ++ Samples.success_line)%string. reflexivity. }
  assert (H2 : Forall whole_lines (reads Cases.failing_pull_in_one)).
  { repeat constructor.
    exists (Samples.manifest_line ++ Samples.nl
            ++ Samples.download_line ++ Samples.nl
            ++ Samples.reset_line ++ Samples.nl
            ++ Samples.success_line)%string. reflexivity. }
  split; [exact H1|]. split; [exact H2|].
  exact (startPull_same_body_same_result
           "http://api" "gpu-1" Samples.pull_dialog
           Samples.failing_pull Cases.failing_pull_in_one
           eq_refl eq_refl eq_refl H1 H2 eq_refl).
Defined.

(** X15.  The same for the chat: two answers with the same status and
    the same body, each delivered in reads that end at line ends, leave
    [sendMessage] with the same request and the same chat.  And when no
    line of the reads starts with [data: ], the answer ends as an empty
    assistant message. *)
Theorem sendMessage_same_body_same_result :
  forall (baseURL host : string) (s : Chat.ChatData) (r r' : response),
    ok r = ok r' -> ending r = ending r' ->
    Forall whole_lines (reads r) ->
    Forall whole_lines (reads r') ->
    String.concat "" (reads r) = String.concat "" (reads r') ->
    Chat.sendMessage baseURL host s (Responds r)
    = Chat.sendMessage baseURL host s (Responds r')
    /\ (nonblank (Chat.chatInput s) = true ->
        ok r = true -> ending r = Done ->
        Chat.data_lines (String.concat "" (reads r)) = [] ->
        snd (Chat.sendMessage baseURL host s (Responds r))
        = Normal (Chat.chat_answered s "")).
Proof.
  intros baseURL host s r r' Hok Hend Hw Hw' Hbody. split.
  - unfold Chat.sendMessage. rewrite Hok, Hend.
    rewrite !ChatFacts.chat_reads_flat.
    rewrite <- !ChatFacts.data_lines_concat by assumption.
    now rewrite Hbody.
  - intros Hin Htrue Hdone Hnone.
    rewrite (ChatFacts.sendMessage_answered baseURL host s r []);
      try assumption; [reflexivity|].
    rewrite <- ChatFacts.data_lines_concat by assumption.
    rewrite Hnone. constructor.
Qed.

(** X15 at the sample chat stream, in two reads and in one. *)
Lemma sendMessage_same_body_same_result_witness :
  Forall whole_lines (reads Cases.chat_aligned)
  /\ Forall whole_lines (reads Cases.chat_in_one)
  /\ Chat.sendMessage "http://api" "gpu-1" Samples.chat
                      (Responds Cases.chat_aligned)
     = Chat.sendMessage "http://api" "gpu-1" Samples.chat
                        (Responds Cases.chat_in_one).
Proof.
  assert (H1 : Forall whole_lines (reads Cases.chat_aligned)).
  { repeat constructor.
    - exists (Samples.hi_line ++ Samples.nl)%string. reflexivity.
    - exists (Samples.there_line ++ Samples.nl ++ Samples.nl
              ++ Samples.done_line ++ Samples.nl)%string. reflexivity. }
  assert (H2 : Forall whole_lines (reads Cases.chat_in_one)).
  { repeat constructor.
    exists (Samples.hi_line ++ Samples.nl ++ Samples.nl
            ++ Samples.there_line ++ Samples.nl ++ Samples.nl
            ++ Samples.done_line ++ Samples.nl)%string. reflexivity. }
  split; [exact H1|]. split; [exact H2|].
  exact (proj1 (sendMessage_same_body_same_result
                  "http://api" "gpu-1" Samples.chat
                  Cases.chat_aligned Cases.chat_in_one
                  eq_refl eq_refl H1 H2 eq_refl)).
Defined.

End ChunkProps.

Module LineEndFacts.
Import Text TextFacts JSON LineEnds.

(** *** [JSON.parse] and a trailing carriage return *)

Lemma idle_step_plain (c : ascii) (st : lexst) (toks : list token) :
  idle_step c = Some (st, toks) -> plain st.
Proof.
  unfold idle_step.
  repeat match goal with
         | |- context [if ?b then _ else _] => destruct b
         end;
    try (intros [= <- <-]; cbn; intuition discriminate).
  destruct (digit c); [|discriminate].
  intros [= <- <-]. exact I.
Qed.

Lemma lex_step_plain (st st' : lexst) (c : ascii) (toks : list token) :
  plain st -> lex_step st c = Some (st', toks) -> plain st'.
Proof.
  intros Hp. destruct st as [|acc|acc|todo cp acc|ns a|rest v];
    cbn [lex_step].
  - apply idle_step_plain.
  - repeat match goal with
           | |- context [if ?b then _ else _] => destruct b
           end; try discriminate; intros [= <- <-]; exact I.
  - repeat match goal with
           | |- context [if ?b then _ else _] => destruct b
           end; try discriminate; intros [= <- <-]; exact I.
  - destruct (hexdigit c); [|discriminate].
    destruct todo as [|[|k]]; intros [= <- <-]; exact I.
  - destruct (num_step ns a c) as [[ns' a']|].
    + intros [= <- <-]. exact I.
    + destruct (num_accepting ns); [|discriminate].
      destruct (idle_step c) as [[st0 toks0]|] eqn:E; [|discriminate].
      intros [= <- <-]. exact (idle_step_plain c st0 toks0 E).
  - destruct rest as [|x rest']; [discriminate|].
    destruct (Ascii.eqb c x); [|discriminate].
    destruct rest' as [|y rest'']; intros [= <- <-]; [exact I|].
    cbn in *. tauto.
Qed.

Lemma num_step_cr (ns : numst) (a : numacc) : num_step ns a cr = None.
Proof. now destruct ns. Qed.

(** A carriage return after the text is white space to the lexer. *)
Lemma lex_from_cr (cs : list ascii) :
  forall st : lexst,
    plain st -> lex_from st (cs ++ [cr]) = lex_from st cs.
Proof.
  induction cs as [|c cs IH]; intros st Hp.
  - cbn [app lex_from].
    destruct st as [|acc|acc|todo cp acc|ns a|rest v]; try reflexivity.
    + cbn [lex_step]. rewrite num_step_cr.
      now destruct (num_accepting ns).
    + cbn [lex_step]. destruct rest as [|x rest']; [reflexivity|].
      destruct (Ascii.eqb_spec cr x) as [<-|_]; [|reflexivity].
      exfalso. apply Hp. now left.
  - cbn [app lex_from].
    destruct (lex_step st c) as [[st' toks]|] eqn:E; [|reflexivity].
    now rewrite (IH st' (lex_step_plain st st' c toks Hp E)).
Qed.

Lemma list_ascii_of_string_app (a b : string) :
  list_ascii_of_string (a ++ b)
  = list_ascii_of_string a ++ list_ascii_of_string b.
Proof.
  induction a as [|c a IH]; [reflexivity|].
  rewrite append_cons. cbn [list_ascii_of_string app]. now rewrite IH.
Qed.

(** [JSON.parse] reads a text that ends in a carriage return as it reads
    the text without it. *)
Lemma parse_cr (s : string) :
  parse (s ++ String cr "") = parse s.
Proof.
  unfold parse, lex. rewrite list_ascii_of_string_app.
  now rewrite (lex_from_cr _ LIdle I).
Qed.

(** *** [trim] and a trailing carriage return *)

Lemma ws2_cr (a : ascii) : ws2 a cr = false.
Proof. unfold ws2. apply andb_false_r. Qed.

Lemma ws3_cr (a b : ascii) : ws3 a b cr = false.
Proof.
  unfold ws3. change (code cr) with 13%N. cbn [N.eqb N.leb N.compare].
  cbn. now rewrite !andb_false_r.
Qed.

Lemma trimStart_cr (l : list ascii) :
  trimStart_list (l ++ [cr])
  = match trimStart_list l with
    | [] => []
    | kept => kept ++ [cr]
    end.
Proof.
  remember (length l) as n eqn:Hn. revert l Hn.
  induction n as [n IH] using lt_wf_ind. intros l ->.
  destruct l as [|a l]; [reflexivity|].
  cbn [app trimStart_list].
  destruct (ws1 a) eqn:E1.
  { apply (IH (length l)); [cbn; lia|reflexivity]. }
  destruct l as [|b l]; cbn [app].
  { now rewrite ws2_cr. }
  destruct (ws2 a b) eqn:E2.
  { apply (IH (length l)); [cbn; lia|reflexivity]. }
  destruct l as [|c l]; cbn [app].
  { now rewrite ws3_cr. }
  destruct (ws3 a b c) eqn:E3.
  { apply (IH (length l)); [cbn; lia|reflexivity]. }
  reflexivity.
Qed.

(** [trim] takes a trailing carriage return away. *)
Lemma trim_cr (s : string) : trim (s ++ String cr "") = trim s.
Proof.
  unfold trim. rewrite list_ascii_of_string_app.
  change (list_ascii_of_string (String cr "")) with [cr].
  rewrite trimStart_cr.
  destruct (trimStart_list (list_ascii_of_string s)) as [|a kept];
    [reflexivity|].
  rewrite rev_app_distr. reflexivity.
Qed.

Lemma nonblank_cr (s : string) :
  nonblank (s ++ String cr "") = nonblank s.
Proof. unfold nonblank. now rewrite trim_cr. Qed.

(** *** The lines of a text with CR LF line ends *)

Lemma split_crlf (s : string) :
  split "010" (crlf s) = mark_cr (split "010" s).
Proof.
  induction s as [|c s IH]; [reflexivity|].
  cbn [crlf split]. pose proof (split_not_nil "010" s) as Hne.
  destruct (Ascii.eqb_spec c "010") as [->|Hc].
  - cbn [split Ascii.eqb Bool.eqb andb]. rewrite IH.
    destruct (split "010" s) as [|l ls]; [contradiction|].
    reflexivity.
  - cbn [split]. destruct (Ascii.eqb_spec c "010"); [contradiction|].
    rewrite IH.
    destruct (split "010" s) as [|l ls]; [contradiction|].
    cbn [mark_cr]. destruct ls; reflexivity.
Qed.

End LineEndFacts.

Module LineEndProps.
Import Text TextFacts LineEnds LineEndFacts.

Lemma pull_line_cr (s : Pull.PullData) (line : string) :
  Pull.pull_line s (line ++ String cr "") = Pull.pull_line s line.
Proof. unfold Pull.pull_line. now rewrite parse_cr. Qed.

Lemma pull_lines_mark_cr (lines : list string) :
  forall s : Pull.PullData,
    Pull.pull_lines s (List.filter nonblank (mark_cr lines))
    = Pull.pull_lines s (List.filter nonblank lines).
Proof.
  induction lines as [|line rest IH]; intros s; [reflexivity|].
  destruct rest as [|next rest]; [reflexivity|].
  change (mark_cr (line :: next :: rest))
    with ((line ++ String cr "")%string :: mark_cr (next :: rest)).
  set (rest' := next :: rest) in *.
  cbn [List.filter]. rewrite nonblank_cr.
  destruct (nonblank line); [|apply IH].
  cbn [Pull.pull_lines]. rewrite pull_line_cr.
  destruct (Pull.pull_line s line); auto.
Qed.

Lemma pull_reads_crlf (chunks : list string) :
  forall s : Pull.PullData,
    Pull.pull_reads s (map crlf chunks) = Pull.pull_reads s chunks.
Proof.
  induction chunks as [|chunk chunks IH]; intros s; [reflexivity|].
  cbn [map Pull.pull_reads]. unfold Pull.nonblank_lines.
  rewrite split_crlf, pull_lines_mark_cr.
  destruct (Pull.pull_lines s _); auto.
Qed.

(** X16.  A pull stream whose lines end in CR LF is handled like the
    same stream with lines that end in LF: for every answer of the
    server, [startPull] sends the same request and leaves the same
    state when a carriage return is put before every line feed of every
    read. *)
Theorem startPull_reads_crlf_as_lf :
  forall (baseURL selectedHost : string) (s : Pull.PullData) (r : response),
    Pull.startPull baseURL selectedHost s (Responds (with_crlf r))
    = Pull.startPull baseURL selectedHost s (Responds r).
Proof.
  intros baseURL host s r. unfold Pull.startPull, with_crlf.
  cbn [ok status reads ending]. now rewrite pull_reads_crlf.
Qed.

Lemma prefix_cr (p l : string) :
  ~ In cr (list_ascii_of_string p) ->
  String.prefix p (l ++ String cr "") = String.prefix p l.
Proof.
  revert l. induction p as [|a p IH]; intros l Hp.
  - now rewrite !prefix_nil.
  - cbn [list_ascii_of_string In] in Hp.
    destruct l as [|b l].
    + rewrite append_nil_l. cbn [String.prefix].
      destruct (ascii_dec a cr) as [->|_]; [|reflexivity].
      exfalso. apply Hp. now left.
    + rewrite append_cons. cbn [String.prefix].
      destruct (ascii_dec a b); [|reflexivity].
      apply IH. tauto.
Qed.

Lemma not_done_cr (payload : string) :
  String.eqb (payload ++ String cr "") "[DONE]" = false.
Proof.
  apply String.eqb_neq. intros E.
  apply (f_equal list_ascii_of_string) in E.
  rewrite list_ascii_of_string_app in E.
  apply (f_equal (@rev ascii)) in E. rewrite rev_app_distr in E.
  discriminate E.
Qed.

Lemma chat_line_cr (i : nat) (s : Chat.ChatData) (payload : string) :
  Chat.chat_line i s ("data: " ++ payload ++ String cr "")
  = Chat.chat_line i s ("data: " ++ payload).
Proof.
  unfold Chat.chat_line.
  rewrite (ChatFacts.replace_data_prefix (payload ++ String cr "")).
  rewrite (ChatFacts.replace_data_prefix payload).
  rewrite not_done_cr, parse_cr.
  destruct (String.eqb_spec payload "[DONE]") as [->|_]; reflexivity.
Qed.

Lemma event_line_cr (line : string) :
  nonblank (line ++ String cr "") && startsWith (line ++ String cr "") "data: "
  = nonblank line && startsWith line "data: ".
Proof.
  rewrite nonblank_cr. unfold startsWith.
  now rewrite prefix_cr by (cbn; intuition discriminate).
Qed.

Lemma chat_lines_mark_cr (i : nat) (lines : list string) :
  forall s : Chat.ChatData,
    Chat.chat_lines i s
      (List.filter (fun line => nonblank line && startsWith line "data: ")
                   (mark_cr lines))
    = Chat.chat_lines i s
        (List.filter (fun line => nonblank line && startsWith line "data: ")
                     lines).
Proof.
  induction lines as [|line rest IH]; intros s; [reflexivity|].
  destruct rest as [|next rest]; [reflexivity|].
  change (mark_cr (line :: next :: rest))
    with ((line ++ String cr "")%string :: mark_cr (next :: rest)).
  set (rest' := next :: rest) in *.
  cbn [List.filter]. rewrite event_line_cr.
  destruct (nonblank line && startsWith line "data: ") eqn:E; [|apply IH].
  apply andb_true_iff in E as [_ Ep].
  destruct (SearchFacts.prefix_split _ _ Ep) as [payload ->].
  cbn [Chat.chat_lines].
  rewrite append_assoc, chat_line_cr.
  destruct (Chat.chat_line i s _); auto.
Qed.

Lemma chat_reads_crlf (i : nat) (chunks : list string) :
  forall s : Chat.ChatData,
    Chat.chat_reads i s (map crlf chunks) = Chat.chat_reads i s chunks.
Proof.
  induction chunks as [|chunk chunks IH]; intros s; [reflexivity|].
  cbn [map Chat.chat_reads]. unfold Chat.event_lines.
  rewrite split_crlf, chat_lines_mark_cr.
  destruct (Chat.chat_lines i s _); auto.
Qed.

(** X17.  A chat stream whose lines end in CR LF is handled like the
    same stream with lines that end in LF: for every answer of the
    server, [sendMessage] sends the same request and leaves the same
    chat when a carriage return is put before every line feed of every
    read. *)
Theorem sendMessage_reads_crlf_as_lf :
  forall (baseURL host : string) (s : Chat.ChatData) (r : response),
    Chat.sendMessage baseURL host s (Responds (with_crlf r))
    = Chat.sendMessage baseURL host s (Responds r).
Proof.
  intros baseURL host s r. unfold Chat.sendMessage, with_crlf.
  cbn [ok status reads ending]. now rewrite chat_reads_crlf.
Qed.

End LineEndProps.

Module ModelsFacts.
Import Chat ModelList Models.

(** What the answer to the models request does: it ends the loading
    state and touches nothing of the chat but the selected model; and
    either it offers a list whose first entry it selects, or it selects
    nothing. *)
Lemma models_settled_cases (answer : axios_result) (d d' : ModelsData) :
  models_settled answer d = Normal d' ->
  modelsLoading d' = false
  /\ chatHistory (chat d') = chatHistory (chat d)
  /\ chatInput (chat d') = chatInput (chat d)
  /\ chatLoading (chat d') = chatLoading (chat d)
  /\ ((exists (first : string) (rest : list value) (data : value),
         answer = Fulfilled data
         /\ get data "models" = Some (VArr (VStr first :: rest))
         /\ availableModels d' = VArr (VStr first :: rest)
         /\ selectedModel (chat d') = first)
      \/ (selectedModel (chat d') = selectedModel (chat d)
          /\ (forall (first : string) (rest : list value) (data : value),
                answer = Fulfilled data ->
                get data "models" <> Some (VArr (VStr first :: rest)))
          /\ (match answer with
              | Rejected _ => True
              | Fulfilled data => get data "models" = None
              end -> availableModels d' = VArr []))).
Proof.
  unfold models_settled.
  destruct answer as [data|e].
  2:{ intros [= <-]. cbn. repeat split. right.
      split; [reflexivity|]. split; [discriminate|reflexivity]. }
  destruct (get data "models") as [m|] eqn:Em.
  2:{ intros [= <-]. cbn. repeat split. right.
      split; [reflexivity|]. split; [|reflexivity].
      intros f r0 dd [= <-]. congruence. }
  assert (Hor : or_else m (VArr []) = m \/ or_else m (VArr []) = VArr []).
  { unfold or_else. destruct (truthy m); auto. }
  destruct (or_else m (VArr []))
    as [| |b|q|str|[|[| | | |first| |] rest]|fs] eqn:Eo; try discriminate;
    intros [= <-]; cbn; repeat split.
  - right. split; [reflexivity|]. split; [|discriminate].
    intros f r0 dd [= <-]. rewrite Em. intros [= ->].
    destruct Hor as [H|H]; discriminate H.
  - right. split; [reflexivity|]. split; [|discriminate].
    intros f r0 dd [= <-]. rewrite Em. intros [= ->].
    destruct Hor as [H|H]; discriminate H.
  - right. split; [reflexivity|]. split; [|reflexivity].
    intros f r0 dd [= <-]. rewrite Em. intros [= ->].
    cbn in Eo. discriminate Eo.
  - left. exists first, rest, data. repeat split.
    destruct Hor as [H|H]; [|discriminate H]. now rewrite Em, <- H.
Qed.

End ModelsFacts.

Module ModelsProps.
Import Text Chat ChatFacts ModelList Models ModelsFacts.

(** X18.  [openChatModal(label)] asks the host for its models and
    starts a fresh chat on that host: the history and the input are
    empty whatever they held.  When the answer is over, the loading
    state has ended; the model selected is the first one offered, or
    none; and a request that fails, or a body that is [null], offers no
    model and selects none. *)
Theorem openChatModal_starts_fresh_chat :
  forall (label : string) (s s' : ChatDialog) (answer : axios_result),
    snd (openChatModal label s answer) = Normal s' ->
    fst (openChatModal label s answer)
    = [{| meth := GET; url := "/llmm/" ++ label ++ "/models";
          body := None |}]
    /\ chat_host s' = label
    /\ chatModalActive s' = true
    /\ modelsLoading (models s') = false
    /\ chatHistory (chat (models s')) = []
    /\ chatInput (chat (models s')) = ""
    /\ chatLoading (chat (models s')) = false
    /\ (selectedModel (chat (models s')) = ""
        \/ exists rest : list value,
             availableModels (models s')
             = VArr (VStr (selectedModel (chat (models s'))) :: rest))
    /\ (match answer with
        | Rejected _ => True
        | Fulfilled data => get data "models" = None
        end ->
        availableModels (models s') = VArr []
        /\ selectedModel (chat (models s')) = "").
Proof.
  intros label s s' answer. unfold openChatModal.
  cbn [openChatModal_begin fst snd models].
  destruct (models_settled answer _) as [d| |] eqn:E; try discriminate.
  intros [= <-]. cbn [with_models chat_host chatModalActive models].
  destruct (models_settled_cases _ _ _ E)
    as (Hl & Hh & Hi & Hc & Hsel).
  cbn [chat chatHistory chatInput chatLoading selectedModel] in *.
  split; [reflexivity|]. split; [reflexivity|]. split; [reflexivity|].
  split; [exact Hl|]. split; [exact Hh|]. split; [exact Hi|].
  split; [exact Hc|].
  destruct Hsel as [(first & rest & data & -> & Hm & Ha & <-)
                   |(Hs & _ & Hnone)].
  - split; [right; now exists rest|]. intros H. congruence.
  - split; [now left|]. intros H. split; [now apply Hnone|exact Hs].
Qed.

(** X18 at a dialog left over from another host, the new host offering
    two models. *)
Lemma openChatModal_starts_fresh_chat_witness :
  exists s' : ChatDialog,
    snd (openChatModal "gpu-1" Cases.old_chat (Fulfilled Cases.two_models))
    = Normal s'
    /\ chatHistory (chat (models s')) = []
    /\ selectedModel (chat (models s')) = "gemma2:2b".
Proof.
  eexists. split; [reflexivity|].
  destruct (openChatModal_starts_fresh_chat
              "gpu-1" Cases.old_chat _ (Fulfilled Cases.two_models) eq_refl)
    as (_ & _ & _ & _ & Hh & _).
  split; [exact Hh|reflexivity].
Defined.

(** X19.  A chat opened on a host talks to that host: after
    [openChatModal(label)] was answered with a list of models, the
    first message typed and sent is one POST to the chat route of
    [label], with the first model of the list and with that message
    alone; nothing of an earlier chat goes along. *)
Theorem chat_opened_on_host_talks_to_it :
  forall (baseURL label text first : string) (rest : list value)
         (s s' : ChatDialog) (data : value) (net : fetch_result),
    get data "models" = Some (VArr (VStr first :: rest)) ->
    snd (openChatModal label s (Fulfilled data)) = Normal s' ->
    nonblank text = true ->
    fst (sendMessage baseURL (chat_host s')
                     (set_chatInput text (chat (models s'))) net)
    = [{| meth := POST;
          url := baseURL ++ "/llmm/" ++ label ++ "/chat";
          body :=
            Some (VObj
              [("messages",
                VArr [VObj [("role", VStr "user");
                            ("content", VStr text)]]);
               ("stream", VBool true);
               ("model", VStr first)]) |}].
Proof.
  intros baseURL label text first rest s s' data net Hm.
  unfold openChatModal. cbn [openChatModal_begin fst snd models].
  unfold models_settled. rewrite Hm. cbn [or_else truthy].
  intros [= <-] Htext.
  rewrite sendMessage_sends by exact Htext.
  reflexivity.
Qed.

(** X19 at the dialog left over from another host. *)
Lemma chat_opened_on_host_talks_to_it_witness :
  get Cases.two_models "models"
  = Some (VArr [VStr "gemma2:2b"; VStr "llama3:8b"])
  /\ nonblank "Hello?" = true
  /\ exists s' : ChatDialog,
       snd (openChatModal "gpu-1" Cases.old_chat (Fulfilled Cases.two_models))
       = Normal s'
       /\ fst (sendMessage "http://api" (chat_host s')
                           (set_chatInput "Hello?" (chat (models s')))
                           (FetchFails "offline"))
          = [{| meth := POST;
                url := "http://api/llmm/gpu-1/chat";
                body :=
                  Some (VObj
                    [("messages",
                      VArr [VObj [("role", VStr "user");
                                  ("content", VStr "Hello?")]]);
                     ("stream", VBool true);
                     ("model", VStr "gemma2:2b")]) |}].
Proof.
  split; [reflexivity|]. split; [reflexivity|].
  eexists. split; [reflexivity|].
  exact (chat_opened_on_host_talks_to_it
           "http://api" "gpu-1" "Hello?" "gemma2:2b" [VStr "llama3:8b"]
           Cases.old_chat _ Cases.two_models (FetchFails "offline")
           eq_refl eq_refl eq_refl).
Defined.

(** X20.  [fetchModels] of ChatView.vue asks the host of the route for
    its models, ends the loading state and leaves the history and the
    input of the chat as they are: with a list of models the first one
    is selected, and with a failed request the list is empty and the
    selection stays as it was. *)
Theorem fetchModels_selects_first_or_keeps :
  forall (label : string) (d d' : ModelsData) (answer : axios_result),
    snd (fetchModels label d answer) = Normal d' ->
    fst (fetchModels label d answer)
    = [{| meth := GET; url := "/llmm/" ++ label ++ "/models";
          body := None |}]
    /\ modelsLoading d' = false
    /\ chatHistory (chat d') = chatHistory (chat d)
    /\ chatInput (chat d') = chatInput (chat d)
    /\ (forall (first : string) (rest : list value) (data : value),
          answer = Fulfilled data ->
          get data "models" = Some (VArr (VStr first :: rest)) ->
          selectedModel (chat d') = first
          /\ availableModels d' = VArr (VStr first :: rest))
    /\ (forall e : axios_error,
          answer = Rejected e ->
          availableModels d' = VArr []
          /\ selectedModel (chat d') = selectedModel (chat d)).
Proof.
  intros label d d' answer. unfold fetchModels. cbn [fst snd].
  intros E. destruct (models_settled_cases _ _ _ E)
    as (Hl & Hh & Hi & Hc & Hsel).
  cbn [chat chatHistory chatInput chatLoading selectedModel] in *.
  split; [reflexivity|]. split; [exact Hl|]. split; [exact Hh|].
  split; [exact Hi|].
  destruct Hsel as [(f & r0 & dd & -> & Hm & Ha & Hs)|(Hs & Hnot & Hnone)].
  - split; [|discriminate].
    intros first rest data [= <-] Hm'. rewrite Hm in Hm'.
    injection Hm' as <- <-. now split.
  - split.
    + intros first rest data Hans Hm'. exfalso.
      exact (Hnot _ _ _ Hans Hm').
    + intros e ->. split; [now apply Hnone|exact Hs].
Qed.

(** X20 at a view whose request fails. *)
Lemma fetchModels_selects_first_or_keeps_witness :
  snd (fetchModels "gpu-1"
         {| chat := Samples.chat; availableModels := VArr [];
            modelsLoading := false |}
         (Rejected Samples.not_found))
  = Normal {| chat := Samples.chat; availableModels := VArr [];
              modelsLoading := false |}
  /\ modelsLoading {| chat := Samples.chat; availableModels := VArr [];
                      modelsLoading := false |} = false.
Proof.
  assert (H : snd (fetchModels "gpu-1"
                     {| chat := Samples.chat; availableModels := VArr [];
                        modelsLoading := false |}
                     (Rejected Samples.not_found))
              = Normal {| chat := Samples.chat; availableModels := VArr [];
                          modelsLoading := false |}) by reflexivity.
  split; [exact H|].
  exact (proj1 (proj2 (fetchModels_selects_first_or_keeps
                         "gpu-1" _ _ (Rejected Samples.not_found) H))).
Defined.

(** X21.  [openListModal(label)] asks the host for its models and shows
    the list it gets.  A request that fails is shown like a host
    without models: the dialog says that no models are available, and
    so it does for a body without [models].  The model handed to
    [confirmDeleteModel] and then deleted is asked of the host whose
    list is open. *)
Theorem openListModal_shows_failure_as_empty :
  forall (label : string) (s : ListDialog) (answer : axios_result),
    fst (openListModal label s answer)
    = [{| meth := GET; url := "/llmm/" ++ label ++ "/models";
          body := None |}]
    /\ list_host (snd (openListModal label s answer)) = label
    /\ (match answer with
        | Rejected _ => True
        | Fulfilled data => truthy (get_opt data "models") = false
        end ->
        render_list (listing (snd (openListModal label s answer)))
        = Shows NoModels)
    /\ (forall (data : value) (m : value) (ms : list value),
          answer = Fulfilled data ->
          get data "models" = Some (VArr (m :: ms)) ->
          render_list (listing (snd (openListModal label s answer)))
          = Shows (Items (m :: ms)))
    /\ (forall (model : value) (a r : axios_result),
          truthy model = true ->
          exists more : list request,
            sent (deleteModel
                    (list_host (snd (openListModal label s answer)))
                    (confirmDeleteModel model
                       (listing (snd (openListModal label s answer))))
                    a r)
            = {| meth := DELETE;
                 url := "/llmm/" ++ label ++ "/delete";
                 body := Some (VObj [("model_name", model)]) |} :: more).
Proof.
  intros label s answer. unfold openListModal. cbn [fst snd list_host listing].
  split; [reflexivity|]. split; [reflexivity|]. split; [|split].
  - unfold render_list. cbn [listModelsLoading listModels].
    destruct answer as [data|e]; [|reflexivity].
    unfold get_opt. destruct (get data "models") as [m|]; [|reflexivity].
    intros Hm. unfold or_else. now rewrite Hm.
  - intros data m ms -> Hm. unfold render_list.
    cbn [listModelsLoading listModels]. now rewrite Hm.
  - intros model a r Hmodel. unfold deleteModel, confirmDeleteModel.
    cbn [modelToDelete]. rewrite Hmodel. cbn [negb].
    destruct a as [data|e].
    + destruct (get data "status") as [status|]; [|now eexists].
      destruct (is_string status "success"); now eexists.
    + destruct (detail_or_message e); now eexists.
Qed.

End ModelsProps.

Module LifecycleProps.
Import Dashboard DashboardFacts Lifecycle.

Lemma timers_owned_run (evs : list event) :
  forall w : World, timers_owned w -> timers_owned (run w evs).
Proof.
  induction evs as [|ev evs IH]; intros w Hown; [exact Hown|].
  cbn [run]. apply IH. now apply timers_owned_step.
Qed.

(** X22.  After any sequence of events since the page was loaded
    (mounting, choices of the interval, timers that fire, answers that
    arrive), every timer that runs is one whose id the component holds,
    so no three timers run at once and none was left behind by a
    restart; and [beforeUnmount] then stops every timer. *)
Theorem timers_never_leak :
  forall evs : list event,
    timers_owned (run page_loaded evs)
    /\ (forall (a b c : nat) (ta tb tc : timer),
          timers (run page_loaded evs) !! a = Some ta ->
          timers (run page_loaded evs) !! b = Some tb ->
          timers (run page_loaded evs) !! c = Some tc ->
          a = b \/ a = c \/ b = c)
    /\ timers (fst (step (run page_loaded evs) BeforeUnmount)) = ∅
    /\ snd (step (run page_loaded evs) BeforeUnmount) = [].
Proof.
  intros evs.
  pose proof (timers_owned_run evs page_loaded timers_owned_page_loaded)
    as Hown.
  split; [exact Hown|]. split; [|split; [|reflexivity]].
  - intros a b c ta tb tc Ha Hb Hc.
    destruct Hown as [_ Hown].
    destruct (Hown a ta Ha) as [_ Ha'].
    destruct (Hown b tb Hb) as [_ Hb'].
    destruct (Hown c tc Hc) as [_ Hc'].
    destruct Ha' as [Ha'|Ha'], Hb' as [Hb'|Hb'], Hc' as [Hc'|Hc'];
      first [left; congruence
            |right; left; congruence
            |right; right; congruence].
  - cbn [step fst].
    pose proof (cleared_world _ Hown) as Hc.
    rewrite clear_if_set_data in Hc. now rewrite Hc.
Qed.

End LifecycleProps.

Module SnapshotProps.
Import Dashboard DashboardFacts.

(** X23.  Every answer to the snapshot request ends the loading state.
    A request that fails, and a body that is [null], leave the table as
    it was.  A body that is an object without [endpoints] takes the
    table away: the page is back at its placeholder, whatever the
    search box holds. *)
Theorem fetchEndpoints_keeps_table_on_failure :
  forall (s : RefreshData),
    (forall res : axios_result,
        fst (fetchEndpoints s res) = [snapshot_request]
        /\ loading (snd (fetchEndpoints s res)) = false
        /\ searchQuery (snd (fetchEndpoints s res)) = searchQuery s)
    /\ (forall res : axios_result,
          match res with
          | Rejected _ => True
          | Fulfilled body => body = VNull \/ body = VUndefined
          end ->
          endpoints (snd (fetchEndpoints s res)) = endpoints s
          /\ render (snd (fetchEndpoints s res)) = render s)
    /\ (forall fs : list (string * value),
          lookup_field "endpoints" fs = VUndefined ->
          endpoints (snd (fetchEndpoints s (Fulfilled (VObj fs)))) = VUndefined
          /\ render (snd (fetchEndpoints s (Fulfilled (VObj fs))))
             = Shows Connecting).
Proof.
  intros s. split; [|split].
  - intros res. unfold fetchEndpoints, fetchEndpoints_begin,
      fetchEndpoints_settled.
    destruct res as [body|e]; cbn [fst snd]; [|now repeat split].
    destruct (get body "endpoints"); now repeat split.
  - intros res Hres.
    assert (He : snd (fetchEndpoints s res) = set_loading false s).
    { destruct res as [body|e]; [|now destruct s].
      destruct Hres as [-> | ->]; now destruct s. }
    rewrite He. split; reflexivity.
  - intros fs Hfs.
    unfold fetchEndpoints, fetchEndpoints_begin, fetchEndpoints_settled.
    cbn [snd get]. rewrite Hfs. split; reflexivity.
Qed.

End SnapshotProps.

Module MountProps.
Import Dashboard DashboardFacts.

(** X24.  Mounting the page asks for the snapshot twice, once from
    [mounted] and once from [startRefresh], and turns the loading state
    on; the first answer that arrives, whichever it is, turns the
    loading state off again. *)
Theorem mounting_fetches_twice :
  forall w : World,
    timers_owned w ->
    snd (step w Mounted) = [snapshot_request; snapshot_request]
    /\ loading (data (fst (step w Mounted))) = true
    /\ forall res : axios_result,
         loading (data (fst (step (fst (step w Mounted))
                                  (FetchSettled res)))) = false
         /\ snd (step (fst (step w Mounted)) (FetchSettled res)) = [].
Proof.
  intros w Hown. cbn [step fetchEndpoints_begin].
  assert (Hown' : timers_owned (with_data (set_loading true (data w)) w)).
  { now apply timers_owned_with_data. }
  destruct (Z.eq_dec (refreshInterval (data w)) 1000%Z) as [E|E].
  - rewrite (startRefresh_adaptive _ Hown' E). cbn. repeat split.
  - rewrite (startRefresh_fixed _ Hown' E). cbn. repeat split.
Qed.

(** X24 at the page as loaded. *)
Lemma mounting_fetches_twice_witness :
  timers_owned page_loaded
  /\ snd (step page_loaded Mounted) = [snapshot_request; snapshot_request].
Proof.
  split; [exact timers_owned_page_loaded|].
  exact (proj1 (mounting_fetches_twice page_loaded
                  timers_owned_page_loaded)).
Defined.

End MountProps.

Module CellsProps.
Import Cells CellsFacts.

Lemma latestExpiry_perm (ms ms' : list Model) :
  Permutation ms ms' -> latestExpiry ms = latestExpiry ms'.
Proof.
  intros Hp. unfold latestExpiry.
  pose proof (latest_fold ms None) as H.
  pose proof (latest_fold ms' None) as H'.
  destruct (fold_left later ms None) as [t|],
           (fold_left later ms' None) as [t'|].
  - destruct H as ([E|(m & Hin & Hm)] & _ & Hmax); [discriminate|].
    destruct H' as ([E|(m' & Hin' & Hm')] & _ & Hmax'); [discriminate|].
    f_equal. apply Z.le_antisymm.
    + apply (Hmax' m t); [|exact Hm]. now apply (Permutation_in _ Hp).
    + apply (Hmax m' t'); [|exact Hm'].
      now apply (Permutation_in _ (Permutation_sym Hp)).
  - destruct H as ([E|(m & Hin & Hm)] & _); [discriminate|].
    destruct H' as [_ Hall]. rewrite List.Forall_forall in Hall.
    specialize (Hall m (Permutation_in _ Hp Hin)).
    unfold no_expiry in Hall. congruence.
  - destruct H' as ([E|(m & Hin & Hm)] & _); [discriminate|].
    destruct H as [_ Hall]. rewrite List.Forall_forall in Hall.
    specialize (Hall m (Permutation_in _ (Permutation_sym Hp) Hin)).
    unfold no_expiry in Hall. congruence.
  - reflexivity.
Qed.

(** X25.  The expiry cell does not depend on the order in which the
    models of a host are listed: for two lists that hold the same models
    [formatTimeRemaining] gives the same text. *)
Theorem formatTimeRemaining_any_order :
  forall (formatDistanceToNow : Z -> string) (models models' : list Model),
    Permutation models models' ->
    formatTimeRemaining formatDistanceToNow (Some models)
    = formatTimeRemaining formatDistanceToNow (Some models').
Proof.
  intros fmt ms ms' Hp.
  assert (Hrun : forall l,
             formatTimeRemaining fmt (Some l)
             = match latestExpiry l with
               | None => "N/A"
               | Some t => fmt t
               end).
  { intros [|m l]; reflexivity. }
  now rewrite !Hrun, (latestExpiry_perm ms ms' Hp).
Qed.

(** X25 at the sample models and the same models in reverse. *)
Lemma formatTimeRemaining_any_order_witness :
  Permutation Samples.loaded (rev Samples.loaded)
  /\ formatTimeRemaining Samples.at_ms (Some Samples.loaded)
     = "at 1700000300000 ms"
  /\ formatTimeRemaining Samples.at_ms (Some Samples.loaded)
     = formatTimeRemaining Samples.at_ms (Some (rev Samples.loaded)).
Proof.
  pose proof (Permutation_rev Samples.loaded) as H.
  split; [exact H|]. split; [reflexivity|].
  exact (formatTimeRemaining_any_order
           Samples.at_ms Samples.loaded (rev Samples.loaded) H).
Defined.

Local Open Scope Q_scope.





End CellsProps.

Module AliasListProps.
Import LitellmList.

(** X27.  With an alias id pending, [deleteLitellmModel] sends a DELETE
    to the path that ends in the id, without a body.  When the response
    reports the status ['success'] it closes the confirmation, clears
    the pending id and fetches the aliases of the selected host again;
    the list becomes the fetched list, and stays as it was when that
    fetch fails.  When the response reports anything else, nothing is
    changed and nothing more is sent.  When the request fails, the list,
    the pending id and the open confirmation stay as they were, and the
    alert shows the server's [detail], or the error's message.  In each
    case the progress flag is off at the end. *)
Theorem deleteLitellmModel_all_or_nothing :
  forall (s : AliasListData) (id : string) (answer refresh : axios_result),
    litellmModelToDelete s = VStr id ->
    id <> "" ->
    (exists more : list request,
        sent (deleteLitellmModel s answer refresh)
        = {| meth := DELETE; url := "/llmm/litellm/models/" ++ id;
             body := None |} :: more)
    /\ (forall data status : value,
          answer = Fulfilled data ->
          get data "status" = Some status ->
          is_string status "success" = true ->
          exists s' : AliasListData,
            result (deleteLitellmModel s answer refresh) = Normal s'
            /\ litellmDeleteConfirmModal s' = false
            /\ litellmModelToDelete s' = VNull
            /\ litellmDeleteInProgress s' = false
            /\ litellmListLoading s' = false
            /\ sent (deleteLitellmModel s answer refresh)
               = [delete_alias_request id;
                  {| meth := GET;
                     url := "/llmm/litellm/models/" ++ selectedHost s;
                     body := None |}]
            /\ alerts (deleteLitellmModel s answer refresh) = []
            /\ (forall body models : value,
                  refresh = Fulfilled body ->
                  get body "models" = Some models ->
                  litellmListModels s' = or_else models (VArr []))
            /\ (forall e : axios_error,
                  refresh = Rejected e ->
                  litellmListModels s' = litellmListModels s))
    /\ (forall data status : value,
          answer = Fulfilled data ->
          get data "status" = Some status ->
          is_string status "success" = false ->
          deleteLitellmModel s answer refresh
          = {| sent := [delete_alias_request id]; alerts := [];
               result := Normal (set_litellmDeleteInProgress false s) |})
    /\ (forall (e : axios_error) (text : string),
          answer = Rejected e ->
          detail_or_message e = Some text ->
          deleteLitellmModel s answer refresh
          = {| sent := [delete_alias_request id];
               alerts := [("Failed to delete model from LiteLLM: "
                           ++ text)%string];
               result := Normal (set_litellmDeleteInProgress false s) |}).
Proof.
  intros s id answer refresh Hid Hne.
  assert (Ht : truthy (litellmModelToDelete s) = true).
  { rewrite Hid. cbn. now destruct (String.eqb_spec id ""). }
  unfold deleteLitellmModel. rewrite Ht, Hid. cbn [negb].
  split; [|split; [|split]].
  - destruct answer as [data|e].
    + destruct (get data "status") as [status|]; [|now eexists].
      destruct (is_string status "success"); now eexists.
    + destruct (detail_or_message e); now eexists.
  - intros data status -> Hs Hok. rewrite Hs, Hok.
    eexists. split; [reflexivity|]. cbn.
    repeat split.
    + intros body models -> Hm. now rewrite Hm.
    + now intros e ->.
  - intros data status -> Hs Hno. now rewrite Hs, Hno.
  - intros e text -> Hd. now rewrite Hd.
Qed.

(** X27 at the sample alias list, the server answering 404 with a
    detail. *)
Lemma deleteLitellmModel_all_or_nothing_witness :
  litellmModelToDelete Cases.alias_dialog = VStr "A-team-gemma"
  /\ "A-team-gemma" <> ""
  /\ deleteLitellmModel Cases.alias_dialog (Rejected Samples.not_found)
                        (Rejected Samples.not_found)
     = {| sent := [{| meth := DELETE;
                      url := "/llmm/litellm/models/A-team-gemma";
                      body := None |}];
          alerts := ["Failed to delete model from LiteLLM: model not found"];
          result := Normal Cases.alias_dialog |}.
Proof.
  assert (H1 : litellmModelToDelete Cases.alias_dialog = VStr "A-team-gemma")
    by reflexivity.
  assert (H2 : "A-team-gemma" <> "") by discriminate.
  split; [exact H1|]. split; [exact H2|].
  destruct (deleteLitellmModel_all_or_nothing
              Cases.alias_dialog "A-team-gemma" (Rejected Samples.not_found)
              (Rejected Samples.not_found) H1 H2) as (_ & _ & _ & Hrej).
  exact (Hrej Samples.not_found "model not found" eq_refl eq_refl).
Defined.

End AliasListProps.

Module AliasDialogProps.
Import LitellmList.

(** X28.  [openLitellmListModal(label)] asks for the aliases of the
    host and keeps the list it gets; a request that fails, and a body
    without [models], leave the empty list.  The id handed to
    [confirmDeleteLitellmModel] is the one [deleteLitellmModel] then
    puts into the path of its DELETE, and [closeLitellmListModal]
    empties the list. *)
Theorem openLitellmListModal_lists_aliases :
  forall (label : string) (s : AliasListData) (answer : axios_result),
    fst (openLitellmListModal label s answer)
    = [{| meth := GET; url := "/llmm/litellm/models/" ++ label;
          body := None |}]
    /\ selectedHost (snd (openLitellmListModal label s answer)) = label
    /\ litellmListLoading (snd (openLitellmListModal label s answer)) = false
    /\ (match answer with
        | Rejected _ => True
        | Fulfilled data => truthy (get_opt data "models") = false
        end ->
        litellmListModels (snd (openLitellmListModal label s answer))
        = VArr [])
    /\ (forall data models : value,
          answer = Fulfilled data ->
          get data "models" = Some models ->
          truthy models = true ->
          litellmListModels (snd (openLitellmListModal label s answer))
          = models)
    /\ (forall (id : string) (a r : axios_result),
          id <> "" ->
          exists more : list request,
            sent (deleteLitellmModel
                    (confirmDeleteLitellmModel (VStr id)
                       (snd (openLitellmListModal label s answer))) a r)
            = {| meth := DELETE; url := "/llmm/litellm/models/" ++ id;
                 body := None |} :: more)
    /\ litellmListModels
         (closeLitellmListModal (snd (openLitellmListModal label s answer)))
       = VArr [].
Proof.
  intros label s answer. unfold openLitellmListModal.
  cbn [fst snd selectedHost litellmListLoading litellmListModels].
  split; [reflexivity|]. split; [reflexivity|]. split; [reflexivity|].
  split; [|split; [|split; [|reflexivity]]].
  - destruct answer as [data|e]; [|reflexivity].
    unfold get_opt. destruct (get data "models") as [m|]; [|reflexivity].
    intros Hm. unfold or_else. now rewrite Hm.
  - intros data models -> Hm Ht. rewrite Hm. unfold or_else. now rewrite Ht.
  - intros id a r Hid. unfold deleteLitellmModel, confirmDeleteLitellmModel.
    cbn [litellmModelToDelete truthy].
    destruct (String.eqb_spec id ""); [contradiction|]. cbn [negb].
    destruct a as [data|e].
    + destruct (get data "status") as [status|]; [|now eexists].
      destruct (is_string status "success"); now eexists.
    + destruct (detail_or_message e); now eexists.
Qed.

End AliasDialogProps.

Module BulkProps.
Import Litellm Bulk.

(** X29.  [purgeLitellmModels] with hosts selected sends one POST that
    names exactly the selected hosts, in the order of selection, and
    keeps the answer as the results; when the request fails it alerts
    and keeps no results; either way the purge is no longer running.
    Closing either bulk dialog empties the selection, after which
    neither [purgeLitellmModels] nor [createLitellmModels] sends
    anything, and the bar with the bulk buttons is gone.  Opening
    either dialog keeps the selection and shows no results of an
    earlier run; the create dialog opens without names, so
    [createLitellmModels] sends nothing before they are typed. *)
Theorem purgeLitellmModels_names_the_selection :
  forall (s : BulkData) (answer : axios_result),
    (selectedHosts (create s) <> [] ->
     sent (purgeLitellmModels s answer)
     = [{| meth := POST;
           url := "/llmm/litellm/models/bulk-purge";
           body := Some (VObj [("host_labels",
                                VArr (map VStr
                                        (selectedHosts (create s))))]) |}]
     /\ (forall data : value,
           answer = Fulfilled data ->
           purgeLitellmModels s answer
           = {| sent := [bulk_purge_request s]; alerts := [];
                result := Normal (purge_settled data s) |})
     /\ (forall (e : axios_error) (text : string),
           answer = Rejected e ->
           detail_or_message e = Some text ->
           purgeLitellmModels s answer
           = {| sent := [bulk_purge_request s];
                alerts := [("Failed to purge models: " ++ text)%string];
                result := Normal (purge_settled VNull s) |})
     /\ (forall s' : BulkData,
           final (result (purgeLitellmModels s answer)) = Some s' ->
           litellmPurging s' = false
           /\ selectedHosts (create s') = selectedHosts (create s)))
    /\ (forall closed : BulkData,
          closed = closeLitellmPurgeModal s \/ closed = closeLitellmModal s ->
          selectedHosts (create closed) = []
          /\ bulk_bar closed = false
          /\ purgeLitellmModels closed answer
             = {| sent := []; alerts := []; result := Returned closed |}
          /\ createLitellmModels closed answer
             = {| sent := []; alerts := []; result := Returned closed |})
    /\ (forall opened : BulkData,
          opened = openLitellmPurgeModal s \/ opened = openLitellmModal s ->
          selectedHosts (create opened) = selectedHosts (create s)
          /\ litellmResults (create (openLitellmModal s)) = VNull
          /\ litellmPurgeResults (openLitellmPurgeModal s) = VNull
          /\ createLitellmModels (openLitellmModal s) answer
             = {| sent := []; alerts := [];
                  result := Returned (openLitellmModal s) |}).
Proof.
  intros s answer. split; [|split].
  - intros Hsel. unfold purgeLitellmModels.
    destruct (Nat.eqb_spec (length (selectedHosts (create s))) 0) as [E|_].
    { destruct (selectedHosts (create s)); [contradiction|discriminate E]. }
    split; [|split; [|split]].
    + destruct answer as [data|e]; [reflexivity|].
      now destruct (detail_or_message e).
    + now intros data ->.
    + intros e text -> Hd. now rewrite Hd.
    + intros s'. destruct answer as [data|e]; cbn.
      * intros [= <-]. now split.
      * destruct (detail_or_message e); cbn; [|discriminate].
        intros [= <-]. now split.
  - intros closed [-> | ->].
    + repeat split. unfold createLitellmModels, Litellm.createLitellmModels.
      cbn [closeLitellmPurgeModal create set_selectedHosts selectedHosts
           length Nat.eqb orb].
      rewrite !orb_true_r. reflexivity.
    + repeat split.
  - intros opened [-> | ->]; repeat split.
Qed.

End BulkProps.
